(** * The per-conversation message window of Telegram Desktop

    A shallow embedding of [History] (Telegram/SourceFiles/history/history.cpp)
    and of the properties its specification states about it.

    Conventions of the embedding.
    - [int], [MsgId] and [TimeId] are 32-bit signed integers: values are
      carried in [Z] and additions go through [wrap32], the two's complement
      wrap-around of the compiled code.
    - A member function [void History::f(args)] becomes [f args : Op unit],
      a state transformer over the [History] record that either finishes
      with a result or aborts on a failed [Expects]/[Assert].
    - Calls into collaborators (session, storage, notification and peer
      update hubs, the dialogs entry base class) append an [Effect] to the
      trace; their answers, where the code branches on them, are read from
      an [Env].
    - A [HistoryItem*] is the item record itself: an item is created once
      per message id (see [createItem]), so pointer equality is equality of
      records.  A [HistoryView::Element*] owned by a block is identified
      with the item it displays, and [item->mainView()] is membership of
      the item in [blocks] (the view attaches itself on [attachToBlock] and
      detaches in [HistoryBlock::remove] and when the blocks are cleared). *)

From stdpp Require Import base option list gmap strings.
From Stdlib Require Import ZArith Lia Bool.

Open Scope Z_scope.

(** ** Machine integers *)

Definition MsgId := Z.
Definition TimeId := Z.
Definition PeerId := Z.
Definition UserId := Z.

Definition int_min : Z := - 2 ^ 31.
Definition int_max : Z := 2 ^ 31 - 1.

(** [std::numeric_limits<MsgId>::max()] *)
Definition MsgId_max : MsgId := int_max.

Definition in_int (z : Z) : Prop := int_min <= z <= int_max.

Definition wrap32 (z : Z) : Z := (z + 2 ^ 31) mod 2 ^ 32 - 2 ^ 31.

Definition int_add (a b : Z) : Z := wrap32 (a + b).
Definition int_sub (a b : Z) : Z := wrap32 (a - b).
Definition int_neg (a : Z) : Z := wrap32 (- a).

(** [std::size_t], the type of a container's [size()]: unsigned, 64 bits.
    Where the code compares a size with an [int], the [int] is converted
    to [size_t], that is taken modulo [2^64]: a negative [int] compares as
    a value of at least [2^64 - 2^31].  (With a [size_t] of 32 bits the
    modulus is [2^32]; the comparison comes out the same for an [int] that
    is not negative, and for a negative [int] against a size of at most
    [int_max].) *)
Definition to_size_t (z : Z) : Z := z mod 2 ^ 64.

(** [accumulate_max(a, b)]: [if (a < b) a = b;] *)
Definition accumulate_max (a b : Z) : Z := if a <? b then b else a.

(** ** Items, messages and peers *)

(** What history.cpp reads of [item->from()] and [item->author()]. *)
Record PeerRef := {
  ref_id : PeerId;
  ref_isUser : bool;
  ref_botInfo : bool
}.

(** [MTPDreplyKeyboardMarkup] flags read by the keyboard tracking. *)
Record MarkupFlags := {
  f_selective : bool;
  f_zero : bool
}.

(** The attributes of a [HistoryItem] that history.cpp consults. *)
Record HistoryItem := {
  id : MsgId;
  date : TimeId;
  out : bool;
  unread : bool;
  isPost : bool;
  from : PeerRef;
  author : PeerRef;
  isGroupMigrate : bool;
  isGroupEssential : bool;
  definesReplyKeyboard : bool;
  replyKeyboardFlags : MarkupFlags;
  mentionsMe : bool;
  isUnreadMention : bool;
  sharedMediaTypes : bool;
  hasGroupId : bool
}.

#[global] Instance PeerRef_eq_dec : EqDecision PeerRef.
Proof. solve_decision. Defined.
#[global] Instance MarkupFlags_eq_dec : EqDecision MarkupFlags.
Proof. solve_decision. Defined.
#[global] Instance HistoryItem_eq_dec : EqDecision HistoryItem.
Proof. solve_decision. Defined.

(** Pointer comparison [a == b] of two [HistoryItem*]. *)
Definition same_item (a b : HistoryItem) : bool := bool_decide (a = b).

Definition same_ptr (a b : option HistoryItem) : bool := bool_decide (a = b).

Inductive NewMessageType :=
  | NewMessageUnread
  | NewMessageLast
  | NewMessageExisting.

Inductive UnreadMentionType :=
  | New
  | Existing.

#[global] Instance NewMessageType_eq_dec : EqDecision NewMessageType.
Proof. solve_decision. Defined.
#[global] Instance UnreadMentionType_eq_dec : EqDecision UnreadMentionType.
Proof. solve_decision. Defined.

(** The service actions [applyServiceChanges] dispatches on. *)
Inductive MessageAction :=
  | messageActionChatAddUser (users : list UserId)
  | messageActionChatJoinedByLink
  | messageActionChatDeletePhoto
  | messageActionChatDeleteUser (user_id : UserId)
  | messageActionChatEditPhoto
  | messageActionChatEditTitle
  | messageActionChatMigrateTo (channel_id : Z)
  | messageActionChannelMigrateFrom (chat_id : Z)
  | messageActionPinMessage
  | messageActionPhoneCall
  | messageActionOther.

Inductive MessageKind :=
  | mtpc_messageEmpty
  | mtpc_message
  | mtpc_messageService (action : MessageAction).

(** A raw [MTPMessage]: its constructor and the item [HistoryItem::Create]
    builds from it.  [IdFromMessage] is the id of that item. *)
Record MTPMessage := {
  mtp_type : MessageKind;
  mtp_item : HistoryItem
}.

Definition IdFromMessage (message : MTPMessage) : MsgId := id (mtp_item message).

(** [Data::Draft] *)
Record Draft := {
  draft_date : TimeId;
  textWithTags : string;
  msgId : MsgId;
  cursor : Z;
  previewCancelled : bool
}.

#[global] Instance Draft_eq_dec : EqDecision Draft.
Proof. solve_decision. Defined.

Record UserData := {
  botInfo : bool
}.

Record ChatData := {
  lastAuthors : list PeerId;
  chat_markupSenders : gset PeerId;
  participants : gset PeerId;
  getMigrateToChannel : option PeerId
}.

Record MegagroupInfo := {
  lastParticipants : list PeerId;
  bots : gset PeerId;
  botStatus : Z;
  markupSenders : gset PeerId;
  joinedMessageFound : bool;
  getMigrateFromChat : option PeerId
}.

(** [mgInfo] is allocated exactly when the megagroup flag is set, so the
    flag and the pointer are one [option]. *)
Record ChannelData := {
  mgInfo : option MegagroupInfo;
  amIn : bool;
  inviter : UserId;
  inviteDate : TimeId;
  feed : bool
}.

Inductive PeerKind :=
  | PeerUser (user : UserData)
  | PeerChat (chat : ChatData)
  | PeerChannel (channel : ChannelData).

Record PeerData := {
  peer_id : PeerId;
  peer_kind : PeerKind;
  canWrite : bool
}.

Definition asUser (p : PeerData) : option UserData :=
  match peer_kind p with PeerUser u => Some u | _ => None end.

Definition asChat (p : PeerData) : option ChatData :=
  match peer_kind p with PeerChat c => Some c | _ => None end.

Definition asChannel (p : PeerData) : option ChannelData :=
  match peer_kind p with PeerChannel c => Some c | _ => None end.

Definition asMegagroup (p : PeerData) : option MegagroupInfo :=
  match peer_kind p with PeerChannel c => mgInfo c | _ => None end.

Definition isUser (p : PeerData) : bool := bool_decide (is_Some (asUser p)).
Definition isChat (p : PeerData) : bool := bool_decide (is_Some (asChat p)).
Definition peer_isChannel (p : PeerData) : bool := bool_decide (is_Some (asChannel p)).
Definition peer_isMegagroup (p : PeerData) : bool := bool_decide (is_Some (asMegagroup p)).

Definition migrateTo (p : PeerData) : option PeerId :=
  match asChat p with Some c => getMigrateToChannel c | None => None end.

Definition migrateFrom (p : PeerData) : option PeerId :=
  match asMegagroup p with Some mg => getMigrateFromChat mg | None => None end.

(** ** The window *)

(** [HistoryBlock]: a run of views, each identified with its item. *)
Record HistoryBlock := {
  messages : list HistoryItem
}.

(** [History::BuildingBlock].  [block], when set, is the index of the block
    under construction in [blocks] (it is [blocks.front()]). *)
Record BuildingBlock := {
  expectedItemsCount : Z;
  block : option nat
}.

(** [SendAction]: an upload/record/play indicator with its expiry. *)
Record SendAction := {
  action_type : Z;
  until : Z;
  progress : Z
}.

(** Calls into collaborators, in the order they are issued. *)
Inductive Effect :=
  | LOG (text : string)
  | Notify_historyMuteUpdated
  | Notify_peerUpdatedDelayed (flag : string)
  | updateChatListEntry
  | updateChatListSortPosition
  | setChatListTimeId (date : TimeId)
  | Local_removeSavedPeer
  | api_requestDialogEntry
  | api_requestFakeChatListMessage
  | sibling_requestChatListMessage (peer : PeerId)
  | sibling_updateChatListEntry (peer : PeerId)
  | owner_unreadIncrement (delta : Z) (muted : bool)
  | owner_unreadEntriesChanged (delta mutedDelta : Z)
  | owner_updateSendActionAnimation (changed : bool)
  | owner_notifyHistoryChangeDelayed
  | owner_notifyHistoryUnloaded
  | owner_notifyHistoryCleared
  | owner_addNewMegagroupParticipant (user : PeerId)
  | owner_removeMegagroupParticipant (user : PeerId)
  | feed_unreadCountChanged (delta mutedDelta : Z)
  | feed_historyCleared
  | channel_clearPinnedMessage
  | peer_serviceAction (action : MessageAction)
  | main_updateBotKeyboard
  | main_historyToDown
  | main_newUnreadMsg (item : MsgId)
  | main_repaintDialogRow (item : MsgId)
  | notifications_clearFromHistory
  | storage_add_SharedMediaAddExisting (item : MsgId) (from till : MsgId)
  | storage_add_SharedMediaAddSlice (ids : list MsgId) (from till : MsgId)
  | storage_remove_SharedMediaRemoveAll
  | view_setUnreadBarCount (item : MsgId) (count : Z)
  | view_setUnreadBarFreezed (item : MsgId)
  | view_destroyUnreadBar (item : MsgId)
  | view_previousInBlocksChanged (item : MsgId)
  | view_nextInBlocksRemoved (item : MsgId)
  | item_updateSentMedia (item : MsgId)
  | item_indexAsNewItem (item : MsgId)
  | user_madeAction (user : PeerId) (when : TimeId)
  | App_checkSavedGif (item : MsgId).

(** The [History] object, followed by the two pieces of its owner it works
    on: the id-to-item registry behind [App::histItemById] for this
    conversation's id space, and the trace of collaborator calls. *)
Record History := {
  peer : PeerData;
  blocks : list HistoryBlock;
  _loadedAtTop : bool;
  _loadedAtBottom : bool;
  _buildingFrontBlock : option BuildingBlock;
  _inboxReadBefore : option MsgId;
  _outboxReadBefore : option MsgId;
  _unreadCount : option Z;
  _unreadMark : bool;
  _unreadMentions : gset MsgId;
  _unreadMentionsCount : option Z;
  _lastMessage : option (option HistoryItem);
  _chatListMessage : option (option HistoryItem);
  _localDraft : option Draft;
  _cloudDraft : option Draft;
  notifies : list HistoryItem;
  _firstUnreadView : option HistoryItem;
  _unreadBarView : option HistoryItem;
  scrollTopItem : option HistoryItem;
  _joinedMessage : option HistoryItem;
  lastKeyboardInited : bool;
  lastKeyboardId : MsgId;
  lastKeyboardHiddenId : MsgId;
  lastKeyboardFrom : PeerId;
  lastKeyboardUsed : bool;
  _mute : bool;
  _typing : gmap PeerId Z;
  _sendActions : gmap PeerId SendAction;
  items : gmap MsgId HistoryItem;
  effects : list Effect
}.

Definition History_eta (h : History) : History := {|
  peer := peer h; blocks := blocks h;
  _loadedAtTop := _loadedAtTop h; _loadedAtBottom := _loadedAtBottom h;
  _buildingFrontBlock := _buildingFrontBlock h;
  _inboxReadBefore := _inboxReadBefore h; _outboxReadBefore := _outboxReadBefore h;
  _unreadCount := _unreadCount h; _unreadMark := _unreadMark h;
  _unreadMentions := _unreadMentions h; _unreadMentionsCount := _unreadMentionsCount h;
  _lastMessage := _lastMessage h; _chatListMessage := _chatListMessage h;
  _localDraft := _localDraft h; _cloudDraft := _cloudDraft h;
  notifies := notifies h;
  _firstUnreadView := _firstUnreadView h; _unreadBarView := _unreadBarView h;
  scrollTopItem := scrollTopItem h; _joinedMessage := _joinedMessage h;
  lastKeyboardInited := lastKeyboardInited h; lastKeyboardId := lastKeyboardId h;
  lastKeyboardHiddenId := lastKeyboardHiddenId h;
  lastKeyboardFrom := lastKeyboardFrom h; lastKeyboardUsed := lastKeyboardUsed h;
  _mute := _mute h; _typing := _typing h; _sendActions := _sendActions h;
  items := items h; effects := effects h
|}.

(** [assign f v h]: the record [h] with field [f] replaced by [v]. *)
Ltac assign f v h :=
  let e := eval cbv beta delta [History_eta] in (History_eta h) in
  lazymatch e with
  | context C [f h] => let e' := context C [v] in exact e'
  end.

Definition set_peer v h : History := ltac:(assign peer v h).
Definition set_blocks v h : History := ltac:(assign blocks v h).
Definition set_loadedAtTop v h : History := ltac:(assign _loadedAtTop v h).
Definition set_loadedAtBottom v h : History := ltac:(assign _loadedAtBottom v h).
Definition set_buildingFrontBlock v h : History := ltac:(assign _buildingFrontBlock v h).
Definition set_inboxReadBefore v h : History := ltac:(assign _inboxReadBefore v h).
Definition set_outboxReadBefore v h : History := ltac:(assign _outboxReadBefore v h).
Definition set_unreadCount v h : History := ltac:(assign _unreadCount v h).
Definition set_unreadMark v h : History := ltac:(assign _unreadMark v h).
Definition set_unreadMentions v h : History := ltac:(assign _unreadMentions v h).
Definition set_unreadMentionsCount v h : History := ltac:(assign _unreadMentionsCount v h).
Definition set_lastMessage v h : History := ltac:(assign _lastMessage v h).
Definition set_chatListMessage v h : History := ltac:(assign _chatListMessage v h).
Definition set_localDraft v h : History := ltac:(assign _localDraft v h).
Definition set_cloudDraft v h : History := ltac:(assign _cloudDraft v h).
Definition set_notifies v h : History := ltac:(assign notifies v h).
Definition set_firstUnreadView v h : History := ltac:(assign _firstUnreadView v h).
Definition set_unreadBarView v h : History := ltac:(assign _unreadBarView v h).
Definition set_scrollTopItem v h : History := ltac:(assign scrollTopItem v h).
Definition set_joinedMessage v h : History := ltac:(assign _joinedMessage v h).
Definition set_lastKeyboardInited v h : History := ltac:(assign lastKeyboardInited v h).
Definition set_lastKeyboardId v h : History := ltac:(assign lastKeyboardId v h).
Definition set_lastKeyboardHiddenId v h : History := ltac:(assign lastKeyboardHiddenId v h).
Definition set_lastKeyboardFrom v h : History := ltac:(assign lastKeyboardFrom v h).
Definition set_lastKeyboardUsed v h : History := ltac:(assign lastKeyboardUsed v h).
Definition set_mute v h : History := ltac:(assign _mute v h).
Definition set_typing v h : History := ltac:(assign _typing v h).
Definition set_sendActions v h : History := ltac:(assign _sendActions v h).
Definition set_items v h : History := ltac:(assign items v h).
Definition set_effects v h : History := ltac:(assign effects v h).

(** What a sibling window (the other side of a group migration) shows of
    itself to this one. *)
Record Sibling := {
  sib_chatListMessage : option (option HistoryItem);
  sib_unreadCount : Z
}.

(** Answers of collaborators that the code branches on. *)
Record Env := {
  ServerMaxMsgId : MsgId;
  crl_now : Z;
  DialogsModeEnabled : bool;
  inChatList : bool;
  anim_Disabled : bool;
  App_main : bool;
  chatListTimeId : TimeId;
  userPeerId : PeerId;
  userLoaded : UserId -> option PeerRef;
  peerFromUser : UserId -> PeerId;
  historyLoaded : PeerId -> option Sibling;
  owner_history : PeerId -> Sibling;
  draftStringIsEmpty : string -> bool;
  GenerateJoinedMessage : TimeId -> PeerRef -> HistoryItem
}.

(** ** Operations: state, trace and fail-fast contract checks *)

(** A failed [Expects(cond)] or [Assert(cond)] in function [fn]. *)
Inductive Violation :=
  | ContractViolation (fn cond : string).

Inductive Outcome (A : Type) :=
  | Done (a : A) (h : History)
  | Aborted (v : Violation).

Arguments Done {A} a h.
Arguments Aborted {A} v.

Definition Op (A : Type) : Type := History -> Outcome A.

#[global] Instance Op_ret : MRet Op := fun A a h => Done a h.

#[global] Instance Op_bind : MBind Op := fun A B f m h =>
  match m h with
  | Done a h' => f a h'
  | Aborted v => Aborted v
  end.

Definition get : Op History := fun h => Done h h.

Definition gets {A} (f : History -> A) : Op A := fun h => Done (f h) h.

Definition modify (f : History -> History) : Op unit := fun h => Done tt (f h).

Definition skip : Op unit := mret tt.

Definition call (e : Effect) : Op unit :=
  modify (fun h => set_effects (effects h ++ [e]) h).

Definition Expects (fn cond : string) (b : bool) : Op unit :=
  if b then skip else fun _ => Aborted (ContractViolation fn cond).

Definition when (b : bool) (m : Op unit) : Op unit := if b then m else skip.

(** [for (x : xs) body(x)] *)
Fixpoint for_each {A} (xs : list A) (body : A -> Op unit) : Op unit :=
  match xs with
  | [] => skip
  | x :: rest => body x;; for_each rest body
  end.

(** The state an operation ends in, when it finishes. *)
Definition exec {A} (m : Op A) (h : History) : option History :=
  match m h with Done _ h' => Some h' | Aborted _ => None end.

Definition result {A} (m : Op A) (h : History) : option A :=
  match m h with Done a _ => Some a | Aborted _ => None end.

(** ** The operations of [History] *)

Section Operations.

Context (env : Env).

(** Modelled from the spec: [IsServerMsgId] (declared beside [MsgId],
    outside the sources).  Server-confirmed ids are the positive ids below
    [ServerMaxMsgId]; locally-originated items live in a distinct id space. *)
Definition IsServerMsgId (i : MsgId) : bool :=
  (0 <? i) && (i <? ServerMaxMsgId env).

Definition loadedAtBottom (h : History) : bool := _loadedAtBottom h.

Definition loadedAtTop (h : History) : bool := _loadedAtTop h.

Definition isEmpty (h : History) : bool :=
  match blocks h with [] => true | _ => false end.

(** [_lastMessage.value_or(nullptr)] *)
Definition lastMessage (h : History) : option HistoryItem :=
  default None (_lastMessage h).

Definition lastMessageKnown (h : History) : bool :=
  bool_decide (is_Some (_lastMessage h)).

Definition chatListMessage (h : History) : option HistoryItem :=
  default None (_chatListMessage h).

Definition chatListMessageKnown (h : History) : bool :=
  bool_decide (is_Some (_chatListMessage h)).

Definition unreadCount (h : History) : Z := default 0 (_unreadCount h).

Definition mute (h : History) : bool := _mute h.

Definition localDraft (h : History) : option Draft := _localDraft h.

Definition cloudDraft (h : History) : option Draft := _cloudDraft h.

Definition isBuildingFrontBlock (h : History) : bool :=
  bool_decide (is_Some (_buildingFrontBlock h)).

Definition isChannel (h : History) : bool := peer_isChannel (peer h).

(** The views of the window, oldest first. *)
Definition views (h : History) : list HistoryItem :=
  concat (messages <$> blocks h).

(** [item->mainView() != nullptr] *)
Definition mainView (item : HistoryItem) (h : History) : bool :=
  bool_decide (item ∈ views h).

Definition clearLastKeyboard : Op unit :=
  kb ← gets lastKeyboardId;
  when (negb (kb =? 0)) (
    hidden ← gets lastKeyboardHiddenId;
    when (kb =? hidden) (modify (set_lastKeyboardHiddenId 0));;
    modify (set_lastKeyboardId 0);;
    when (App_main env) (call main_updateBotKeyboard));;
  modify (set_lastKeyboardInited true);;
  modify (set_lastKeyboardFrom 0).

(** *** Drafts *)

Definition setLocalDraft (draft : option Draft) : Op unit :=
  modify (set_localDraft draft).

Definition clearLocalDraft : Op unit := modify (set_localDraft None).

(** Modelled from the spec: [Data::draftIsNull] (data_drafts.h, outside the
    sources).  A draft slot is null-like when it is empty or holds a draft
    with neither text nor reply target; whether a text counts as empty is
    the environment's [draftStringIsEmpty]. *)
Definition draftIsNull (draft : option Draft) : bool :=
  match draft with
  | None => true
  | Some d => draftStringIsEmpty env (textWithTags d) && (msgId d =? 0)
  end.

(** [std::make_unique<Data::Draft>(text, msgId, cursor, previewCancelled)];
    the constructor leaves [date] at its default. *)
Definition make_Draft (text : string) (reply : MsgId) (cur : Z) (cancelled : bool) : Draft :=
  {| draft_date := 0; textWithTags := text; msgId := reply; cursor := cur;
     previewCancelled := cancelled |}.

Definition Draft_set_date (d : TimeId) (x : Draft) : Draft :=
  {| draft_date := d; textWithTags := textWithTags x; msgId := msgId x;
     cursor := cursor x; previewCancelled := previewCancelled x |}.

(** The four field assignments of the [existing != draft] branch; the local
    and the cloud draft are distinct objects, so the branch is always taken
    when a local draft exists. *)
Definition Draft_assign_content (draft existing : Draft) : Draft :=
  {| draft_date := draft_date existing; textWithTags := textWithTags draft;
     msgId := msgId draft; cursor := cursor draft;
     previewCancelled := previewCancelled draft |}.

Definition createLocalDraftFromCloud : Op unit :=
  draft ← gets cloudDraft;
  match draft with
  | None => clearLocalDraft
  | Some d =>
    if draftIsNull draft || (draft_date d =? 0) then skip
    else
      existing ← gets localDraft;
      if draftIsNull existing
         || match existing with Some e => draft_date e =? 0 | None => true end
         || match existing with Some e => draft_date d >=? draft_date e | None => true end
      then
        let filled :=
          match existing with
          | None => make_Draft (textWithTags d) (msgId d) (cursor d) (previewCancelled d)
          | Some e => Draft_assign_content d e
          end in
        setLocalDraft (Some (Draft_set_date (draft_date d) filled))
      else skip
  end.

(** *** Unread mentions

    [_unreadMentions.size()] is a [size_t].  In [size() > count] and in
    [size() >= *_unreadMentionsCount] the [int] operand is converted to
    [size_t] ([to_size_t]), so that a negative count is never below a
    size; in [count = size()] the size is converted to [int] ([wrap32]). *)

Definition setUnreadMentionsCount (count : Z) : Op unit :=
  h ← get;
  let had := match _unreadMentionsCount h with Some c => 0 <? c | None => false end in
  let tracked := Z.of_nat (size (_unreadMentions h)) in
  count ← (if tracked >? to_size_t count
           then call (LOG "API Warning: real mentions count is greater than received mentions count");;
                mret (wrap32 tracked)
           else mret count);
  modify (set_unreadMentionsCount (Some count));;
  let has := 0 <? count in
  when (negb (eqb has had) && DialogsModeEnabled env) (
    call Notify_historyMuteUpdated;;
    call updateChatListEntry).

Definition addToUnreadMentions (msgId : MsgId) (type : UnreadMentionType) : Op bool :=
  h ← get;
  if peer_isChannel (peer h) && negb (peer_isMegagroup (peer h)) then mret false
  else
    let allLoaded :=
      match _unreadMentionsCount h with
      | Some c => Z.of_nat (size (_unreadMentions h)) >=? to_size_t c
      | None => false
      end in
    if allLoaded then
      if bool_decide (type = New) then
        modify (fun h => set_unreadMentions ({[ msgId ]} ∪ _unreadMentions h) h);;
        setUnreadMentionsCount (int_add (default 0 (_unreadMentionsCount h)) 1);;
        mret true
      else mret false
    else if negb (bool_decide (_unreadMentions h = ∅)) && negb (bool_decide (type = New)) then
      modify (fun h => set_unreadMentions ({[ msgId ]} ∪ _unreadMentions h) h);;
      mret true
    else mret false.

(** *** Read cursors *)

Definition setInboxReadTill (upTo : MsgId) : Op unit :=
  before ← gets _inboxReadBefore;
  match before with
  | Some t => modify (set_inboxReadBefore (Some (accumulate_max t (int_add upTo 1))))
  | None => modify (set_inboxReadBefore (Some (int_add upTo 1)))
  end.

Definition setOutboxReadTill (upTo : MsgId) : Op unit :=
  before ← gets _outboxReadBefore;
  match before with
  | Some t => modify (set_outboxReadBefore (Some (accumulate_max t (int_add upTo 1))))
  | None => modify (set_outboxReadBefore (Some (int_add upTo 1)))
  end.

Definition isServerSideUnread (item : HistoryItem) : Op bool :=
  Expects "History::isServerSideUnread" "IsServerMsgId(item->id)" (IsServerMsgId (id item));;
  h ← get;
  mret (if out item
        then match _outboxReadBefore h with None => true | Some t => id item >=? t end
        else match _inboxReadBefore h with None => true | Some t => id item >=? t end).

(** *** Edges of the loaded range *)

Definition minMsgId (h : History) : MsgId :=
  match List.find (fun item => IsServerMsgId (id item)) (views h) with
  | Some item => id item
  | None => 0
  end.

Definition maxMsgId (h : History) : MsgId :=
  match List.find (fun item => IsServerMsgId (id item)) (rev (views h)) with
  | Some item => id item
  | None => 0
  end.

Definition msgIdForRead (h : History) : MsgId :=
  let result :=
    match lastMessage h with
    | Some l => if IsServerMsgId (id l) then id l else 0
    | None => 0
    end in
  if loadedAtBottom h then Z.max result (maxMsgId h) else result.

(** [blocks.back()->messages.back()->data()], or null on an empty window *)
Definition lastAvailableMessage (h : History) : option HistoryItem :=
  match last (blocks h) with
  | Some b => last (messages b)
  | None => None
  end.

(** *** Unread counter *)

(** The backward scan of [calculateFirstUnreadMessage] over the views,
    newest first; [first] is [_firstUnreadView]. *)
Fixpoint calculateFirstUnreadMessage_scan (readBefore : MsgId)
    (newestFirst : list HistoryItem) (first : option HistoryItem)
    : option HistoryItem :=
  match newestFirst with
  | [] => first
  | item :: older =>
    if negb (IsServerMsgId (id item)) then
      calculateFirstUnreadMessage_scan readBefore older first
    else if negb (out item) || negb (bool_decide (is_Some first)) then
      if id item >=? readBefore
      then calculateFirstUnreadMessage_scan readBefore older (Some item)
      else first
    else calculateFirstUnreadMessage_scan readBefore older first
  end.

Definition calculateFirstUnreadMessage : Op unit :=
  h ← get;
  match _firstUnreadView h, _inboxReadBefore h with
  | None, Some readBefore =>
    modify (set_firstUnreadView
      (calculateFirstUnreadMessage_scan readBefore (rev (views h)) None))
  | _, _ => skip
  end.

(** The inner loop of [countUnread] over one block, newest first: [break]
    leaves this block only. *)
Fixpoint countUnread_block (upTo : MsgId) (newestFirst : list HistoryItem)
    (result : Z) : Z :=
  match newestFirst with
  | [] => result
  | item :: older =>
    if (0 <? id item) && (id item <=? upTo) then result
    else if negb (out item) && unread item && (id item >? upTo)
    then countUnread_block upTo older (int_add result 1)
    else countUnread_block upTo older result
  end.

Definition countUnread (upTo : MsgId) (h : History) : Z :=
  fold_left (fun result b => countUnread_block upTo (rev (messages b)) result)
    (rev (blocks h)) 0.

Definition migrateSibling (h : History) : option Sibling :=
  let addFromId :=
    match migrateFrom (peer h), migrateTo (peer h) with
    | Some f, _ => f
    | None, Some t => t
    | None, None => 0
    end in
  historyLoaded env addFromId.

Definition chatListUnreadCount (h : History) : Z :=
  let result := unreadCount h in
  match migrateSibling h with
  | Some migrated => int_add result (sib_unreadCount migrated)
  | None => result
  end.

Definition setUnreadCount (newUnreadCount : Z) : Op unit :=
  h0 ← get;
  if bool_decide (_unreadCount h0 = Some newUnreadCount) then skip
  else
    let wasUnread := _unreadMark h0 || negb (unreadCount h0 =? 0) in
    let unreadCountDelta := (fun count => int_sub newUnreadCount count) <$> _unreadCount h0 in
    (if newUnreadCount =? 1 then
       when (loadedAtBottom h0) (modify (set_firstUnreadView (lastAvailableMessage h0)));;
       let last := msgIdForRead h0 in
       when (negb (last =? 0)) (setInboxReadTill (int_sub last 1))
     else if newUnreadCount =? 0 then
       modify (set_firstUnreadView None);;
       let last := msgIdForRead h0 in
       when (negb (last =? 0)) (setInboxReadTill last)
     else
       when (negb (bool_decide (is_Some (_firstUnreadView h0)))
             && negb (bool_decide (is_Some (_unreadBarView h0)))
             && loadedAtBottom h0)
         calculateFirstUnreadMessage);;
    let unreadMarkDelta :=
      if _unreadMark h0 then
        let was := match _unreadCount h0 with Some c => 0 <? c | None => false end in
        let now := 0 <? newUnreadCount in
        if eqb was now then 0 else if was then 1 else -1
      else 0 in
    modify (set_unreadCount (Some newUnreadCount));;
    h1 ← get;
    match _unreadBarView h1 with
    | Some bar =>
      let count := chatListUnreadCount h1 in
      if 0 <? count then call (view_setUnreadBarCount (id bar) count)
      else call (view_setUnreadBarFreezed (id bar))
    | None => skip
    end;;
    when (inChatList env) (
      let delta := int_add unreadMarkDelta (default newUnreadCount unreadCountDelta) in
      call (owner_unreadIncrement delta (mute h1));;
      let nowUnread := (0 <? newUnreadCount) || _unreadMark h1 in
      let entriesDelta :=
        if wasUnread && negb nowUnread then -1
        else if nowUnread && negb wasUnread then 1
        else 0 in
      call (owner_unreadEntriesChanged entriesDelta (if mute h1 then entriesDelta else 0)));;
    call (Notify_peerUpdatedDelayed "UnreadViewChanged").

Definition changeUnreadCount (delta : Z) : Op unit :=
  h ← get;
  match _unreadCount h with
  | Some count => setUnreadCount (Z.max (int_add count delta) 0)
  | None => skip
  end;;
  h ← get;
  match asChannel (peer h) with
  | Some channel =>
    when (feed channel) (
      let mutedCountDelta := if mute h then delta else 0 in
      call (feed_unreadCountChanged delta mutedCountDelta))
  | None => skip
  end.

(** *** Last message and chat-list projection *)

(** [History::migrateFrom()]: the legacy group's window, created on demand. *)
Definition History_migrateFrom (h : History) : option Sibling :=
  owner_history env <$> migrateFrom (peer h).

Definition computeChatListMessageFromLast (h : History) : option (option HistoryItem) :=
  match _lastMessage h with
  | None => None
  | Some None => _lastMessage h
  | Some (Some last) =>
    if negb (isGroupMigrate last) then _lastMessage h
    else match asChat (peer h) with
    | Some chat =>
      if negb (loadedAtBottom h) then None
      else
        let before := List.find (fun item => negb (same_item item last)) (rev (views h)) in
        match before with
        | Some b => Some (Some b)
        | None => if loadedAtTop h then _lastMessage h else None
        end
    | None =>
      match History_migrateFrom h with
      | Some from => sib_chatListMessage from
      | None => _lastMessage h
      end
    end
  end.

Definition setChatListMessage (item : option HistoryItem) : Op unit :=
  h ← get;
  if bool_decide (_chatListMessage h = Some item) then skip
  else
    proceed ← match item with
      | Some i =>
        keep ← match _chatListMessage h with
          | Some None => call Local_removeSavedPeer;; mret false
          | Some (Some current) =>
            mret (negb (IsServerMsgId (id current)) && (date current >? date i))
          | None => mret false
          end;
        if keep : bool then mret false
        else
          modify (set_chatListMessage (Some item));;
          call (setChatListTimeId (date i));;
          mret true
      | None =>
        match _chatListMessage h with
        | Some None => mret true
        | _ =>
          modify (set_chatListMessage (Some None));;
          call updateChatListEntry;;
          mret true
        end
      end;
    when proceed (
      match migrateTo (peer h) with
      | Some to =>
        match historyLoaded env to with
        | Some history =>
          when (negb (bool_decide (is_Some (sib_chatListMessage history))))
            (call (sibling_requestChatListMessage to))
        | None => skip
        end
      | None => skip
      end).

Definition setChatListMessageFromLast : Op unit :=
  h ← get;
  match computeChatListMessageFromLast h with
  | Some good => setChatListMessage good
  | None => modify (set_chatListMessage None)
  end.

Definition setFakeChatListMessage : Op unit :=
  h ← get;
  match asChat (peer h), migrateFrom (peer h) with
  | Some chat, _ => call api_requestFakeChatListMessage
  | None, Some from => call (sibling_requestChatListMessage from)
  | None, None => skip
  end.

Definition requestChatListMessage : Op unit :=
  h ← get;
  if negb (lastMessageKnown h) then call api_requestDialogEntry
  else if chatListMessageKnown h then skip
  else
    setChatListMessageFromLast;;
    h ← get;
    when (negb (chatListMessageKnown h)) setFakeChatListMessage.

Definition setLastMessage (item : option HistoryItem) : Op unit :=
  h ← get;
  let unchanged :=
    match _lastMessage h with
    | Some current =>
      same_ptr current item
      || match current, item with
         | Some c, Some i => negb (IsServerMsgId (id c)) && (date c >? date i)
         | _, _ => false
         end
    | None => false
    end in
  if unchanged then skip
  else
    modify (set_lastMessage (Some item));;
    modify (set_chatListMessage None);;
    when (negb (bool_decide (is_Some (migrateTo (peer h))))) requestChatListMessage.

(** *** Typing and send-action indicators *)

(** [updateSendActionNeedsAnimating(now, force)].  The typing string, its
    text layout and the animation object are presentation state and are not
    tracked; the sweep of the two maps and the notification are. *)
Definition updateSendActionNeedsAnimating (now : Z) (force : bool) : Op bool :=
  h ← get;
  let typing := filter (fun entry => ¬ (now >= entry.2)) (_typing h) in
  let sendActions := filter (fun entry => ¬ (now >= until entry.2)) (_sendActions h) in
  let changed :=
    force
    || negb (bool_decide (size typing = size (_typing h)))
    || negb (bool_decide (size sendActions = size (_sendActions h))) in
  modify (set_typing typing);;
  modify (set_sendActions sendActions);;
  let result :=
    negb (bool_decide (size typing = 0%nat))
    || negb (bool_decide (size sendActions = 0%nat)) in
  when (changed || (result && negb (anim_Disabled env)))
    (call (owner_updateSendActionAnimation changed));;
  mret result.

Definition clearSendAction (from : PeerId) : Op unit :=
  h ← get;
  updateAtMs ← match _typing h !! from with
    | Some _ =>
      modify (set_typing (<[from := crl_now env]> (_typing h)));;
      mret (crl_now env)
    | None => mret 0
    end;
  updateAtMs ← match _sendActions h !! from with
    | Some a =>
      let updateAtMs := if updateAtMs =? 0 then crl_now env else updateAtMs in
      modify (set_sendActions
        (<[from := {| action_type := action_type a; until := updateAtMs;
                      progress := progress a |}]> (_sendActions h)));;
      mret updateAtMs
    | None => mret updateAtMs
    end;
  if updateAtMs =? 0 then skip
  else updateSendActionNeedsAnimating updateAtMs true;; skip.

(** *** Reading *)

Definition destroyUnreadBar : Op unit :=
  h ← get;
  match _unreadBarView h with
  | Some view =>
    modify (set_unreadBarView None);;
    call (view_destroyUnreadBar (id view))
  | None => skip
  end.

Definition outboxRead (upTo : MsgId) : Op unit :=
  setOutboxReadTill upTo;;
  h ← get;
  match chatListMessage h with
  | Some last =>
    when (out last && IsServerMsgId (id last) && (id last <=? upTo) && App_main env)
      (call (main_repaintDialogRow (id last)))
  | None => skip
  end;;
  call updateChatListEntry.

Definition outboxRead_item (wasRead : HistoryItem) : Op unit :=
  when (IsServerMsgId (id wasRead)) (outboxRead (id wasRead)).

Definition inboxRead (upTo : MsgId) : Op unit :=
  h ← get;
  let nowUnreadCount := unreadCount h in
  when (negb (nowUnreadCount =? 0)) (
    when (loadedAtBottom h) (call main_historyToDown);;
    changeUnreadCount (int_sub (countUnread upTo h) nowUnreadCount));;
  setInboxReadTill upTo;;
  call updateChatListEntry;;
  match migrateTo (peer h) with
  | Some to =>
    when (bool_decide (is_Some (historyLoaded env to)))
      (call (sibling_updateChatListEntry to))
  | None => skip
  end;;
  modify (set_firstUnreadView None);;
  call notifications_clearFromHistory.

Definition inboxRead_item (wasRead : HistoryItem) : Op unit :=
  when (IsServerMsgId (id wasRead)) (inboxRead (id wasRead)).

Definition newItemAdded (item : HistoryItem) : Op unit :=
  call (item_indexAsNewItem (id item));;
  when (ref_isUser (from item)) (
    when (bool_decide (from item = author item)) (clearSendAction (ref_id (from item)));;
    call (user_madeAction (ref_id (from item)) (date item)));;
  if out item then
    destroyUnreadBar;;
    when (negb (unread item)) (outboxRead_item item)
  else if unread item then
    h ← get;
    when (negb (isChannel h)
          || match asChannel (peer h) with Some c => amIn c | None => false end) (
      modify (fun h => set_notifies (notifies h ++ [item]) h);;
      call (main_newUnreadMsg (id item)))
  else inboxRead_item item.

(** *** Peer-side lists *)

Definition PeerData_set_kind (k : PeerKind) (p : PeerData) : PeerData :=
  {| peer_id := peer_id p; peer_kind := k; canWrite := canWrite p |}.

(** [chat->field = ...] on the conversation's legacy group, if it is one. *)
Definition update_chat (f : ChatData -> ChatData) : Op unit :=
  modify (fun h =>
    match peer_kind (peer h) with
    | PeerChat c => set_peer (PeerData_set_kind (PeerChat (f c)) (peer h)) h
    | _ => h
    end).

(** [channel->mgInfo->field = ...] on the conversation's megagroup. *)
Definition update_mgInfo (f : MegagroupInfo -> MegagroupInfo) : Op unit :=
  modify (fun h =>
    match peer_kind (peer h) with
    | PeerChannel c =>
      set_peer (PeerData_set_kind (PeerChannel
        {| mgInfo := f <$> mgInfo c; amIn := amIn c; inviter := inviter c;
           inviteDate := inviteDate c; feed := feed c |}) (peer h)) h
    | _ => h
    end).

Definition ChatData_set_lastAuthors v (c : ChatData) : ChatData :=
  {| lastAuthors := v; chat_markupSenders := chat_markupSenders c;
     participants := participants c; getMigrateToChannel := getMigrateToChannel c |}.

Definition ChatData_set_markupSenders v (c : ChatData) : ChatData :=
  {| lastAuthors := lastAuthors c; chat_markupSenders := v;
     participants := participants c; getMigrateToChannel := getMigrateToChannel c |}.

Definition MegagroupInfo_set_lastParticipants v (m : MegagroupInfo) : MegagroupInfo :=
  {| lastParticipants := v; bots := bots m; botStatus := botStatus m;
     markupSenders := markupSenders m; joinedMessageFound := joinedMessageFound m;
     getMigrateFromChat := getMigrateFromChat m |}.

Definition MegagroupInfo_set_bots v (m : MegagroupInfo) : MegagroupInfo :=
  {| lastParticipants := lastParticipants m; bots := v; botStatus := botStatus m;
     markupSenders := markupSenders m; joinedMessageFound := joinedMessageFound m;
     getMigrateFromChat := getMigrateFromChat m |}.

Definition MegagroupInfo_set_botStatus v (m : MegagroupInfo) : MegagroupInfo :=
  {| lastParticipants := lastParticipants m; bots := bots m; botStatus := v;
     markupSenders := markupSenders m; joinedMessageFound := joinedMessageFound m;
     getMigrateFromChat := getMigrateFromChat m |}.

Definition MegagroupInfo_set_markupSenders v (m : MegagroupInfo) : MegagroupInfo :=
  {| lastParticipants := lastParticipants m; bots := bots m; botStatus := botStatus m;
     markupSenders := v; joinedMessageFound := joinedMessageFound m;
     getMigrateFromChat := getMigrateFromChat m |}.

Definition MegagroupInfo_set_joinedMessageFound v (m : MegagroupInfo) : MegagroupInfo :=
  {| lastParticipants := lastParticipants m; bots := bots m; botStatus := botStatus m;
     markupSenders := markupSenders m; joinedMessageFound := v;
     getMigrateFromChat := getMigrateFromChat m |}.

(** [mgInfo->bots.insert(user)] with the bot-status bump that follows it. *)
Definition mgInfo_addBot (user : PeerId) : Op unit :=
  update_mgInfo (fun m => MegagroupInfo_set_bots ({[ user ]} ∪ bots m) m);;
  update_mgInfo (fun m =>
    if negb (botStatus m =? 0) && (botStatus m <? 2)
    then MegagroupInfo_set_botStatus 2 m else m).

(** The erase-and-push-front of [addNewItem] on a last-authors deque. *)
Definition bumpAuthor (user : PeerId) (authors : list PeerId) : list PeerId :=
  let prev := list_find (fun u => u = user) authors in
  let index : Z :=
    match prev with
    | Some (i, _) => Z.of_nat (length authors - i)
    | None => -1
    end in
  let erased :=
    match prev with
    | Some (i, _) => if 0 <? index then delete i authors else authors
    | None => authors
    end in
  if negb (index =? 0) then user :: erased else erased.

(** *** Blocks *)

Definition kNewBlockEachMessage : Z := 50.

Definition HistoryBlock_push_back (item : HistoryItem) (b : HistoryBlock) : HistoryBlock :=
  {| messages := messages b ++ [item] |}.

Definition BuildingBlock_set_block v (b : BuildingBlock) : BuildingBlock :=
  {| expectedItemsCount := expectedItemsCount b; block := v |}.

Definition BuildingBlock_set_expectedItemsCount v (b : BuildingBlock) : BuildingBlock :=
  {| expectedItemsCount := v; block := block b |}.

(** [view->block()->indexInHistory()] and [view->indexInBlock()] of the
    view of [item]. *)
Fixpoint locate (item : HistoryItem) (bs : list HistoryBlock) (blockIndex : nat)
    : option (nat * nat) :=
  match bs with
  | [] => None
  | b :: rest =>
    match list_find (fun other => other = item) (messages b) with
    | Some (itemIndex, _) => Some (blockIndex, itemIndex)
    | None => locate item rest (S blockIndex)
    end
  end.

(** Returns the index in [blocks] of the block to append to. *)
Definition prepareBlockForAddingItem : Op nat :=
  h ← get;
  match _buildingFrontBlock h with
  | Some building =>
    match block building with
    | Some b => mret b
    | None =>
      modify (set_blocks ({| messages := [] |} :: blocks h));;
      modify (set_buildingFrontBlock (Some (BuildingBlock_set_block (Some 0%nat) building)));;
      mret 0%nat
    end
  | None =>
    let addNewBlock :=
      match last (blocks h) with
      | None => true
      | Some back => Z.of_nat (length (messages back)) >=? kNewBlockEachMessage
      end in
    when addNewBlock (modify (set_blocks (blocks h ++ [ {| messages := [] |} ])));;
    h ← get;
    mret (length (blocks h) - 1)%nat
  end.

Definition addItemToBlock (item : HistoryItem) : Op unit :=
  h ← get;
  Expects "History::addItemToBlock" "!item->mainView()" (negb (mainView item h));;
  b ← prepareBlockForAddingItem;
  modify (fun h => set_blocks (alter (HistoryBlock_push_back item) b (blocks h)) h);;
  h ← get;
  match _buildingFrontBlock h with
  | Some building =>
    when (0 <? expectedItemsCount building)
      (modify (set_buildingFrontBlock (Some
         (BuildingBlock_set_expectedItemsCount
            (int_sub (expectedItemsCount building) 1) building))))
  | None => skip
  end.

Definition startBuildingFrontBlock (expectedItemsCount : Z) : Op unit :=
  h ← get;
  Expects "History::startBuildingFrontBlock" "!isBuildingFrontBlock()"
    (negb (isBuildingFrontBlock h));;
  Expects "History::startBuildingFrontBlock" "expectedItemsCount > 0"
    (0 <? expectedItemsCount);;
  modify (set_buildingFrontBlock
    (Some {| expectedItemsCount := expectedItemsCount; block := None |})).

Definition finishBuildingFrontBlock : Op unit :=
  h ← get;
  Expects "History::finishBuildingFrontBlock" "isBuildingFrontBlock()"
    (isBuildingFrontBlock h);;
  modify (set_buildingFrontBlock None);;
  match _buildingFrontBlock h ≫= block with
  | Some b =>
    if (1 <? length (blocks h))%nat then
      match blocks h !! 1%nat ≫= fun second => head (messages second) with
      | Some first => call (view_previousInBlocksChanged (id first))
      | None => skip
      end
    else
      match blocks h !! b ≫= fun built => last (messages built) with
      | Some back => call (view_nextInBlocksRemoved (id back))
      | None => skip
      end
  | None => skip
  end.

(** *** Removing a view *)

Definition getNextFirstUnreadMessage : Op unit :=
  h ← get;
  Expects "History::getNextFirstUnreadMessage" "_firstUnreadView != nullptr"
    (bool_decide (is_Some (_firstUnreadView h)));;
  let following :=
    match _firstUnreadView h ≫= fun view => locate view (blocks h) 0 with
    | Some (blockIndex, index) =>
      match blocks h !! blockIndex with
      | Some b =>
        drop (S index) (messages b) ++ concat (messages <$> drop (S blockIndex) (blocks h))
      | None => []
      end
    | None => []
    end in
  modify (set_firstUnreadView
    (List.find (fun view => IsServerMsgId (id view)) following)).

Definition getNextScrollTopItem (blockIndex : nat) (i : nat) : Op unit :=
  h ← get;
  let i := S i in
  match blocks h !! blockIndex ≫= fun b => messages b !! i with
  | Some view => modify (set_scrollTopItem (Some view))
  | None =>
    let j := S blockIndex in
    match blocks h !! j with
    | Some next => modify (set_scrollTopItem (head (messages next)))
    | None => modify (set_scrollTopItem None)
    end
  end.

Definition mainViewRemoved (blockIndex itemIndex : nat) (view : HistoryItem) : Op unit :=
  h ← get;
  when (same_ptr (_joinedMessage h) (Some view)) (modify (set_joinedMessage None));;
  when (same_ptr (_firstUnreadView h) (Some view)) getNextFirstUnreadMessage;;
  when (same_ptr (_unreadBarView h) (Some view)) (modify (set_unreadBarView None));;
  when (same_ptr (scrollTopItem h) (Some view)) (getNextScrollTopItem blockIndex itemIndex).

Definition removeBlock (index : nat) : Op unit :=
  h ← get;
  Expects "History::removeBlock" "block->messages.empty()"
    (match blocks h !! index with Some b => bool_decide (messages b = []) | None => false end);;
  match _buildingFrontBlock h with
  | Some building =>
    when (bool_decide (block building = Some index))
      (modify (set_buildingFrontBlock (Some (BuildingBlock_set_block None building))))
  | None => skip
  end;;
  modify (set_blocks (delete index (blocks h)));;
  h ← get;
  if (index <? length (blocks h))%nat then
    match blocks h !! index ≫= fun b => head (messages b) with
    | Some front => call (view_previousInBlocksChanged (id front))
    | None => skip
    end
  else
    match last (blocks h) ≫= fun b => last (messages b) with
    | Some back => call (view_nextInBlocksRemoved (id back))
    | None => skip
    end.

(** [HistoryBlock::remove(view)] on the block at [blockIndex]. *)
Definition HistoryBlock_remove (blockIndex itemIndex : nat) (view : HistoryItem) : Op unit :=
  mainViewRemoved blockIndex itemIndex view;;
  modify (fun h => set_blocks
    (alter (fun b => {| messages := delete itemIndex (messages b) |}) blockIndex (blocks h)) h);;
  h ← get;
  let remaining := default [] (messages <$> blocks h !! blockIndex) in
  if bool_decide (remaining = []) then removeBlock blockIndex
  else
    match remaining !! itemIndex with
    | Some next => call (view_previousInBlocksChanged (id next))
    | None =>
      match blocks h !! S blockIndex with
      | Some after =>
        match head (messages after) with
        | Some front => call (view_previousInBlocksChanged (id front))
        | None => skip
        end
      | None =>
        match last (blocks h) ≫= fun b => last (messages b) with
        | Some back => call (view_nextInBlocksRemoved (id back))
        | None => skip
        end
      end
    end.

(** Modelled from the spec: [HistoryItem::removeMainView] (outside the
    sources) severs the item's visual attachment: when the item has a view
    in the window, that view is removed from its block. *)
Definition removeMainView (item : HistoryItem) : Op unit :=
  h ← get;
  match locate item (blocks h) 0 with
  | Some (blockIndex, itemIndex) =>
    call owner_notifyHistoryChangeDelayed;;
    HistoryBlock_remove blockIndex itemIndex item
  | None => skip
  end.

Definition forgetScrollState : Op unit := modify (set_scrollTopItem None).

(** *** Appending a new item *)

(** The reply-keyboard tracking of [addNewItem]. *)
Definition addNewItem_keyboard (item : HistoryItem) : Op unit :=
  let markupFlags := replyKeyboardFlags item in
  when (negb (f_selective markupFlags) || mentionsMe item) (
    update_chat (fun c =>
      ChatData_set_markupSenders ({[ ref_id (from item) ]} ∪ chat_markupSenders c) c);;
    update_mgInfo (fun m =>
      MegagroupInfo_set_markupSenders ({[ ref_id (from item) ]} ∪ markupSenders m) m);;
    h ← get;
    if f_zero markupFlags then
      when ((lastKeyboardFrom h =? ref_id (from item))
            || (negb (lastKeyboardInited h)
                && negb (isChat (peer h))
                && negb (peer_isMegagroup (peer h))
                && negb (out item)))
        clearLastKeyboard
    else
      let botNotInChat :=
        match asChat (peer h), asMegagroup (peer h) with
        | Some chat, _ =>
          ref_isUser (from item)
          && (negb (bool_decide (participants chat = ∅)) || negb (canWrite (peer h)))
          && negb (bool_decide (ref_id (from item) ∈ participants chat))
        | None, Some mg =>
          ref_isUser (from item)
          && (negb (botStatus mg =? 0) || negb (canWrite (peer h)))
          && negb (bool_decide (ref_id (from item) ∈ bots mg))
        | None, None => false
        end in
      if botNotInChat then clearLastKeyboard
      else
        modify (set_lastKeyboardInited true);;
        modify (set_lastKeyboardId (id item));;
        modify (set_lastKeyboardFrom (ref_id (from item)));;
        modify (set_lastKeyboardUsed false)).

(** The last-authors bookkeeping of [addNewItem] for a user [user]. *)
Definition addNewItem_authors (user : PeerRef) : Op unit :=
  h ← get;
  when (peer_isMegagroup (peer h) && ref_botInfo user) (mgInfo_addBot (ref_id user));;
  when (isChat (peer h) || peer_isMegagroup (peer h)) (
    update_chat (fun c => ChatData_set_lastAuthors (bumpAuthor (ref_id user) (lastAuthors c)) c);;
    update_mgInfo (fun m =>
      MegagroupInfo_set_lastParticipants (bumpAuthor (ref_id user) (lastParticipants m)) m);;
    when (peer_isMegagroup (peer h)) (
      call (Notify_peerUpdatedDelayed "MembersChanged");;
      call (owner_addNewMegagroupParticipant (ref_id user)))).

Definition addNewItem (item : HistoryItem) (unread : bool) : Op HistoryItem :=
  h ← get;
  Expects "History::addNewItem" "!isBuildingFrontBlock()" (negb (isBuildingFrontBlock h));;
  addItemToBlock item;;
  h ← get;
  when (negb unread && IsServerMsgId (id item) && sharedMediaTypes item) (
    let fromId := if loadedAtTop h then 0 else minMsgId h in
    let till := if loadedAtBottom h then ServerMaxMsgId env else maxMsgId h in
    call (storage_add_SharedMediaAddExisting (id item) fromId till));;
  when (negb (ref_id (from item) =? 0)) (
    when (ref_isUser (from item)) (addNewItem_authors (from item));;
    when (definesReplyKeyboard item) (addNewItem_keyboard item));;
  setLastMessage (Some item);;
  when unread (newItemAdded item);;
  call owner_notifyHistoryChangeDelayed;;
  mret item.

(** [blockIndex] and [itemIndex] are carried as naturals; the two
    [Expects(... >= 0)] of the source hold by construction. *)
Definition addNewInTheMiddle (item : HistoryItem) (blockIndex itemIndex : nat)
    : Op HistoryItem :=
  h ← get;
  Expects "History::addNewInTheMiddle" "blockIndex < blocks.size()"
    (blockIndex <? length (blocks h))%nat;;
  Expects "History::addNewInTheMiddle" "itemIndex <= blocks[blockIndex]->messages.size()"
    (match blocks h !! blockIndex with
     | Some b => (itemIndex <=? length (messages b))%nat
     | None => false
     end);;
  modify (set_blocks (alter (fun b =>
    {| messages := take itemIndex (messages b) ++ item :: drop itemIndex (messages b) |})
    blockIndex (blocks h)));;
  h ← get;
  match blocks h !! blockIndex ≫= fun b => messages b !! S itemIndex with
  | Some next => call (view_previousInBlocksChanged (id next))
  | None =>
    match blocks h !! S blockIndex ≫= fun b => head (messages b) with
    | Some front => call (view_previousInBlocksChanged (id front))
    | None => call (view_nextInBlocksRemoved (id item))
    end
  end;;
  mret item.

(** *** The synthetic joined-the-channel message *)

(** Modelled from the spec: [GenerateJoinedMessage] (outside the sources)
    creates the service item for the invite; like every item it is tracked
    in the registry from its creation. *)
Definition generateJoinedMessage (inviteDate : TimeId) (inviter : PeerRef) : Op HistoryItem :=
  let item := GenerateJoinedMessage env inviteDate inviter in
  modify (fun h => set_items (<[id item := item]> (items h)) h);;
  modify (set_joinedMessage (Some item));;
  mret item.

Inductive JoinedMessagePlace :=
  | AfterMigration
  | InTheMiddle (blockIndex itemIndex : nat)
  | InFront.

(** The backward scan of [insertJoinedMessage] through one block, newest
    view first: the head of the list sits at index [length older]. *)
Fixpoint insertJoinedMessage_scanBlock (migrated : bool) (inviteDate : TimeId)
    (newestFirst : list HistoryItem) (blockIndex : nat) : option JoinedMessagePlace :=
  match newestFirst with
  | [] => None
  | item :: older =>
    if (id item =? 1) && migrated then Some AfterMigration
    else if date item <=? inviteDate then Some (InTheMiddle blockIndex (S (length older)))
    else insertJoinedMessage_scanBlock migrated inviteDate older blockIndex
  end.

Fixpoint insertJoinedMessage_scan (migrated : bool) (inviteDate : TimeId)
    (newestFirst : list HistoryBlock) : JoinedMessagePlace :=
  match newestFirst with
  | [] => InFront
  | b :: older =>
    match insertJoinedMessage_scanBlock migrated inviteDate (rev (messages b)) (length older) with
    | Some place => place
    | None => insertJoinedMessage_scan migrated inviteDate older
    end
  end.

Definition insertJoinedMessage (unread : bool) : Op (option HistoryItem) :=
  h ← get;
  match asChannel (peer h) with
  | None => mret (_joinedMessage h)
  | Some channel =>
    if bool_decide (is_Some (_joinedMessage h))
       || negb (amIn channel)
       || match mgInfo channel with Some mg => joinedMessageFound mg | None => false end
    then mret (_joinedMessage h)
    else
      match (if 0 <? inviter channel then userLoaded env (inviter channel) else None) with
      | None => mret None
      | Some inviter =>
        let unread := if ref_id inviter =? userPeerId env then false else unread in
        let inviteDate := inviteDate channel in
        if isEmpty h then
          joined ← generateJoinedMessage inviteDate inviter;
          addNewItem joined unread;;
          mret (Some joined)
        else
          let migrated :=
            peer_isMegagroup (peer h) && bool_decide (is_Some (migrateFrom (peer h))) in
          match insertJoinedMessage_scan migrated inviteDate (rev (blocks h)) with
          | AfterMigration =>
            update_mgInfo (MegagroupInfo_set_joinedMessageFound true);;
            mret None
          | InTheMiddle blockIndex itemIndex =>
            joined ← generateJoinedMessage inviteDate inviter;
            addNewInTheMiddle joined blockIndex itemIndex;;
            let lastDate := chatListTimeId env in
            when ((lastDate =? 0) || (inviteDate >=? lastDate)) (
              setLastMessage (Some joined);;
              when unread (newItemAdded joined));;
            mret (Some joined)
          | InFront =>
            startBuildingFrontBlock 1;;
            joined ← generateJoinedMessage inviteDate inviter;
            addItemToBlock joined;;
            finishBuildingFrontBlock;;
            mret (Some joined)
          end
      end
  end.

(** After a successful [insertJoinedMessage]: make the joined message the
    last one if it is displayed. *)
Definition checkJoinedMessage_setLast : Op unit :=
  h ← get;
  match _joinedMessage h with
  | Some joined => when (mainView joined h) (setLastMessage (Some joined))
  | None => skip
  end.

Definition checkJoinedMessage (createUnread : bool) : Op unit :=
  h ← get;
  match asChannel (peer h) with
  | None => skip
  | Some channel =>
    if bool_decide (is_Some (_joinedMessage h)) || (inviter channel <=? 0) then skip
    else if isEmpty h && loadedAtTop h && loadedAtBottom h then
      inserted ← insertJoinedMessage createUnread;
      when (bool_decide (is_Some inserted)) checkJoinedMessage_setLast
    else
      let inviteDate := inviteDate channel in
      let firstDate := default 0 (date <$> (head (blocks h) ≫= fun b => head (messages b))) in
      let lastDate := default 0 (date <$> (last (blocks h) ≫= fun b => last (messages b))) in
      when (negb (firstDate =? 0)
            && negb (lastDate =? 0)
            && ((firstDate <=? inviteDate) || loadedAtTop h)
            && ((lastDate >? inviteDate) || loadedAtBottom h)) (
        let willBeLastMsg := inviteDate >=? lastDate in
        inserted ← insertJoinedMessage (createUnread && willBeLastMsg);
        when (bool_decide (is_Some inserted) && willBeLastMsg) checkJoinedMessage_setLast)
  end.

(** *** Creating items *)

(** Modelled from the spec: [HistoryItem::Create] (outside the sources)
    builds the item of a raw message; the item is tracked process-wide
    under its id from then on, which is what [App::histItemById] consults. *)
Definition HistoryItem_Create (message : MTPMessage) : Op HistoryItem :=
  let item := mtp_item message in
  modify (fun h => set_items (<[id item := item]> (items h)) h);;
  mret item.

Definition createItem (message : MTPMessage) (detachExistingItem : bool)
    : Op (option HistoryItem) :=
  let messageId := IdFromMessage message in
  if messageId =? 0 then mret None
  else
    h ← get;
    match items h !! messageId with
    | Some result =>
      when detachExistingItem (removeMainView result);;
      when (match mtp_type message with mtpc_message => true | _ => false end)
        (call (item_updateSentMedia (id result)));;
      mret (Some result)
    | None => created ← HistoryItem_Create message; mret (Some created)
    end.

(** The loop of [createItems] over the page, last message first. *)
Fixpoint createItems_loop (lastFirst : list MTPMessage) : Op (list HistoryItem) :=
  match lastFirst with
  | [] => mret []
  | message :: rest =>
    created ← createItem message true;
    result ← createItems_loop rest;
    mret (match created with Some item => item :: result | None => result end)
  end.

Definition createItems (data : list MTPMessage) : Op (list HistoryItem) :=
  createItems_loop (rev data).

Definition addToHistory (msg : MTPMessage) : Op (option HistoryItem) :=
  createItem msg false.

(** *** Shared media and list bookkeeping *)

Definition addEdgesToSharedMedia : Op unit :=
  h ← get;
  let fromId := if loadedAtTop h then 0 else minMsgId h in
  let till := if loadedAtBottom h then ServerMaxMsgId env else maxMsgId h in
  call (storage_add_SharedMediaAddSlice [] fromId till).

(** One [SharedMediaAddSlice] stands for the per-type slices. *)
Definition addToSharedMedia (added : list HistoryItem) : Op unit :=
  h ← get;
  let medias := id <$> filter (fun item => sharedMediaTypes item = true) added in
  let fromId := if loadedAtTop h then 0 else minMsgId h in
  let till := if loadedAtBottom h then ServerMaxMsgId env else maxMsgId h in
  when (negb (bool_decide (medias = [])))
    (call (storage_add_SharedMediaAddSlice medias fromId till)).

(** Modelled from the spec: [HistoryItem::addToUnreadMentions] (outside the
    sources) offers a server-confirmed unread mention to the window's
    tracking and announces a change. *)
Definition HistoryItem_addToUnreadMentions (item : HistoryItem) (type : UnreadMentionType)
    : Op unit :=
  when (IsServerMsgId (id item) && isUnreadMention item) (
    added ← addToUnreadMentions (id item) type;
    when added (call (Notify_peerUpdatedDelayed "UnreadMentionsChanged"))).

Definition checkAddAllToUnreadMentions : Op unit :=
  h ← get;
  when (loadedAtBottom h)
    (for_each (views h) (fun item => HistoryItem_addToUnreadMentions item Existing)).

Definition checkLastMessage : Op unit :=
  h ← get;
  match lastMessage h with
  | Some last =>
    when (negb (_loadedAtBottom h) && mainView last h) (
      modify (set_loadedAtBottom true);;
      checkAddAllToUnreadMentions)
  | None =>
    when (_loadedAtBottom h) (setLastMessage (lastAvailableMessage h))
  end.

Definition setKeyboardFrom (item : HistoryItem) : Op unit :=
  modify (set_lastKeyboardInited true);;
  modify (set_lastKeyboardId (id item));;
  modify (set_lastKeyboardFrom (ref_id (author item)));;
  modify (set_lastKeyboardUsed false).

(** The keyboard part of [addItemsToLists] for one item. *)
Definition addItemsToLists_keyboard (item : HistoryItem) : Op unit :=
  h ← get;
  let markupFlags := replyKeyboardFlags item in
  let defines := negb (lastKeyboardInited h) && definesReplyKeyboard item && negb (out item) in
  let addressed := negb (f_selective markupFlags) || mentionsMe item in
  if isChat (peer h) || peer_isMegagroup (peer h) then
    when (defines && addressed) (
      let senders :=
        match asChat (peer h), asMegagroup (peer h) with
        | Some chat, _ => chat_markupSenders chat
        | None, Some mg => markupSenders mg
        | None, None => ∅
        end in
      let wasKeyboardHide := bool_decide (ref_id (author item) ∈ senders) in
      when (negb wasKeyboardHide) (
        update_chat (fun c =>
          ChatData_set_markupSenders ({[ ref_id (author item) ]} ∪ chat_markupSenders c) c);;
        update_mgInfo (fun m =>
          MegagroupInfo_set_markupSenders ({[ ref_id (author item) ]} ∪ markupSenders m) m));;
      when (negb (f_zero markupFlags)) (
        let botNotInChat :=
          match asChat (peer h), asMegagroup (peer h) with
          | Some chat, _ =>
            (negb (canWrite (peer h)) || negb (bool_decide (participants chat = ∅)))
            && ref_isUser (author item)
            && negb (bool_decide (ref_id (author item) ∈ participants chat))
          | None, Some mg =>
            (negb (canWrite (peer h)) || negb (botStatus mg =? 0))
            && ref_isUser (author item)
            && negb (bool_decide (ref_id (author item) ∈ bots mg))
          | None, None => false
          end in
        if wasKeyboardHide || botNotInChat then clearLastKeyboard
        else setKeyboardFrom item))
  else
    when (defines && addressed) (
      if f_zero markupFlags then clearLastKeyboard else setKeyboardFrom item).

Definition addItemsToLists (added : list HistoryItem) : Op unit :=
  for_each (rev added) (fun item =>
    HistoryItem_addToUnreadMentions item Existing;;
    when (negb (ref_id (from item) =? 0) && ref_isUser (from item)) (
      update_chat (fun c =>
        if bool_decide (ref_id (from item) ∈ lastAuthors c) then c
        else ChatData_set_lastAuthors (lastAuthors c ++ [ref_id (from item)]) c));;
    when (negb (ref_id (author item) =? 0)) (addItemsToLists_keyboard item)).

(** *** Unloading *)

Definition clearBlocks (leaveItems : bool) : Op unit :=
  modify (set_unreadBarView None);;
  modify (set_firstUnreadView None);;
  modify (set_joinedMessage None);;
  h ← get;
  when (bool_decide (is_Some (scrollTopItem h))) forgetScrollState;;
  (if leaveItems then call owner_notifyHistoryUnloaded
   else
     (if peer_isChannel (peer h) then modify (set_lastMessage None)
      else setLastMessage None);;
     modify (set_notifies []);;
     call owner_notifyHistoryCleared);;
  modify (set_blocks []);;
  (if leaveItems then modify (set_lastKeyboardInited false)
   else
     h ← get;
     changeUnreadCount (int_neg (unreadCount h));;
     match asChannel (peer h) with
     | Some channel =>
       call channel_clearPinnedMessage;;
       when (feed channel) (call feed_historyCleared)
     | None => skip
     end;;
     clearLastKeyboard);;
  call owner_notifyHistoryChangeDelayed;;
  modify (set_loadedAtTop false);;
  modify (set_loadedAtBottom (negb leaveItems));;
  forgetScrollState;;
  update_chat (fun c => ChatData_set_markupSenders ∅ (ChatData_set_lastAuthors [] c));;
  update_mgInfo (MegagroupInfo_set_markupSenders ∅).

Definition unloadBlocks : Op unit := clearBlocks true.

Definition hasOrphanMediaGroupPart (h : History) : bool :=
  if loadedAtTop h || negb (loadedAtBottom h) then false
  else match blocks h with
  | [b] =>
    match messages b with
    | [last] => hasGroupId last
    | _ => false
    end
  | _ => false
  end.

Definition removeOrphanMediaGroupPart : Op bool :=
  h ← get;
  if hasOrphanMediaGroupPart h then unloadBlocks;; mret true else mret false.

(** *** Ingestion *)

(** [mgInfo->lastParticipants.push_front(user)] for a user not yet listed,
    and the bot registration, as [applyServiceChanges] does for users that
    were added or joined. *)
Definition applyServiceChanges_joined (user : PeerRef) : Op unit :=
  h ← get;
  match asMegagroup (peer h) with
  | Some mg =>
    when (negb (bool_decide (ref_id user ∈ lastParticipants mg))) (
      update_mgInfo (fun m =>
        MegagroupInfo_set_lastParticipants (ref_id user :: lastParticipants m) m);;
      call (Notify_peerUpdatedDelayed "MembersChanged");;
      call (owner_addNewMegagroupParticipant (ref_id user)));;
    when (ref_botInfo user) (mgInfo_addBot (ref_id user))
  | None => skip
  end.

(** [applyServiceChanges].  Changes to the peer that history.cpp never
    reads back (photo, title, member and admin counts, pinned message,
    migration links, call notifications) are passed on as one
    [peer_serviceAction]. *)
Definition applyServiceChanges (item : HistoryItem) (action : MessageAction) : Op unit :=
  match action with
  | messageActionChatAddUser users =>
    for_each users (fun userId =>
      match userLoaded env userId with
      | Some user => applyServiceChanges_joined user
      | None => skip
      end)
  | messageActionChatJoinedByLink =>
    when (ref_isUser (from item)) (applyServiceChanges_joined (from item))
  | messageActionChatDeleteUser uid =>
    h ← get;
    when (lastKeyboardFrom h =? peerFromUser env uid) clearLastKeyboard;;
    match asMegagroup (peer h), userLoaded env uid with
    | Some mg, Some user =>
      match list_find (fun u => u = ref_id user) (lastParticipants mg) with
      | Some (i, _) =>
        update_mgInfo (fun m =>
          MegagroupInfo_set_lastParticipants (delete i (lastParticipants m)) m);;
        call (Notify_peerUpdatedDelayed "MembersChanged")
      | None => skip
      end;;
      call (owner_removeMegagroupParticipant (ref_id user));;
      update_mgInfo (fun m => MegagroupInfo_set_bots (bots m ∖ {[ ref_id user ]}) m);;
      update_mgInfo (fun m =>
        if bool_decide (bots m = ∅) && (0 <? botStatus m)
        then MegagroupInfo_set_botStatus (-1) m else m);;
      call (peer_serviceAction action)
    | Some mg, None => call (peer_serviceAction action)
    | None, _ => skip
    end
  | messageActionOther => skip
  | _ => call (peer_serviceAction action)
  end.

Definition applyMessageChanges (item : HistoryItem) (data : MTPMessage) : Op unit :=
  match mtp_type data with
  | mtpc_messageService action => applyServiceChanges item action
  | _ => skip
  end;;
  call (App_checkSavedGif (id item)).

Definition checkForLoadedAtTop (added : HistoryItem) : Op unit :=
  h ← get;
  if isChat (peer h) then
    when (isGroupEssential added && negb (isGroupMigrate added)) (
      modify (set_loadedAtTop true);;
      addEdgesToSharedMedia)
  else if peer_isChannel (peer h) then
    when (id added =? 1) (
      modify (set_loadedAtTop true);;
      checkJoinedMessage false;;
      addEdgesToSharedMedia)
  else skip.

Definition addNewToLastBlock (msg : MTPMessage) (type : NewMessageType)
    : Op (option HistoryItem) :=
  Expects "History::addNewToLastBlock" "type != NewMessageExisting"
    (negb (bool_decide (type = NewMessageExisting)));;
  let detachExistingItem := negb (bool_decide (type = NewMessageLast)) in
  item ← createItem msg detachExistingItem;
  h ← get;
  match item with
  | None => mret None
  | Some created =>
    if mainView created h then mret item
    else
      let newUnreadMessage := bool_decide (type = NewMessageUnread) in
      when newUnreadMessage (applyMessageChanges created msg);;
      result ← addNewItem created newUnreadMessage;
      checkForLoadedAtTop result;;
      when (bool_decide (type = NewMessageLast)) (removeOrphanMediaGroupPart;; skip);;
      mret (Some result)
  end.

Definition addNewMessage (msg : MTPMessage) (type : NewMessageType)
    : Op (option HistoryItem) :=
  if bool_decide (type = NewMessageExisting) then addToHistory msg
  else
    h ← get;
    if negb (loadedAtBottom h) || bool_decide (is_Some (migrateTo (peer h))) then
      added ← addToHistory msg;
      match added with
      | Some item =>
        setLastMessage (Some item);;
        when (bool_decide (type = NewMessageUnread)) (newItemAdded item);;
        mret (Some item)
      | None => mret None
      end
    else addNewToLastBlock msg type.

Definition addOlderSlice (slice : list MTPMessage) : Op unit :=
  match slice with
  | [] =>
    modify (set_loadedAtTop true);;
    checkJoinedMessage false
  | _ =>
    added ← createItems slice;
    match added with
    | _ :: _ =>
      startBuildingFrontBlock (Z.of_nat (length added));;
      for_each added addItemToBlock;;
      finishBuildingFrontBlock;;
      h ← get;
      when (loadedAtBottom h) (addItemsToLists added);;
      addToSharedMedia added
    | [] =>
      modify (set_loadedAtTop true);;
      addEdgesToSharedMedia
    end;;
    checkJoinedMessage false;;
    checkLastMessage
  end.

(** *** Construction *)

(** [History::History(owner, peerId)]: [fresh] is the object as its default
    member initializers leave it (they live in history.h, outside the
    sources), [muted] is [owner->notifyIsMuted(peer)]. *)
Definition History_new (fresh : History) (p : PeerData) (muted : bool) : History :=
  let h := set_mute muted (set_peer p fresh) in
  match asUser p with
  | Some user =>
    if botInfo user then set_outboxReadBefore (Some MsgId_max) h else h
  | None => h
  end.

End Operations.

(** ** Further operations of [History] *)

Section MoreOperations.

Context (env : Env).

(** *** The notification queue *)

(** The loop of [removeNotification]: erase the first entry that is [item]
    and stop. *)
Fixpoint removeNotification_erase (item : HistoryItem) (queue : list HistoryItem)
    : list HistoryItem :=
  match queue with
  | [] => []
  | queued :: rest =>
    if same_item queued item then rest
    else queued :: removeNotification_erase item rest
  end.

Definition removeNotification (item : HistoryItem) : Op unit :=
  modify (fun h => set_notifies (removeNotification_erase item (notifies h)) h).

Definition hasNotification (h : History) : bool :=
  negb (bool_decide (notifies h = [])).

Definition skipNotification : Op unit :=
  modify (fun h => set_notifies (tail (notifies h)) h).

Definition popNotification (item : option HistoryItem) : Op unit :=
  h ← get;
  when (negb (bool_decide (notifies h = [])) && same_ptr (last (notifies h)) item)
    (modify (set_notifies (removelast (notifies h)))).

Definition clearNotifications : Op unit := modify (set_notifies []).

(** *** Unread mentions *)

Definition eraseFromUnreadMentions (msgId : MsgId) : Op unit :=
  modify (fun h => set_unreadMentions (_unreadMentions h ∖ {[ msgId ]}) h);;
  h ← get;
  match _unreadMentionsCount h with
  | Some count => when (0 <? count) (setUnreadMentionsCount env (int_sub count 1))
  | None => skip
  end;;
  call (Notify_peerUpdatedDelayed "UnreadMentionsChanged").

(** *** Reading and the unread badge *)

Definition readInbox : Op MsgId :=
  h ← get;
  let upTo := msgIdForRead env h in
  changeUnreadCount env (int_neg (unreadCount h));;
  when (negb (upTo =? 0)) (inboxRead env upTo);;
  mret upTo.

Definition unreadMark (h : History) : bool := _unreadMark h.

(** What the conversation contributes to the application-wide unread
    total: its count, or one when it only carries the unread mark. *)
Definition historiesUnreadCount (h : History) : Z :=
  let result := unreadCount h in
  if (result =? 0) && unreadMark h then 1 else result.

Definition unknownMessageDeleted (messageId : MsgId) : Op unit :=
  h ← get;
  match _inboxReadBefore h with
  | Some before => when (messageId >=? before) (changeUnreadCount env (-1))
  | None => skip
  end.

Definition int_mul (a b : Z) : Z := wrap32 (a * b).

(** [changedInChatListHook(list, added)]; [listIsAll] is
    [list == Dialogs::Mode::All]. *)
Definition changedInChatListHook (listIsAll added : bool) : Op unit :=
  when listIsAll (
    h ← get;
    let delta := int_mul (historiesUnreadCount h) (if added then 1 else -1) in
    when (negb (delta =? 0)) (
      call (owner_unreadIncrement delta (mute h));;
      let entriesDelta : Z := if added then 1 else -1 in
      call (owner_unreadEntriesChanged entriesDelta (if mute h then entriesDelta else 0)))).

(** [clearUnreadOnClientSide()].  [supportMode] is [session().supportMode()]
    and [f_deleted user] is [user->flags() & MTPDuser::Flag::f_deleted];
    both are answered outside this file. *)
Definition clearUnreadOnClientSide (supportMode : bool) (f_deleted : UserData -> bool)
    (h : History) : bool :=
  if negb supportMode then false
  else match asUser (peer h) with
  | Some user => f_deleted user
  | None => false
  end.

Definition setUnreadMark (supportMode : bool) (f_deleted : UserData -> bool)
    (unread : bool) : Op unit :=
  h ← get;
  let unread := if clearUnreadOnClientSide supportMode f_deleted h then false else unread in
  when (negb (eqb (_unreadMark h) unread)) (
    modify (set_unreadMark unread);;
    when (match _unreadCount h with Some count => count =? 0 | None => true end) (
      when (inChatList env) (
        let delta : Z := if unread then 1 else -1 in
        call (owner_unreadIncrement delta (mute h));;
        call (owner_unreadEntriesChanged delta (if mute h then delta else 0));;
        call updateChatListEntry));;
    call (Notify_peerUpdatedDelayed "UnreadViewChanged")).

(** *** The newer edge *)

Definition addNewerSlice (slice : list MTPMessage) : Op unit :=
  h ← get;
  let wasLoadedAtBottom := loadedAtBottom h in
  match slice with
  | [] =>
    modify (set_loadedAtBottom true);;
    h ← get;
    when (negb (bool_decide (is_Some (lastMessage h))))
      (setLastMessage env (lastAvailableMessage h))
  | _ => skip
  end;;
  added ← createItems env slice;
  match added with
  | _ :: _ =>
    h ← get;
    Expects "History::addNewerSlice" "!isBuildingFrontBlock()" (negb (isBuildingFrontBlock h));;
    for_each added addItemToBlock;;
    addToSharedMedia env added
  | [] =>
    modify (set_loadedAtBottom true);;
    h ← get;
    setLastMessage env (lastAvailableMessage h);;
    addEdgesToSharedMedia env
  end;;
  when (negb wasLoadedAtBottom) (checkAddAllToUnreadMentions env);;
  checkJoinedMessage env false;;
  checkLastMessage env.

(** [History::clear()] *)
Definition History_clear : Op unit := clearBlocks env false.

End MoreOperations.

(** ** Sample data

    Concrete peers, items and windows on which the statements below are
    exercised. *)

Definition nobody : PeerRef :=
  {| ref_id := 0; ref_isUser := false; ref_botInfo := false |}.

(** An inbound, already read text message without sender bookkeeping. *)
Definition plain_item (i : MsgId) (d : TimeId) : HistoryItem := {|
  id := i; date := d; out := false; unread := false; isPost := false;
  from := nobody; author := nobody;
  isGroupMigrate := false; isGroupEssential := false;
  definesReplyKeyboard := false;
  replyKeyboardFlags := {| f_selective := false; f_zero := false |};
  mentionsMe := false; isUnreadMention := false;
  sharedMediaTypes := false; hasGroupId := false |}.

(** The service event that marks a legacy group's conversion. *)
Definition migrate_item (i : MsgId) (d : TimeId) : HistoryItem := {|
  id := i; date := d; out := false; unread := false; isPost := false;
  from := nobody; author := nobody;
  isGroupMigrate := true; isGroupEssential := true;
  definesReplyKeyboard := false;
  replyKeyboardFlags := {| f_selective := false; f_zero := false |};
  mentionsMe := false; isUnreadMention := false;
  sharedMediaTypes := false; hasGroupId := false |}.

Definition outgoing_item (i : MsgId) (d : TimeId) : HistoryItem := {|
  id := i; date := d; out := true; unread := true; isPost := false;
  from := nobody; author := nobody;
  isGroupMigrate := false; isGroupEssential := false;
  definesReplyKeyboard := false;
  replyKeyboardFlags := {| f_selective := false; f_zero := false |};
  mentionsMe := false; isUnreadMention := false;
  sharedMediaTypes := false; hasGroupId := false |}.

Definition sample_env : Env := {|
  ServerMaxMsgId := 1073741823;
  crl_now := 1000;
  DialogsModeEnabled := false;
  inChatList := true;
  anim_Disabled := false;
  App_main := true;
  chatListTimeId := 20;
  userPeerId := 777;
  userLoaded := fun u => Some {| ref_id := u; ref_isUser := true; ref_botInfo := false |};
  peerFromUser := fun u => u;
  historyLoaded := fun _ => None;
  owner_history := fun _ => {| sib_chatListMessage := None; sib_unreadCount := 0 |};
  draftStringIsEmpty := fun text => bool_decide (text = ""%string);
  GenerateJoinedMessage := fun d _ => plain_item (-1) d
|}.

Definition user_peer : PeerData :=
  {| peer_id := 5; peer_kind := PeerUser {| botInfo := false |}; canWrite := true |}.

Definition bot_peer : PeerData :=
  {| peer_id := 6; peer_kind := PeerUser {| botInfo := true |}; canWrite := true |}.

Definition chat_peer : PeerData :=
  {| peer_id := 7;
     peer_kind := PeerChat {| lastAuthors := []; chat_markupSenders := ∅;
                              participants := ∅; getMigrateToChannel := None |};
     canWrite := true |}.

(** A channel the user was invited to by user 42 at time 10. *)
Definition channel_peer : PeerData :=
  {| peer_id := 9;
     peer_kind := PeerChannel {| mgInfo := None; amIn := true; inviter := 42;
                                 inviteDate := 10; feed := false |};
     canWrite := true |}.

(** A window with nothing loaded and nothing known. *)
Definition empty_window (p : PeerData) : History := {|
  peer := p; blocks := [];
  _loadedAtTop := false; _loadedAtBottom := true;
  _buildingFrontBlock := None;
  _inboxReadBefore := None; _outboxReadBefore := None;
  _unreadCount := None; _unreadMark := false;
  _unreadMentions := ∅; _unreadMentionsCount := None;
  _lastMessage := None; _chatListMessage := None;
  _localDraft := None; _cloudDraft := None;
  notifies := [];
  _firstUnreadView := None; _unreadBarView := None;
  scrollTopItem := None; _joinedMessage := None;
  lastKeyboardInited := false; lastKeyboardId := 0; lastKeyboardHiddenId := 0;
  lastKeyboardFrom := 0; lastKeyboardUsed := false;
  _mute := false; _typing := ∅; _sendActions := ∅;
  items := ∅; effects := []
|}.

(** One id tracked out of a known total of five. *)
Definition one_of_five_mentions : History :=
  set_unreadMentionsCount (Some 5) (set_unreadMentions {[ 1 ]} (empty_window user_peer)).

(** Five ids tracked of five unread mentions. *)
Definition five_of_five_mentions : History :=
  set_unreadMentionsCount (Some 5)
    (set_unreadMentions {[ 11; 12; 13; 14; 15 ]} (empty_window user_peer)).

(** Three ids tracked, the total not known yet. *)
Definition three_tracked_mentions : History :=
  set_unreadMentions {[ 1; 2; 3 ]} (empty_window user_peer).

(** A cloud draft written at time 20 and a local draft from time 10. *)
Definition cloud_draft_T2 : Draft :=
  {| draft_date := 20; textWithTags := "from another device"; msgId := 0;
     cursor := 19; previewCancelled := false |}.

Definition local_draft_T1 : Draft :=
  {| draft_date := 10; textWithTags := "typed here"; msgId := 0;
     cursor := 4; previewCancelled := true |}.

(** A legacy group that has loaded only its migration event. *)
Definition migrated_group_window : History :=
  set_lastMessage (Some (Some (migrate_item 8 30)))
    (set_blocks [ {| messages := [migrate_item 8 30] |} ] (empty_window chat_peer)).


(** A private chat that has loaded one message but not its newest ones. *)
Definition scrolled_up_window : History :=
  set_loadedAtBottom false
    (set_blocks [ {| messages := [plain_item 3 5] |} ] (empty_window user_peer)).

Definition incoming_message (i : MsgId) (d : TimeId) : MTPMessage :=
  {| mtp_type := mtpc_message; mtp_item := plain_item i d |}.

(** The channel of [channel_peer] with one message from time 5 loaded and
    the joined message not inserted yet. *)
Definition invited_channel_window : History :=
  set_blocks [ {| messages := [plain_item 3 5] |} ] (empty_window channel_peer).

(** ** Vocabulary of the statements *)

(** [yields R Q m]: from every state [m] finishes, in a state related to
    the initial one by [R] and with a result satisfying [Q]. *)
Definition yields {A} (R : History -> History -> Prop) (Q : A -> Prop) (m : Op A) : Prop :=
  forall h, exists a h', m h = Done a h' /\ R h h' /\ Q a.

Definition any_result {A} : A -> Prop := fun _ => True.

(** [runs R m]: [m] finishes from every state, whatever it returns. *)
Abbreviation runs R m := (yields R any_result m).

(** [keeps f]: the observation [f] of the window is unchanged. *)
Definition keeps {B} (f : History -> B) : History -> History -> Prop :=
  fun h h' => f h' = f h.

Definition anything : History -> History -> Prop := fun _ _ => True.

Definition reflexive_on (R : History -> History -> Prop) : Prop :=
  forall h, R h h.

Definition transitive_on (R : History -> History -> Prop) : Prop :=
  forall h1 h2 h3, R h1 h2 -> R h2 h3 -> R h1 h3.

(** [allLoaded] of [addToUnreadMentions]: the tracked ids have reached the
    known total, in the unsigned comparison of the code. *)
Definition allLoaded (h : History) : bool :=
  match _unreadMentionsCount h with
  | Some c => Z.of_nat (size (_unreadMentions h)) >=? to_size_t c
  | None => false
  end.

(** A broadcast channel: a channel that is not a megagroup. *)
Definition isBroadcast (h : History) : bool :=
  peer_isChannel (peer h) && negb (peer_isMegagroup (peer h)).

(** The claim of C1 as worded, for one call: below the known total, an
    accepted id has type [New]. *)
Definition accepts_only_new_below_total (env : Env) (h : History) : Prop :=
  forall msgId type c,
    _unreadMentionsCount h = Some c ->
    Z.of_nat (size (_unreadMentions h)) < c ->
    result (addToUnreadMentions env msgId type) h = Some true ->
    type = New.

(** The claim of C7 as worded, for one call: a reported count below the
    number of tracked ids is replaced by that number, the warning is logged
    and the tracked ids are kept. *)
Definition trusts_local_count (env : Env) (n : Z) (h : History) : Prop :=
  n < Z.of_nat (size (_unreadMentions h)) ->
  forall h', setUnreadMentionsCount env n h = Done tt h' ->
    _unreadMentionsCount h' = Some (Z.of_nat (size (_unreadMentions h)))
    /\ LOG "API Warning: real mentions count is greater than received mentions count"
       ∈ effects h'
    /\ _unreadMentions h' = _unreadMentions h.

(** What no read, unread-count, chat-list or typing operation touches. *)
Definition core (h : History) :=
  (peer h, blocks h, _loadedAtTop h, _loadedAtBottom h, _buildingFrontBlock h,
   _unreadMark h, _unreadMentions h, _unreadMentionsCount h,
   _localDraft h, _cloudDraft h, scrollTopItem h, _joinedMessage h,
   (lastKeyboardInited h, lastKeyboardId h, lastKeyboardHiddenId h,
    lastKeyboardFrom h, lastKeyboardUsed h),
   _mute h, items h).

(** The read cursors, counters and queues that only the unread path of an
    ingestion touches. *)
Definition reading (h : History) :=
  (_inboxReadBefore h, _outboxReadBefore h, _unreadCount h, notifies h,
   _firstUnreadView h, _unreadBarView h, _typing h, _sendActions h).

(** The block sequence and what delimits it. *)
Definition layout (h : History) :=
  (blocks h, _loadedAtTop h, _loadedAtBottom h, _buildingFrontBlock h).

(** The load-edge flags and the front-block builder alone. *)
Definition edges (h : History) :=
  (_loadedAtTop h, _loadedAtBottom h, _buildingFrontBlock h).

(** The blocks after a normal append of [item]: a new block is opened when
    there is none or the last one is full. *)
Definition appended (item : HistoryItem) (bs : list HistoryBlock) : list HistoryBlock :=
  let opened :=
    if match last bs with
       | None => true
       | Some back => Z.of_nat (length (messages back)) >=? kNewBlockEachMessage
       end
    then bs ++ [ {| messages := [] |} ] else bs in
  alter (HistoryBlock_push_back item) (length opened - 1)%nat opened.

(** The blocks after [item] is inserted at [itemIndex] of block [blockIndex]. *)
Definition inserted (item : HistoryItem) (blockIndex itemIndex : nat)
    (bs : list HistoryBlock) : list HistoryBlock :=
  alter (fun b =>
    {| messages := take itemIndex (messages b) ++ item :: drop itemIndex (messages b) |})
    blockIndex bs.

Definition violation_startBuilding : Violation :=
  ContractViolation "History::startBuildingFrontBlock" "!isBuildingFrontBlock()".

Definition violation_addNewItem : Violation :=
  ContractViolation "History::addNewItem" "!isBuildingFrontBlock()".

(** What the read path (cursors, counters, notifications, typing) leaves
    alone: [core] and the two message pointers. *)
Definition stable (h : History) := (core h, _lastMessage h, _chatListMessage h).

(** What deriving the chat-list projection leaves alone: everything but
    [_chatListMessage] and the trace. *)
Definition steady (h : History) := (core h, reading h, _lastMessage h).

(** What [setLastMessage] leaves alone. *)
Definition outside_projection (h : History) := (core h, reading h).

(** The state of the window apart from [_lastMessage] (and apart from the
    owner's registry and the trace, which are not the window's). *)
Definition beside_lastMessage (h : History) :=
  (peer h, blocks h, _loadedAtTop h, _loadedAtBottom h, _buildingFrontBlock h,
   (_inboxReadBefore h, _outboxReadBefore h, _unreadCount h, _unreadMark h),
   (_unreadMentions h, _unreadMentionsCount h),
   _chatListMessage h,
   (_localDraft h, _cloudDraft h),
   (notifies h, _firstUnreadView h, _unreadBarView h, scrollTopItem h, _joinedMessage h),
   (lastKeyboardInited h, lastKeyboardId h, lastKeyboardHiddenId h,
    lastKeyboardFrom h, lastKeyboardUsed h),
   (_mute h, _typing h, _sendActions h)).

(** The guard of [setLastMessage] that keeps the current last message: it
    is a local item (its id is not a server id) dated later than [item]. *)
Definition later_local_last (env : Env) (item : HistoryItem) (h : History) : bool :=
  match _lastMessage h with
  | Some (Some current) => negb (IsServerMsgId env (id current)) && (date current >? date item)
  | _ => false
  end.

(** The part of the window that neither the chat-list projection, nor
    reading, nor the unread mentions concern. *)
Definition anchored (h : History) :=
  (peer h, _unreadMark h, _localDraft h, _cloudDraft h, scrollTopItem h, _joinedMessage h,
   (lastKeyboardInited h, lastKeyboardId h, lastKeyboardHiddenId h,
    lastKeyboardFrom h, lastKeyboardUsed h)).

(** The claim of C3 as worded, for one ingestion: nothing of the window
    but [_lastMessage] changes. *)
Definition only_lastMessage_updated (env : Env) (msg : MTPMessage)
    (type : NewMessageType) (h : History) : Prop :=
  type <> NewMessageExisting ->
  loadedAtBottom h = false ->
  forall r h', addNewMessage env msg type h = Done r h' ->
    beside_lastMessage h' = beside_lastMessage h.

(** [joined_into h h']: the load-edge flags and the builder are as in [h],
    and the views of [h'] are those of [h], in the same order, with at most
    one item added. *)
Definition joined_into (h h' : History) : Prop :=
  edges h' = edges h
  /\ (blocks h' = blocks h
      \/ exists pre post joined,
           views h = pre ++ post /\ views h' = pre ++ joined :: post).

(** No item that [GenerateJoinedMessage] can produce is displayed yet. *)
Definition joined_message_fresh (env : Env) (h : History) : Prop :=
  forall d who, mainView (GenerateJoinedMessage env d who) h = false.

(** The claim of C6 as worded, for one window: an empty older page sets
    [loadedAtTop] and leaves [loadedAtBottom] and the blocks as they are. *)
Definition empty_page_keeps_blocks (env : Env) (h : History) : Prop :=
  forall h', addOlderSlice env [] h = Done tt h' ->
    _loadedAtTop h' = true
    /\ _loadedAtBottom h' = _loadedAtBottom h
    /\ blocks h' = blocks h.

(** ** Vocabulary of the further statements *)

(** The known total of unread mentions is not below the number of ids
    tracked. *)
Definition mentions_within_total (h : History) : Prop :=
  forall total, _unreadMentionsCount h = Some total ->
    Z.of_nat (size (_unreadMentions h)) <= total.

(** A known read cursor stays known and does not move back. *)
Definition cursor_le (before after : option MsgId) : Prop :=
  match before with
  | Some t => exists t', after = Some t' /\ t <= t'
  | None => True
  end.

Definition cursors_advance (h h' : History) : Prop :=
  cursor_le (_inboxReadBefore h) (_inboxReadBefore h')
  /\ cursor_le (_outboxReadBefore h) (_outboxReadBefore h').

(** The two read cursors. *)
Definition cursors (h : History) := (_inboxReadBefore h, _outboxReadBefore h).

(** An incoming unread item with an id above [upTo]. *)
Definition unread_above (upTo : MsgId) (item : HistoryItem) : bool :=
  negb (out item) && unread item && (id item >? upTo).

(** How many items of a list satisfy a test. *)
Definition count_of (test : HistoryItem -> bool) (l : list HistoryItem) : Z :=
  Z.of_nat (length (List.filter test l)).

(** The displayed items are in the order of their ids, oldest first. *)
Fixpoint ordered_by_id (l : list HistoryItem) : Prop :=
  match l with
  | [] => True
  | older :: rest => Forall (fun newer => id older <= id newer) rest /\ ordered_by_id rest
  end.

(** *** The application-wide unread totals

    The owner keeps a total of unread messages and a total of unread
    conversations; a window reports changes of its contribution with
    [unreadIncrement] and [unreadEntriesChanged]. *)

(** Whether the conversation counts as unread: 1 or 0. *)
Definition unread_entry (h : History) : Z :=
  if historiesUnreadCount h =? 0 then 0 else 1.

Definition reported_increment (e : Effect) : Z :=
  match e with owner_unreadIncrement delta _ => delta | _ => 0 end.

Definition reported_entry (e : Effect) : Z :=
  match e with owner_unreadEntriesChanged delta _ => delta | _ => 0 end.

(** The sums of what a trace reported to the owner. *)
Definition reported_unread (fx : list Effect) : Z :=
  foldr (fun e total => reported_increment e + total) 0 fx.

Definition reported_entries (fx : list Effect) : Z :=
  foldr (fun e total => reported_entry e + total) 0 fx.

(** The part of the window's contribution that the owner has not been
    told about. *)
Definition badge_ledger (h : History) : Z * Z :=
  (historiesUnreadCount h - reported_unread (effects h),
   unread_entry h - reported_entries (effects h)).

(** What the branch of [setUnreadCount] on the new count leaves alone. *)
Definition counting (h : History) :=
  (effects h, _unreadMark h, _unreadBarView h, _mute h, _unreadCount h).

(** What the typing indicators leave alone of the notification queue and
    of whom the conversation is with. *)
Definition queue_view (h : History) := (peer h, notifies h).

(** Whether a new unread incoming message is announced: always, except in
    a channel the user is not in. *)
Definition announces (h : History) : bool :=
  negb (isChannel h)
  || match asChannel (peer h) with Some channel => amIn channel | None => false end.

(** *** Blocks *)

(** A block holds at least one view and at most [kNewBlockEachMessage]. *)
Definition block_well_sized (b : HistoryBlock) : Prop :=
  0 < Z.of_nat (length (messages b)) <= kNewBlockEachMessage.

Definition block_not_empty (b : HistoryBlock) : Prop := messages b <> [].

Definition violation_blockIndex : Violation :=
  ContractViolation "History::addNewInTheMiddle" "blockIndex < blocks.size()".

Definition violation_itemIndex : Violation :=
  ContractViolation "History::addNewInTheMiddle"
    "itemIndex <= blocks[blockIndex]->messages.size()".

(** No pointer that the window caches refers to [view]. *)
Definition forgets (view : HistoryItem) (h : History) : Prop :=
  _joinedMessage h <> Some view
  /\ _firstUnreadView h <> Some view
  /\ _unreadBarView h <> Some view
  /\ scrollTopItem h <> Some view.

(** The views that follow the view at index [i] of block [b]. *)
Definition views_after (b i : nat) (bs : list HistoryBlock) : list HistoryItem :=
  match bs !! b with
  | Some blk => drop (S i) (messages blk) ++ concat (messages <$> drop (S b) bs)
  | None => []
  end.

(** The views that precede it. *)
Definition views_before (b i : nat) (bs : list HistoryBlock) : list HistoryItem :=
  match bs !! b with
  | Some blk => concat (messages <$> take b bs) ++ take i (messages blk)
  | None => []
  end.

(** The pointers to views that the window caches. *)
Definition cached (h : History) :=
  (_joinedMessage h, _firstUnreadView h, _unreadBarView h, scrollTopItem h).

Definition displayed (h : History) := (blocks h, cached h).

(** What the chat list shows of the conversation and what the server
    knows about it: the state that unloading the blocks must not lose. *)
Definition summary (h : History) :=
  (_lastMessage h, _chatListMessage h, (_unreadCount h, _unreadMark h),
   (_inboxReadBefore h, _outboxReadBefore h),
   (_unreadMentions h, _unreadMentionsCount h),
   (_localDraft h, _cloudDraft h), notifies h, items h, _mute h).

(** [preserves f m]: whenever [m] finishes, the observation [f] of the
    window is as before ([m] may also stop on a contract violation). *)
Definition preserves {A B} (f : History -> B) (m : Op A) : Prop :=
  forall h a h', m h = Done a h' -> f h' = f h.

(** What ingestion, reading and unloading have no business with: the
    drafts, the mute flag, the unread mark, and who the conversation is
    with. *)
Definition settled (h : History) :=
  (_localDraft h, _cloudDraft h, _mute h, _unreadMark h,
   (peer_id (peer h), canWrite (peer h)),
   (isUser (peer h), isChat (peer h), peer_isChannel (peer h), peer_isMegagroup (peer h))).

(** What [clearLastKeyboard] leaves alone: everything but the reply
    keyboard and the trace. *)
Definition beside_keyboard (h : History) :=
  (peer h, layout h, reading h, (_lastMessage h, _chatListMessage h),
   (_joinedMessage h, scrollTopItem h), items h, (_unreadMark h, _mute h),
   (_localDraft h, _cloudDraft h)).

(** The notification queue and the unread bar. *)
Definition queue_and_bar (h : History) := (notifies h, _unreadBarView h).

(** What [History::clear] resets: the displayed blocks with the cached
    pointers, the notification queue, the last message, the unread count
    and the origin of the reply keyboard. *)
Definition cleared (h : History) :=
  (displayed h, notifies h, lastMessage h, unreadCount h,
   (lastKeyboardId h, lastKeyboardFrom h)).

(** What survives [History::clear] unchanged once the cached pointers are
    reset. *)
Definition carried (h : History) :=
  (_joinedMessage h, _firstUnreadView h, _unreadBarView h, items h, settled h,
   cursors h, peer h).

(** What [History::clear] has emptied when it turns to the unread count. *)
Definition vacated (h : History) := (blocks h, notifies h, _lastMessage h).

(** The typing and the send-action indicator shown for [user]. *)
Definition indicators (user : PeerId) (h : History) : option Z * option SendAction :=
  (_typing h !! user, _sendActions h !! user).

(** [h'] shows for [user] what [h] shows, unless it has run out by [now]:
    no indicator is new, and one that runs past [now] is still shown. *)
Definition indicators_swept (now : Z) (user : PeerId) (h h' : History) : Prop :=
  (forall t, _typing h' !! user = Some t -> _typing h !! user = Some t)
  /\ (forall t, _typing h !! user = Some t -> now < t -> _typing h' !! user = Some t)
  /\ (forall a, _sendActions h' !! user = Some a -> _sendActions h !! user = Some a)
  /\ (forall a, _sendActions h !! user = Some a -> now < until a ->
        _sendActions h' !! user = Some a).

(** The deque that [addNewItem] keeps of the users who wrote last: the
    last authors of a legacy group, the last participants of a megagroup. *)
Definition recent_authors (h : History) : option (list PeerId) :=
  match asChat (peer h), asMegagroup (peer h) with
  | Some chat, _ => Some (lastAuthors chat)
  | None, Some mg => Some (lastParticipants mg)
  | None, None => None
  end.

(** [h'] has [user] bumped in the recent authors of [h]. *)
Definition author_bumped (user : PeerId) (h h' : History) : Prop :=
  recent_authors h' = bumpAuthor user <$> recent_authors h.

(** A server-confirmed incoming item that the inbox cursor [readBefore]
    does not cover. *)
Definition unread_by_cursor (env : Env) (readBefore : MsgId) (item : HistoryItem) : bool :=
  IsServerMsgId env (id item) && negb (out item) && (id item >=? readBefore).

(** The blocks, the front-block builder and whether the top is reached. *)
Definition built (h : History) := (blocks h, _buildingFrontBlock h, _loadedAtTop h).

(** The registry after the items of [messages] are created, first to last. *)
Definition registered (messages : list MTPMessage) (registry : gmap MsgId HistoryItem)
    : gmap MsgId HistoryItem :=
  foldl (fun registry message => <[IdFromMessage message := mtp_item message]> registry)
    registry messages.

(** A page of messages that the window has not seen: each has an id, no
    two share one, and none is tracked or displayed. *)
Definition unseen_page (slice : list MTPMessage) (h : History) : Prop :=
  Forall (fun message => IdFromMessage message <> 0) slice
  /\ NoDup (IdFromMessage <$> slice)
  /\ Forall (fun message => items h !! IdFromMessage message = None) slice
  /\ Forall (fun message => mtp_item message ∉ views h) slice.

(** ** Further sample data *)

(** A private chat whose three unread mentions are all tracked. *)
Definition all_three_mentions : History :=
  set_unreadMentionsCount (Some 3)
    (set_unreadMentions {[ 1; 2; 3 ]} (empty_window user_peer)).

(** An inbound message that has not been read yet. *)
Definition unread_item (i : MsgId) (d : TimeId) : HistoryItem := {|
  id := i; date := d; out := false; unread := true; isPost := false;
  from := nobody; author := nobody;
  isGroupMigrate := false; isGroupEssential := false;
  definesReplyKeyboard := false;
  replyKeyboardFlags := {| f_selective := false; f_zero := false |};
  mentionsMe := false; isUnreadMention := false;
  sharedMediaTypes := false; hasGroupId := false |}.

(** A private chat showing one read and two unread inbound messages, with
    its counter at two. *)
Definition two_unread_window : History :=
  set_unreadCount (Some 2)
    (set_blocks [ {| messages := [plain_item 3 5; unread_item 4 6; unread_item 5 7] |} ]
       (empty_window user_peer)).

(** [two_unread_window] with its first unread view found. *)
Definition first_unread_window : History :=
  set_firstUnreadView (Some (unread_item 4 6)) two_unread_window.

(** A read incoming message written by the user [who]. *)
Definition authored_item (i : MsgId) (d : TimeId) (who : PeerId) : HistoryItem := {|
  id := i; date := d; out := false; unread := false; isPost := false;
  from := {| ref_id := who; ref_isUser := true; ref_botInfo := false |};
  author := {| ref_id := who; ref_isUser := true; ref_botInfo := false |};
  isGroupMigrate := false; isGroupEssential := false;
  definesReplyKeyboard := false;
  replyKeyboardFlags := {| f_selective := false; f_zero := false |};
  mentionsMe := false; isUnreadMention := false;
  sharedMediaTypes := false; hasGroupId := false |}.

(** A legacy group in which the users 40, 41 and 42 wrote last. *)
Definition recent_chat_window : History :=
  empty_window
    {| peer_id := 7;
       peer_kind := PeerChat {| lastAuthors := [40; 41; 42]; chat_markupSenders := ∅;
                                participants := ∅; getMigrateToChannel := None |};
       canWrite := true |}.

(** A megagroup whose known members are 40 and 41, with the bot 41. *)
Definition megagroup_window : History :=
  empty_window
    {| peer_id := 11;
       peer_kind := PeerChannel
         {| mgInfo := Some {| lastParticipants := [40; 41]; bots := {[ 41 ]};
                              botStatus := 2; markupSenders := ∅;
                              joinedMessageFound := true; getMigrateFromChat := None |};
            amIn := true; inviter := 0; inviteDate := 0; feed := false |};
       canWrite := true |}.

(** * Properties *)

(** ** Machine integers *)

Lemma wrap32_in_int (z : Z) : in_int (wrap32 z).
Proof.
  unfold in_int, wrap32, int_min, int_max.
  pose proof (Z.mod_pos_bound (z + 2 ^ 31) (2 ^ 32) ltac:(lia)). lia.
Qed.

Lemma wrap32_id (z : Z) : in_int z -> wrap32 z = z.
Proof.
  unfold in_int, wrap32, int_min, int_max. intros Hz.
  rewrite Z.mod_small by lia. lia.
Qed.

Lemma int_add_le_max (a b : Z) : int_add a b <= MsgId_max.
Proof. pose proof (wrap32_in_int (a + b)). unfold int_add, MsgId_max, in_int in *. lia. Qed.

Lemma accumulate_max_spec (a b : Z) : accumulate_max a b = Z.max a b.
Proof. unfold accumulate_max. destruct (Z.ltb_spec a b); lia. Qed.

(** ** Running operations *)

Lemma yields_weaken {A} (R R' : History -> History -> Prop) (Q : A -> Prop) (m : Op A) :
  (forall h h', R h h' -> R' h h') -> yields R Q m -> yields R' Q m.
Proof. intros HR Hm h. destruct (Hm h) as (a & h' & E & Hh & Ha). eauto 6. Qed.

Lemma yields_forget {A} R (Q : A -> Prop) (m : Op A) : yields R Q m -> runs R m.
Proof. intros Hm h. destruct (Hm h) as (a & h' & E & Hh & Ha). exists a, h'. done. Qed.

Lemma yields_seq {A B} (R1 R2 R : History -> History -> Prop) (Q1 : A -> Prop)
    (Q : B -> Prop) (m : Op A) (k : A -> Op B) :
  yields R1 Q1 m -> (forall a, Q1 a -> yields R2 Q (k a)) ->
  (forall h1 h2 h3, R1 h1 h2 -> R2 h2 h3 -> R h1 h3) ->
  yields R Q (m ≫= k).
Proof.
  intros Hm Hk HR h. destruct (Hm h) as (a & h1 & E1 & H1 & Ha).
  destruct (Hk a Ha h1) as (b & h2 & E2 & H2 & Hb).
  exists b, h2. split; [|eauto].
  unfold mbind, Op_bind. rewrite E1. exact E2.
Qed.

Lemma yields_ret {A} R (Q : A -> Prop) (a : A) :
  reflexive_on R -> Q a -> yields R Q (mret a).
Proof. intros R_refl Ha h. exists a, h. split; [reflexivity | split; [apply R_refl | exact Ha]]. Qed.

Lemma runs_skip R : reflexive_on R -> runs R skip.
Proof. intros R_refl. apply yields_ret; [exact R_refl | exact I]. Qed.

Lemma yields_bind {A B} R (Q : B -> Prop) (m : Op A) (k : A -> Op B) :
  transitive_on R -> runs R m -> (forall a, yields R Q (k a)) -> yields R Q (m ≫= k).
Proof. intros R_trans Hm Hk. eapply yields_seq; eauto. Qed.

Lemma yields_get {A} R (Q : A -> Prop) (k : History -> Op A) :
  (forall h, yields R Q (k h)) -> yields R Q (get ≫= k).
Proof. intros Hk h. exact (Hk h h). Qed.

Lemma yields_gets {A B} R (Q : A -> Prop) (f : History -> B) (k : B -> Op A) :
  (forall b, yields R Q (k b)) -> yields R Q (gets f ≫= k).
Proof. intros Hk h. exact (Hk (f h) h). Qed.

Lemma runs_modify R (f : History -> History) :
  (forall h, R h (f h)) -> runs R (modify f).
Proof. intros Hf h. exists tt, (f h). split; [reflexivity | split; [apply Hf | exact I]]. Qed.

Lemma runs_when R (b : bool) (m : Op unit) :
  reflexive_on R -> runs R m -> runs R (when b m).
Proof. intros R_refl Hm. destruct b; [exact Hm | apply runs_skip, R_refl]. Qed.

Lemma runs_for_each {A} R (xs : list A) (body : A -> Op unit) :
  reflexive_on R -> transitive_on R ->
  (forall x, runs R (body x)) -> runs R (for_each xs body).
Proof.
  intros R_refl R_trans Hb. induction xs as [|x xs IH]; simpl.
  - apply runs_skip, R_refl.
  - apply yields_bind; [exact R_trans | apply Hb | intros _; exact IH].
Qed.

Lemma keeps_refl {B} (f : History -> B) : reflexive_on (keeps f).
Proof. intros h. reflexivity. Qed.

Lemma keeps_trans {B} (f : History -> B) : transitive_on (keeps f).
Proof. unfold transitive_on, keeps. congruence. Qed.

Lemma runs_call {B} (f : History -> B) (e : Effect) :
  (forall v h, f (set_effects v h) = f h) -> runs (keeps f) (call e).
Proof. intros Hf. apply runs_modify. intros h. apply Hf. Qed.

(** The end state of a unit operation that runs. *)
Lemma runs_unit R (m : Op unit) (h : History) :
  runs R m -> exists h', m h = Done tt h' /\ R h h'.
Proof. intros Hm. destruct (Hm h) as ([] & h' & E & Hh & _). eauto. Qed.

(** One step of a frame proof for the observation [f]: peel a bind, a
    branch or a primitive, or close the goal with a lemma of the
    [frame] database. *)
Ltac frame_step :=
  lazymatch goal with
  | |- yields _ _ (get ≫= _) => apply yields_get; intro
  | |- yields _ _ (gets _ ≫= _) => apply yields_gets; intro
  | |- yields _ _ (mret _) =>
    apply yields_ret; [apply keeps_refl | first [exact I | reflexivity]]
  | |- yields _ _ skip => apply runs_skip, keeps_refl
  | |- yields _ _ (modify _) => apply runs_modify; intro; reflexivity
  | |- yields _ _ (call _) => apply runs_call; intros; reflexivity
  | |- yields _ _ (when _ _) => apply runs_when; [apply keeps_refl | ]
  | |- yields _ _ (for_each _ _) =>
    apply runs_for_each; [apply keeps_refl | apply keeps_trans | intro]
  | |- yields _ _ (if ?b then _ else _) => destruct b
  | |- yields _ _ (match ?x with _ => _ end) => destruct x
  | |- yields _ _ (let _ := _ in _) => cbv zeta
  | |- yields _ _ (_ ≫= _) => apply yields_bind; [apply keeps_trans | | intro]
  | |- _ => solve [ eauto with frame ]
  end.

Ltac frame := repeat frame_step.

(** ** Read cursors *)

Lemma setInboxReadTill_run (upTo : MsgId) (h : History) :
  setInboxReadTill upTo h =
  Done tt (set_inboxReadBefore
    (Some (match _inboxReadBefore h with
           | Some t => Z.max t (int_add upTo 1)
           | None => int_add upTo 1
           end)) h).
Proof.
  unfold setInboxReadTill, mbind, Op_bind, gets.
  destruct (_inboxReadBefore h); [rewrite accumulate_max_spec|]; reflexivity.
Qed.

Lemma setOutboxReadTill_run (upTo : MsgId) (h : History) :
  setOutboxReadTill upTo h =
  Done tt (set_outboxReadBefore
    (Some (match _outboxReadBefore h with
           | Some t => Z.max t (int_add upTo 1)
           | None => int_add upTo 1
           end)) h).
Proof.
  unfold setOutboxReadTill, mbind, Op_bind, gets.
  destruct (_outboxReadBefore h); [rewrite accumulate_max_spec|]; reflexivity.
Qed.

Lemma set_inboxReadBefore_same (h : History) (t : MsgId) :
  _inboxReadBefore h = Some t -> set_inboxReadBefore (Some t) h = h.
Proof. destruct h; simpl; intros ->; reflexivity. Qed.

Lemma set_outboxReadBefore_same (h : History) (t : MsgId) :
  _outboxReadBefore h = Some t -> set_outboxReadBefore (Some t) h = h.
Proof. destruct h; simpl; intros ->; reflexivity. Qed.

Lemma setInboxReadTill_many (upTos : list MsgId) (h : History) (t : MsgId) :
  _inboxReadBefore h = Some t ->
  exists h' t', for_each upTos setInboxReadTill h = Done tt h'
    /\ _inboxReadBefore h' = Some t' /\ t <= t'.
Proof.
  revert h t. induction upTos as [|upTo rest IH]; intros h t Ht; simpl.
  - exists h, t. repeat split; [exact Ht | lia].
  - unfold mbind, Op_bind. rewrite setInboxReadTill_run, Ht.
    destruct (IH (set_inboxReadBefore (Some (Z.max t (int_add upTo 1))) h)
                 (Z.max t (int_add upTo 1)) eq_refl) as (h' & t' & E & Ht' & Hle).
    exists h', t'. repeat split; [exact E | exact Ht' | lia].
Qed.

Lemma setOutboxReadTill_many (upTos : list MsgId) (h : History) (t : MsgId) :
  _outboxReadBefore h = Some t ->
  exists h' t', for_each upTos setOutboxReadTill h = Done tt h'
    /\ _outboxReadBefore h' = Some t' /\ t <= t'.
Proof.
  revert h t. induction upTos as [|upTo rest IH]; intros h t Ht; simpl.
  - exists h, t. repeat split; [exact Ht | lia].
  - unfold mbind, Op_bind. rewrite setOutboxReadTill_run, Ht.
    destruct (IH (set_outboxReadBefore (Some (Z.max t (int_add upTo 1))) h)
                 (Z.max t (int_add upTo 1)) eq_refl) as (h' & t' & E & Ht' & Hle).
    exists h', t'. repeat split; [exact E | exact Ht' | lia].
Qed.

(** C4.  Setting the read-till value of either direction with [upTo]
    stores [upTo + 1] (computed in [MsgId] arithmetic, which is the
    mathematical successor for every [upTo] below the largest id): on an
    unknown cursor it becomes known with that value; on a known threshold
    [t] the call changes nothing when [upTo + 1 <= t], so a repeated call is
    a no-op, and otherwise stores [upTo + 1]; through any sequence of calls
    the threshold never decreases. *)
Theorem setReadTill_monotonic_idempotent (upTo : MsgId) (h : History) :
  let next := int_add upTo 1 in
  (in_int upTo -> upTo < MsgId_max -> next = upTo + 1)
  /\ (_inboxReadBefore h = None ->
        setInboxReadTill upTo h = Done tt (set_inboxReadBefore (Some next) h))
  /\ (_outboxReadBefore h = None ->
        setOutboxReadTill upTo h = Done tt (set_outboxReadBefore (Some next) h))
  /\ (forall t, _inboxReadBefore h = Some t ->
        (next <= t -> setInboxReadTill upTo h = Done tt h)
        /\ (t < next ->
              setInboxReadTill upTo h = Done tt (set_inboxReadBefore (Some next) h))
        /\ (forall upTos, exists h' t',
              for_each upTos setInboxReadTill h = Done tt h'
              /\ _inboxReadBefore h' = Some t' /\ t <= t'))
  /\ (forall t, _outboxReadBefore h = Some t ->
        (next <= t -> setOutboxReadTill upTo h = Done tt h)
        /\ (t < next ->
              setOutboxReadTill upTo h = Done tt (set_outboxReadBefore (Some next) h))
        /\ (forall upTos, exists h' t',
              for_each upTos setOutboxReadTill h = Done tt h'
              /\ _outboxReadBefore h' = Some t' /\ t <= t'))
  /\ (exists h1, setInboxReadTill upTo h = Done tt h1
        /\ setInboxReadTill upTo h1 = Done tt h1)
  /\ (exists h1, setOutboxReadTill upTo h = Done tt h1
        /\ setOutboxReadTill upTo h1 = Done tt h1).
Proof.
  intros next. repeat apply conj.
  - intros Hin Hlt. unfold next, int_add. apply wrap32_id.
    unfold in_int, MsgId_max, int_max, int_min in *. lia.
  - intros Hn. rewrite setInboxReadTill_run, Hn. reflexivity.
  - intros Hn. rewrite setOutboxReadTill_run, Hn. reflexivity.
  - intros t Ht. repeat apply conj.
    + intros Hle. rewrite setInboxReadTill_run, Ht.
      rewrite Z.max_l by exact Hle. f_equal. apply set_inboxReadBefore_same, Ht.
    + intros Hlt. rewrite setInboxReadTill_run, Ht.
      rewrite Z.max_r by (fold next; lia). reflexivity.
    + intros upTos. apply setInboxReadTill_many, Ht.
  - intros t Ht. repeat apply conj.
    + intros Hle. rewrite setOutboxReadTill_run, Ht.
      rewrite Z.max_l by exact Hle. f_equal. apply set_outboxReadBefore_same, Ht.
    + intros Hlt. rewrite setOutboxReadTill_run, Ht.
      rewrite Z.max_r by (fold next; lia). reflexivity.
    + intros upTos. apply setOutboxReadTill_many, Ht.
  - eexists. split; [apply setInboxReadTill_run|].
    rewrite setInboxReadTill_run.
    set (v := match _inboxReadBefore h with
              | Some t => Z.max t (int_add upTo 1)
              | None => int_add upTo 1
              end).
    change (_inboxReadBefore (set_inboxReadBefore (Some v) h)) with (Some v).
    cbv beta iota.
    rewrite Z.max_l by (subst v; destruct (_inboxReadBefore h); lia).
    reflexivity.
  - eexists. split; [apply setOutboxReadTill_run|].
    rewrite setOutboxReadTill_run.
    set (v := match _outboxReadBefore h with
              | Some t => Z.max t (int_add upTo 1)
              | None => int_add upTo 1
              end).
    change (_outboxReadBefore (set_outboxReadBefore (Some v) h)) with (Some v).
    cbv beta iota.
    rewrite Z.max_l by (subst v; destruct (_outboxReadBefore h); lia).
    reflexivity.
Qed.

(** ** Outgoing messages to bots *)

Lemma History_new_bot_cursor (fresh : History) (p : PeerData) (muted : bool) :
  asUser p = Some {| botInfo := true |} ->
  _outboxReadBefore (History_new fresh p muted) = Some MsgId_max.
Proof. unfold History_new. intros ->. reflexivity. Qed.

Lemma outboxRead_cursor (env : Env) (upTo : MsgId) (h : History) :
  exists h', outboxRead env upTo h = Done tt h'
    /\ _outboxReadBefore h' =
       Some (match _outboxReadBefore h with
             | Some t => Z.max t (int_add upTo 1)
             | None => int_add upTo 1
             end).
Proof.
  unfold outboxRead, mbind, Op_bind. rewrite setOutboxReadTill_run.
  unfold get.
  set (h1 := set_outboxReadBefore _ h).
  assert (Hrun : runs (keeps _outboxReadBefore)
            (match chatListMessage h1 with
             | Some last =>
               when (out last && IsServerMsgId env (id last) && (id last <=? upTo)
                     && App_main env)
                 (call (main_repaintDialogRow (id last)))
             | None => skip
             end)) by frame.
  destruct (runs_unit _ _ h1 Hrun) as (h2 & -> & K2).
  eexists. split; [reflexivity|]. simpl. exact K2.
Qed.

Lemma outboxRead_many_keeps_max (env : Env) (upTos : list MsgId) (h : History) :
  _outboxReadBefore h = Some MsgId_max ->
  exists h', for_each upTos (outboxRead env) h = Done tt h'
    /\ _outboxReadBefore h' = Some MsgId_max.
Proof.
  revert h. induction upTos as [|upTo rest IH]; intros h Hh; simpl.
  - exists h. split; [reflexivity | exact Hh].
  - destruct (outboxRead_cursor env upTo h) as (h1 & E1 & C1).
    rewrite Hh in C1. rewrite Z.max_l in C1 by apply int_add_le_max.
    destruct (IH h1 C1) as (h' & E & C).
    exists h'. split; [|exact C].
    unfold mbind, Op_bind. rewrite E1. exact E.
Qed.

(** C10.  For a conversation with a bot the constructor puts the outbox
    read cursor at the largest message id; read receipts leave it there;
    and every outbound server-confirmed item is then reported as read
    ([isServerSideUnread] answers [false]). *)
Theorem bot_outbox_always_read (env : Env) (fresh : History) (p : PeerData)
    (muted : bool) (upTos : list MsgId) (item : HistoryItem) :
  asUser p = Some {| botInfo := true |} ->
  ServerMaxMsgId env <= MsgId_max ->
  out item = true ->
  IsServerMsgId env (id item) = true ->
  _outboxReadBefore (History_new fresh p muted) = Some MsgId_max
  /\ exists h', for_each upTos (outboxRead env) (History_new fresh p muted) = Done tt h'
       /\ _outboxReadBefore h' = Some MsgId_max
       /\ isServerSideUnread env item h' = Done false h'.
Proof.
  intros Hbot Hmax Hout Hid.
  pose proof (History_new_bot_cursor fresh p muted Hbot) as Hnew.
  split; [exact Hnew|].
  destruct (outboxRead_many_keeps_max env upTos _ Hnew) as (h' & E & C).
  exists h'. repeat split; [exact E | exact C |].
  unfold isServerSideUnread, mbind, Op_bind, Expects. rewrite Hid. simpl.
  rewrite Hout, C.
  unfold IsServerMsgId in Hid. apply andb_true_iff in Hid as [_ Hlt].
  apply Z.ltb_lt in Hlt.
  destruct (Z.geb_spec (id item) MsgId_max); [lia | reflexivity].
Qed.

Lemma bot_outbox_always_read_witness :
  exists h',
    for_each [5; 9] (outboxRead sample_env) (History_new (empty_window user_peer) bot_peer false)
      = Done tt h'
    /\ _outboxReadBefore h' = Some MsgId_max
    /\ isServerSideUnread sample_env (outgoing_item 12 3) h' = Done false h'.
Proof.
  apply (bot_outbox_always_read sample_env (empty_window user_peer) bot_peer false
           [5; 9] (outgoing_item 12 3)).
  - reflexivity.
  - vm_compute. intros H. discriminate H.
  - reflexivity.
  - reflexivity.
Defined.

(** ** Unread mentions *)

Lemma to_size_t_id (z : Z) : 0 <= z <= int_max -> to_size_t z = z.
Proof. intros H. unfold to_size_t. apply Z.mod_small. unfold int_max in H. lia. Qed.

Lemma setUnreadMentionsCount_run (env : Env) (count : Z) (h : History) :
  exists h', setUnreadMentionsCount env count h = Done tt h'
    /\ _unreadMentionsCount h' =
       Some (if Z.of_nat (size (_unreadMentions h)) >? to_size_t count
             then wrap32 (Z.of_nat (size (_unreadMentions h)))
             else count)
    /\ _unreadMentions h' = _unreadMentions h
    /\ (Z.of_nat (size (_unreadMentions h)) > to_size_t count ->
        exists rest,
          effects h' =
          effects h
          ++ LOG "API Warning: real mentions count is greater than received mentions count"
          :: rest)
    /\ (Z.of_nat (size (_unreadMentions h)) <= to_size_t count ->
        forall text, LOG text ∈ effects h' -> LOG text ∈ effects h).
Proof.
  unfold setUnreadMentionsCount, mbind, Op_bind, get.
  set (tracked := Z.of_nat (size (_unreadMentions h))).
  destruct (Z.gtb_spec tracked (to_size_t count)) as [Hgt|Hle];
    unfold call, modify, mret, Op_ret; cbv beta iota;
    match goal with
    | |- context [when ?b _] => destruct b
    end; unfold when, skip, mret, Op_ret; cbv beta iota;
    (eexists; split; [reflexivity|]); cbn.
  - repeat split; [intros _ | intros; lia].
    rewrite <- !app_assoc. eauto.
  - repeat split; [intros _; eauto | intros; lia].
  - repeat split; [intros; lia | intros _ text Hin].
    rewrite !elem_of_app in Hin.
    destruct Hin as [[Hin|Hin]|Hin]; [exact Hin | |];
      apply list_elem_of_singleton in Hin; discriminate Hin.
  - repeat split; [intros; lia | intros _ text Hin; exact Hin].
Qed.

(** For a count that is not negative and a tracked set that an [int] can
    count, the stored count is the larger of the two. *)
Lemma setUnreadMentionsCount_counted (env : Env) (count : Z) (h : History) :
  0 <= count <= int_max ->
  Z.of_nat (size (_unreadMentions h)) <= int_max ->
  exists h', setUnreadMentionsCount env count h = Done tt h'
    /\ _unreadMentionsCount h' =
       Some (Z.max count (Z.of_nat (size (_unreadMentions h))))
    /\ _unreadMentions h' = _unreadMentions h
    /\ (Z.of_nat (size (_unreadMentions h)) > count ->
        exists rest,
          effects h' =
          effects h
          ++ LOG "API Warning: real mentions count is greater than received mentions count"
          :: rest).
Proof.
  intros Hcount Hsize.
  destruct (setUnreadMentionsCount_run env count h) as (h' & E & Hstored & Hset & Hlog & _).
  rewrite (to_size_t_id count Hcount) in Hstored, Hlog.
  exists h'. repeat split; [exact E | | exact Hset | exact Hlog].
  rewrite Hstored. f_equal.
  destruct (Z.gtb_spec (Z.of_nat (size (_unreadMentions h))) count).
  - rewrite wrap32_id by (unfold in_int, int_min, int_max in *; lia). lia.
  - lia.
Qed.

(** C1, amended.  [addToUnreadMentions] never accepts an id in a broadcast
    channel.  Elsewhere, while the tracked set has not reached the known
    total (or the total is unknown) an id is accepted exactly when the set
    is non-empty and the type is [Existing]; once the set has reached the
    total an id is accepted exactly when its type is [New].  An accepted id
    joins the set, a rejected call changes nothing.  With an [Existing] id
    the total is kept; with a [New] id the total, when it is an [int] that
    is not negative and fewer than [int_max] ids are tracked with the new
    one, becomes the larger of the total plus one and the number of ids
    then tracked: the total plus one, when exactly as many ids as the total
    were tracked.  (Reached is [allLoaded], the unsigned comparison of the
    code.) *)
Theorem addToUnreadMentions_acceptance (env : Env) (msgId : MsgId)
    (type : UnreadMentionType) (h : History) :
  let accepted :=
    negb (isBroadcast h)
    && (if allLoaded h then bool_decide (type = New)
        else negb (bool_decide (_unreadMentions h = ∅)) && bool_decide (type = Existing)) in
  exists h', addToUnreadMentions env msgId type h = Done accepted h'
    /\ (accepted = false -> h' = h)
    /\ (accepted = true ->
        _unreadMentions h' = {[ msgId ]} ∪ _unreadMentions h
        /\ (allLoaded h = false -> _unreadMentionsCount h' = _unreadMentionsCount h)
        /\ (allLoaded h = true -> forall c, _unreadMentionsCount h = Some c ->
              0 <= c <= int_max ->
              Z.of_nat (size ({[ msgId ]} ∪ _unreadMentions h)) < int_max ->
              _unreadMentionsCount h' =
              Some (Z.max (c + 1) (Z.of_nat (size ({[ msgId ]} ∪ _unreadMentions h))))
              /\ (Z.of_nat (size (_unreadMentions h)) = c ->
                  _unreadMentionsCount h' = Some (c + 1)))).
Proof.
  unfold addToUnreadMentions, isBroadcast, allLoaded, mbind, Op_bind, get.
  destruct (peer_isChannel (peer h) && negb (peer_isMegagroup (peer h))); cbn [negb andb].
  { exists h. repeat split; intros; discriminate. }
  destruct (_unreadMentionsCount h) as [c|] eqn:Hc.
  - destruct (Z.of_nat (size (_unreadMentions h)) >=? to_size_t c) eqn:Hall.
    + destruct type; cbn [bool_decide decide_rel].
      * rewrite bool_decide_eq_true_2 by reflexivity.
        change (default 0 (Some c)) with c. cbn [modify].
        destruct (setUnreadMentionsCount_run env (int_add c 1)
                    (set_unreadMentions ({[msgId]} ∪ _unreadMentions h) h))
          as (h' & E & Hcount & Hset & _).
        rewrite E. exists h'. split; [reflexivity|].
        split; [intros; discriminate|]. intros _.
        split; [exact Hset|]. split; [intros; discriminate|].
        intros _ c' [= <-] Hrange Hsize.
        change (_unreadMentions (set_unreadMentions ({[msgId]} ∪ _unreadMentions h) h))
          with ({[msgId]} ∪ _unreadMentions h) in Hcount.
        rewrite (to_size_t_id c Hrange) in Hall. apply Z.geb_le in Hall.
        assert (size (_unreadMentions h) <= size ({[msgId]} ∪ _unreadMentions h))%nat
          as Hgrown by (apply subseteq_size, union_subseteq_r).
        assert (int_add c 1 = c + 1) as Hnext.
        { apply wrap32_id. unfold in_int, int_min, int_max in *. lia. }
        rewrite Hnext, to_size_t_id in Hcount by lia.
        assert (_unreadMentionsCount h' =
                Some (Z.max (c + 1) (Z.of_nat (size ({[msgId]} ∪ _unreadMentions h)))))
          as Hstored.
        { rewrite Hcount. f_equal.
          destruct (Z.gtb_spec (Z.of_nat (size ({[msgId]} ∪ _unreadMentions h))) (c + 1)).
          - rewrite wrap32_id by (unfold in_int, int_min, int_max in *; lia). lia.
          - lia. }
        split; [exact Hstored|].
        intros Hexact. rewrite Hstored. f_equal.
        assert (size ({[msgId]} ∪ _unreadMentions h) <= S (size (_unreadMentions h)))%nat.
        { rewrite size_union_alt, size_singleton.
          pose proof (subseteq_size (_unreadMentions h ∖ {[msgId]}) (_unreadMentions h)
                        (subseteq_difference_l _ _ _ (reflexivity _))). lia. }
        lia.
      * rewrite bool_decide_eq_false_2 by discriminate.
        exists h. repeat split; intros; discriminate.
    + destruct (bool_decide (_unreadMentions h = ∅)); cbn [negb andb].
      * exists h. repeat split; intros; discriminate.
      * destruct type.
        -- rewrite bool_decide_eq_true_2 by reflexivity.
           rewrite bool_decide_eq_false_2 by discriminate. cbn [negb].
           exists h. repeat split; intros; discriminate.
        -- rewrite bool_decide_eq_false_2 by discriminate.
           rewrite bool_decide_eq_true_2 by reflexivity. cbn [negb modify].
           eexists. split; [reflexivity|].
           split; [intros; discriminate|]. intros _.
           repeat split; [intros _; exact Hc | intros; discriminate | intros; discriminate].
  - destruct (bool_decide (_unreadMentions h = ∅)); cbn [negb andb].
    + exists h. repeat split; intros; discriminate.
    + destruct type.
      * rewrite bool_decide_eq_true_2 by reflexivity.
        rewrite bool_decide_eq_false_2 by discriminate. cbn [negb].
        exists h. repeat split; intros; discriminate.
      * rewrite bool_decide_eq_false_2 by discriminate.
        rewrite bool_decide_eq_true_2 by reflexivity. cbn [negb modify].
        eexists. split; [reflexivity|].
        split; [intros; discriminate|]. intros _.
        repeat split; [intros _; exact Hc | intros; discriminate | intros; discriminate].
Qed.


(** C1 as worded fails: with one id tracked out of five, a historical
    ([Existing]) mention is accepted and a live ([New]) one is not. *)
Lemma addToUnreadMentions_existing_below_total :
  ~ accepts_only_new_below_total sample_env one_of_five_mentions
  /\ result (addToUnreadMentions sample_env 2 Existing) one_of_five_mentions = Some true
  /\ result (addToUnreadMentions sample_env 2 New) one_of_five_mentions = Some false.
Proof.
  split; [|split; vm_compute; reflexivity].
  intros Hclaim.
  specialize (Hclaim 2 Existing 5).
  assert (Existing = New) as Habs; [|discriminate Habs].
  apply Hclaim; vm_compute; reflexivity.
Qed.

Lemma addToUnreadMentions_acceptance_witness :
  (exists h',
     addToUnreadMentions sample_env 2 Existing one_of_five_mentions = Done true h'
     /\ _unreadMentions h' = {[ 2 ]} ∪ _unreadMentions one_of_five_mentions
     /\ _unreadMentionsCount h' = Some 5)
  /\ (exists h',
        addToUnreadMentions sample_env 2 New five_of_five_mentions = Done true h'
        /\ _unreadMentions h' = {[ 2 ]} ∪ _unreadMentions five_of_five_mentions
        /\ _unreadMentionsCount h' = Some 6).
Proof.
  split.
  - destruct (addToUnreadMentions_acceptance sample_env 2 Existing one_of_five_mentions)
      as (h' & E & _ & Hacc).
    exists h'. split; [exact E|].
    destruct (Hacc eq_refl) as (Hset & Hcount & _).
    split; [exact Hset | exact (Hcount eq_refl)].
  - destruct (addToUnreadMentions_acceptance sample_env 2 New five_of_five_mentions)
      as (h' & E & _ & Hacc).
    exists h'. split; [exact E|].
    destruct (Hacc eq_refl) as (Hset & _ & Hcount).
    split; [exact Hset|].
    refine (proj2 (Hcount eq_refl 5 eq_refl _ _) _).
    + unfold int_max. lia.
    + vm_compute. reflexivity.
    + vm_compute. reflexivity.
Defined.




(** ** Drafts *)

Lemma Draft_promoted (cloud : Draft) (filled : Draft) :
  textWithTags filled = textWithTags cloud ->
  msgId filled = msgId cloud ->
  cursor filled = cursor cloud ->
  previewCancelled filled = previewCancelled cloud ->
  Draft_set_date (draft_date cloud) filled = cloud.
Proof.
  destruct cloud, filled; unfold Draft_set_date; simpl.
  intros -> -> -> ->. reflexivity.
Qed.

(** C8.  With a cloud draft present, [createLocalDraftFromCloud] leaves
    the local draft alone when the cloud draft is null-like or undated.
    Otherwise it overwrites the local draft exactly when there is no local
    draft, or the local draft is null-like or undated, or the cloud draft's
    timestamp is at least the local one's.  After the overwrite the local
    draft carries the cloud draft's text, reply target, cursor and preview
    flag, and its date is the cloud draft's date.  When the cloud draft is
    strictly older than a dated, non-null local draft, nothing changes. *)
Theorem createLocalDraftFromCloud_promotion (env : Env) (h : History) (cloud : Draft) :
  _cloudDraft h = Some cloud ->
  (draftIsNull env (Some cloud) = true \/ draft_date cloud = 0 ->
     createLocalDraftFromCloud env h = Done tt h)
  /\ (draftIsNull env (Some cloud) = false ->
      draft_date cloud <> 0 ->
      (_localDraft h = None ->
         createLocalDraftFromCloud env h = Done tt (set_localDraft (Some cloud) h))
      /\ (forall local, _localDraft h = Some local ->
            (draftIsNull env (Some local) = true
             \/ draft_date local = 0
             \/ draft_date local <= draft_date cloud ->
               exists promoted,
                 createLocalDraftFromCloud env h
                 = Done tt (set_localDraft (Some promoted) h)
                 /\ textWithTags promoted = textWithTags cloud
                 /\ cursor promoted = cursor cloud
                 /\ draft_date promoted = draft_date cloud
                 /\ promoted = cloud)
            /\ (draftIsNull env (Some local) = false ->
                draft_date local <> 0 ->
                draft_date cloud < draft_date local ->
                createLocalDraftFromCloud env h = Done tt h))).
Proof.
  intros Hcloud.
  unfold createLocalDraftFromCloud, mbind, Op_bind, gets, cloudDraft, localDraft.
  rewrite Hcloud. split.
  { intros [-> | Hzero]; [reflexivity|].
    apply Z.eqb_eq in Hzero. rewrite Hzero, orb_true_r. reflexivity. }
  intros Hnull Hdate.
  assert (Hd : (draft_date cloud =? 0) = false) by (apply Z.eqb_neq; exact Hdate).
  rewrite Hnull, Hd. cbn [orb].
  split.
  - intros ->. cbn [draftIsNull orb]. unfold setLocalDraft, modify.
    rewrite Draft_promoted by reflexivity. reflexivity.
  - intros local ->. split.
    + intros Hcond. exists cloud.
      assert (Hany : draftIsNull env (Some local) || (draft_date local =? 0)
                     || (draft_date cloud >=? draft_date local) = true).
      { destruct Hcond as [-> | [H0 | Hle]]; [reflexivity | |].
        - apply Z.eqb_eq in H0. rewrite H0. apply orb_true_iff. left.
          apply orb_true_r.
        - apply orb_true_iff. right. apply Z.geb_le. lia. }
      rewrite Hany. unfold setLocalDraft, modify.
      rewrite Draft_promoted by reflexivity. repeat split; reflexivity.
    + intros Hl Hld Hlt. rewrite Hl.
      apply Z.eqb_neq in Hld. rewrite Hld. cbn [orb].
      destruct (Z.geb_spec (draft_date cloud) (draft_date local)); [lia | reflexivity].
Qed.

Lemma createLocalDraftFromCloud_promotion_witness :
  createLocalDraftFromCloud sample_env
    (set_localDraft (Some local_draft_T1)
       (set_cloudDraft (Some cloud_draft_T2) (empty_window user_peer)))
  = Done tt (set_localDraft (Some cloud_draft_T2)
       (set_cloudDraft (Some cloud_draft_T2) (empty_window user_peer))).
Proof.
  destruct (createLocalDraftFromCloud_promotion sample_env
              (set_localDraft (Some local_draft_T1)
                 (set_cloudDraft (Some cloud_draft_T2) (empty_window user_peer)))
              cloud_draft_T2 eq_refl) as [_ Hdated].
  destruct (Hdated eq_refl ltac:(discriminate)) as [_ Hlocal].
  destruct (Hlocal local_draft_T1 eq_refl) as [Hpromote _].
  destruct Hpromote as (promoted & E & _ & _ & _ & ->).
  - right. right. simpl. lia.
  - exact E.
Defined.

(** ** Chat-list projection at the migration boundary *)

Lemma find_all_same (last : HistoryItem) (l : list HistoryItem) :
  (forall item, item ∈ l -> item = last) ->
  List.find (fun item => negb (same_item item last)) l = None.
Proof.
  induction l as [|x l IH]; intros Hall; [reflexivity|]. simpl.
  unfold same_item at 1. rewrite bool_decide_eq_true_2.
  - simpl. apply IH. intros item Hin. apply Hall. right. exact Hin.
  - apply Hall. left.
Qed.

(** C2.  In a legacy group whose newest item [last] is the migration
    event: when the window is not loaded at bottom, or when it holds no
    item other than [last] and is not loaded at top, the projection
    computed from the last message is unknown, and installing it leaves
    [chatListMessage] unknown rather than pointing at the migration event. *)
Theorem migration_boundary_projection_unknown (env : Env) (h : History)
    (chat : ChatData) (last : HistoryItem) :
  asChat (peer h) = Some chat ->
  _lastMessage h = Some (Some last) ->
  isGroupMigrate last = true ->
  loadedAtBottom h = false
  \/ ((forall item, item ∈ views h -> item = last) /\ loadedAtTop h = false) ->
  computeChatListMessageFromLast env h = None
  /\ exists h', setChatListMessageFromLast env h = Done tt h'
       /\ _chatListMessage h' = None
       /\ chatListMessageKnown h' = false
       /\ chatListMessage h' <> Some last.
Proof.
  intros Hchat Hlast Hmig Hcase.
  assert (Hcompute : computeChatListMessageFromLast env h = None).
  { unfold computeChatListMessageFromLast. rewrite Hlast, Hmig, Hchat. cbn [negb].
    destruct (loadedAtBottom h) eqn:Hbottom; [|reflexivity]. cbn [negb].
    destruct Hcase as [Hb | [Honly Htop]]; [discriminate|].
    rewrite find_all_same.
    - rewrite Htop. reflexivity.
    - intros item Hin. apply Honly.
      apply list_elem_of_In. apply in_rev. apply list_elem_of_In. exact Hin. }
  split; [exact Hcompute|].
  unfold setChatListMessageFromLast, mbind, Op_bind, get. rewrite Hcompute.
  eexists. split; [reflexivity|]. repeat split. discriminate.
Qed.

Lemma migration_boundary_projection_unknown_witness :
  computeChatListMessageFromLast sample_env migrated_group_window = None
  /\ exists h', setChatListMessageFromLast sample_env migrated_group_window = Done tt h'
       /\ _chatListMessage h' = None
       /\ chatListMessageKnown h' = false
       /\ chatListMessage h' <> Some (migrate_item 8 30).
Proof.
  apply (migration_boundary_projection_unknown sample_env migrated_group_window
           {| lastAuthors := []; chat_markupSenders := ∅; participants := ∅;
              getMigrateToChannel := None |} (migrate_item 8 30)).
  - reflexivity.
  - reflexivity.
  - reflexivity.
  - right. split; [|reflexivity].
    intros item Hin. apply list_elem_of_singleton in Hin. exact Hin.
Defined.

(** ** Frames: what the read and projection operations leave alone *)

Create HintDb frame discriminated.

Lemma keeps_stable_core h h' : keeps stable h h' -> keeps core h h'.
Proof. unfold keeps, stable. intros H. inversion H. congruence. Qed.

Lemma keeps_steady_core h h' : keeps steady h h' -> keeps core h h'.
Proof. unfold keeps, steady. intros H. inversion H. congruence. Qed.

Lemma keeps_steady_outside h h' : keeps steady h h' -> keeps outside_projection h h'.
Proof. unfold keeps, steady, outside_projection. intros H. inversion H. congruence. Qed.

Lemma keeps_outside_core h h' : keeps outside_projection h h' -> keeps core h h'.
Proof. unfold keeps, outside_projection. intros H. inversion H. congruence. Qed.

(** *** The read path *)

Lemma setInboxReadTill_stable upTo : runs (keeps stable) (setInboxReadTill upTo).
Proof. unfold setInboxReadTill. frame. Qed.

Lemma setOutboxReadTill_stable upTo : runs (keeps stable) (setOutboxReadTill upTo).
Proof. unfold setOutboxReadTill. frame. Qed.

Lemma calculateFirstUnreadMessage_stable env :
  runs (keeps stable) (calculateFirstUnreadMessage env).
Proof. unfold calculateFirstUnreadMessage. frame. Qed.

#[local] Hint Resolve setInboxReadTill_stable setOutboxReadTill_stable
  calculateFirstUnreadMessage_stable : frame.

Lemma setUnreadCount_stable env n : runs (keeps stable) (setUnreadCount env n).
Proof. unfold setUnreadCount. frame. Qed.

#[local] Hint Resolve setUnreadCount_stable : frame.

Lemma changeUnreadCount_stable env delta :
  runs (keeps stable) (changeUnreadCount env delta).
Proof. unfold changeUnreadCount. frame. Qed.

Lemma updateSendActionNeedsAnimating_stable env now force :
  runs (keeps stable) (updateSendActionNeedsAnimating env now force).
Proof. unfold updateSendActionNeedsAnimating. frame. Qed.

#[local] Hint Resolve changeUnreadCount_stable updateSendActionNeedsAnimating_stable : frame.

Lemma clearSendAction_stable env user : runs (keeps stable) (clearSendAction env user).
Proof. unfold clearSendAction. frame. Qed.

Lemma destroyUnreadBar_stable : runs (keeps stable) destroyUnreadBar.
Proof. unfold destroyUnreadBar. frame. Qed.

Lemma outboxRead_stable env upTo : runs (keeps stable) (outboxRead env upTo).
Proof. unfold outboxRead. frame. Qed.

Lemma inboxRead_stable env upTo : runs (keeps stable) (inboxRead env upTo).
Proof. unfold inboxRead. frame. Qed.

#[local] Hint Resolve clearSendAction_stable destroyUnreadBar_stable outboxRead_stable
  inboxRead_stable : frame.

Lemma outboxRead_item_stable env item : runs (keeps stable) (outboxRead_item env item).
Proof. unfold outboxRead_item. frame. Qed.

Lemma inboxRead_item_stable env item : runs (keeps stable) (inboxRead_item env item).
Proof. unfold inboxRead_item. frame. Qed.

#[local] Hint Resolve outboxRead_item_stable inboxRead_item_stable : frame.

Lemma newItemAdded_stable env item : runs (keeps stable) (newItemAdded env item).
Proof. unfold newItemAdded. frame. Qed.

Lemma newItemAdded_core env item : runs (keeps core) (newItemAdded env item).
Proof. eapply yields_weaken; [apply keeps_stable_core | apply newItemAdded_stable]. Qed.

Lemma setUnreadCount_core env n : runs (keeps core) (setUnreadCount env n).
Proof. eapply yields_weaken; [apply keeps_stable_core | apply setUnreadCount_stable]. Qed.

#[local] Hint Resolve newItemAdded_stable newItemAdded_core setUnreadCount_core : frame.

(** *** Deriving the chat-list projection *)

Lemma setChatListMessage_steady env item : runs (keeps steady) (setChatListMessage env item).
Proof. unfold setChatListMessage. frame. Qed.

Lemma setFakeChatListMessage_steady : runs (keeps steady) setFakeChatListMessage.
Proof. unfold setFakeChatListMessage. frame. Qed.

#[local] Hint Resolve setChatListMessage_steady setFakeChatListMessage_steady : frame.

Lemma setChatListMessageFromLast_steady env :
  runs (keeps steady) (setChatListMessageFromLast env).
Proof. unfold setChatListMessageFromLast. frame. Qed.

#[local] Hint Resolve setChatListMessageFromLast_steady : frame.

Lemma requestChatListMessage_steady env :
  runs (keeps steady) (requestChatListMessage env).
Proof. unfold requestChatListMessage. frame. Qed.

Lemma requestChatListMessage_outside env :
  runs (keeps outside_projection) (requestChatListMessage env).
Proof.
  eapply yields_weaken; [apply keeps_steady_outside | apply requestChatListMessage_steady].
Qed.

#[local] Hint Resolve requestChatListMessage_steady requestChatListMessage_outside : frame.

Lemma setLastMessage_outside env item :
  runs (keeps outside_projection) (setLastMessage env item).
Proof. unfold setLastMessage. frame. Qed.

Lemma setLastMessage_core env item : runs (keeps core) (setLastMessage env item).
Proof. eapply yields_weaken; [apply keeps_outside_core | apply setLastMessage_outside]. Qed.

#[local] Hint Resolve setLastMessage_outside setLastMessage_core : frame.

(** ** The unread counter *)

Lemma setUnreadCount_count (env : Env) (n : Z) (h : History) :
  exists h', setUnreadCount env n h = Done tt h' /\ _unreadCount h' = Some n.
Proof.
  unfold setUnreadCount. unfold mbind at 1, Op_bind at 1, get at 1. cbv beta iota.
  destruct (bool_decide (_unreadCount h = Some n)) eqn:Hsame.
  - apply bool_decide_eq_true in Hsame. exists h. split; [reflexivity | exact Hsame].
  - match goal with
    | |- exists h', ?m h = _ /\ _ =>
      assert (Hr : runs (fun _ h' => _unreadCount h' = Some n) m)
    end.
    { eapply yields_seq with (R1 := anything) (R2 := fun _ h' => _unreadCount h' = Some n)
                             (Q1 := any_result).
      - eapply yields_weaken with (R := keeps stable); [intros; exact I|]. frame.
      - intros _ _.
        eapply yields_seq with (R1 := fun _ h' => _unreadCount h' = Some n)
                               (R2 := keeps _unreadCount) (Q1 := any_result).
        + apply runs_modify. reflexivity.
        + intros _ _. frame.
        + unfold keeps. congruence.
      - auto. }
    destruct (runs_unit _ _ h Hr) as (h' & E & Hc). eauto.
Qed.

Lemma changeUnreadCount_count (env : Env) (delta c : Z) (h : History) :
  _unreadCount h = Some c ->
  exists h', changeUnreadCount env delta h = Done tt h'
    /\ _unreadCount h' = Some (Z.max (int_add c delta) 0).
Proof.
  intros Hc. unfold changeUnreadCount.
  unfold mbind at 1, Op_bind at 1, get at 1. cbv beta iota. rewrite Hc.
  unfold mbind at 1, Op_bind at 1.
  destruct (setUnreadCount_count env (Z.max (int_add c delta) 0) h) as (h1 & -> & H1).
  match goal with
  | |- exists h', ?m h1 = _ /\ _ => assert (Hr : runs (keeps _unreadCount) m)
  end.
  { frame. }
  destruct (runs_unit _ _ h1 Hr) as (h' & E & K). exists h'. split; [exact E|].
  rewrite K. exact H1.
Qed.

Lemma changeUnreadCount_unknown (env : Env) (delta : Z) (h : History) :
  _unreadCount h = None ->
  exists h', changeUnreadCount env delta h = Done tt h' /\ _unreadCount h' = None.
Proof.
  intros Hc. unfold changeUnreadCount.
  unfold mbind at 1, Op_bind at 1, get at 1. cbv beta iota. rewrite Hc.
  unfold mbind at 1, Op_bind at 1. unfold skip at 1, mret at 1, Op_ret at 1.
  match goal with
  | |- exists h', ?m h = _ /\ _ => assert (Hr : runs (keeps _unreadCount) m)
  end.
  { frame. }
  destruct (runs_unit _ _ h Hr) as (h' & E & K). exists h'. split; [exact E|].
  rewrite K. exact Hc.
Qed.

Lemma changeUnreadCount_many (env : Env) (deltas : list Z) (c : Z) (h : History) :
  _unreadCount h = Some c -> 0 <= c ->
  exists h' n, for_each deltas (changeUnreadCount env) h = Done tt h'
    /\ _unreadCount h' = Some n /\ 0 <= n.
Proof.
  revert c h. induction deltas as [|delta rest IH]; intros c h Hc Hpos; simpl.
  - exists h, c. repeat split; [exact Hc | exact Hpos].
  - destruct (changeUnreadCount_count env delta c h Hc) as (h1 & E1 & H1).
    destruct (IH _ h1 H1 ltac:(lia)) as (h' & n & E & Hn & Hpos').
    exists h', n. repeat split; [|exact Hn | exact Hpos'].
    unfold mbind, Op_bind. rewrite E1. exact E.
Qed.

(** C5.  On a known count [c >= 0], [changeUnreadCount d] leaves the count
    [max (c + d) 0], the sum being taken in [int] arithmetic (it is the
    mathematical sum whenever that fits an [int]); the result is never
    negative, and no sequence of deltas, in whatever order, can make the
    count negative. *)
Theorem changeUnreadCount_never_negative (env : Env) (c d : Z) (h : History) :
  _unreadCount h = Some c ->
  0 <= c ->
  (exists h', changeUnreadCount env d h = Done tt h'
     /\ _unreadCount h' = Some (Z.max (int_add c d) 0)
     /\ (in_int (c + d) -> _unreadCount h' = Some (Z.max (c + d) 0))
     /\ (c = 2 -> d = -5 -> _unreadCount h' = Some 0))
  /\ (forall deltas, exists h' n,
        for_each deltas (changeUnreadCount env) h = Done tt h'
        /\ _unreadCount h' = Some n /\ 0 <= n).
Proof.
  intros Hc Hpos. split.
  - destruct (changeUnreadCount_count env d c h Hc) as (h' & E & H').
    exists h'. repeat split; [exact E | exact H' | |].
    + intros Hin. rewrite H'. unfold int_add. rewrite wrap32_id by exact Hin. reflexivity.
    + intros -> ->. rewrite H'. reflexivity.
  - intros deltas. exact (changeUnreadCount_many env deltas c h Hc Hpos).
Qed.

Lemma changeUnreadCount_never_negative_witness :
  exists h', changeUnreadCount sample_env (-5)
               (set_unreadCount (Some 2) (empty_window user_peer)) = Done tt h'
    /\ _unreadCount h' = Some 0.
Proof.
  destruct (changeUnreadCount_never_negative sample_env 2 (-5)
              (set_unreadCount (Some 2) (empty_window user_peer)))
    as [(h' & E & _ & _ & Hzero) _].
  - reflexivity.
  - lia.
  - exists h'. split; [exact E | exact (Hzero eq_refl eq_refl)].
Defined.

(** ** Appending under the front-block guard *)

Lemma keeps_core_layout h h' : keeps core h h' -> keeps layout h h'.
Proof. unfold keeps, core, layout. intros H. inversion H. congruence. Qed.

Lemma keeps_layout_edges h h' : keeps layout h h' -> keeps edges h h'.
Proof. unfold keeps, edges, layout. intros H. inversion H. congruence. Qed.

Lemma update_chat_layout f : runs (keeps layout) (update_chat f).
Proof.
  apply runs_modify. intros h. unfold keeps, layout.
  destruct (peer_kind (peer h)); reflexivity.
Qed.

Lemma update_mgInfo_layout f : runs (keeps layout) (update_mgInfo f).
Proof.
  apply runs_modify. intros h. unfold keeps, layout.
  destruct (peer_kind (peer h)); reflexivity.
Qed.

#[local] Hint Resolve update_chat_layout update_mgInfo_layout : frame.

Lemma clearLastKeyboard_layout env : runs (keeps layout) (clearLastKeyboard env).
Proof. unfold clearLastKeyboard. frame. Qed.

Lemma mgInfo_addBot_layout user : runs (keeps layout) (mgInfo_addBot user).
Proof. unfold mgInfo_addBot. frame. Qed.

#[local] Hint Resolve clearLastKeyboard_layout mgInfo_addBot_layout : frame.

Lemma addNewItem_authors_layout user : runs (keeps layout) (addNewItem_authors user).
Proof. unfold addNewItem_authors. frame. Qed.

Lemma addNewItem_keyboard_layout env item :
  runs (keeps layout) (addNewItem_keyboard env item).
Proof. unfold addNewItem_keyboard. frame. Qed.

Lemma setLastMessage_layout env item : runs (keeps layout) (setLastMessage env item).
Proof. eapply yields_weaken; [apply keeps_core_layout | apply setLastMessage_core]. Qed.

Lemma newItemAdded_layout env item : runs (keeps layout) (newItemAdded env item).
Proof. eapply yields_weaken; [apply keeps_core_layout | apply newItemAdded_core]. Qed.

#[local] Hint Resolve addNewItem_authors_layout addNewItem_keyboard_layout
  setLastMessage_layout newItemAdded_layout : frame.

Lemma addItemToBlock_run (item : HistoryItem) (h : History) :
  _buildingFrontBlock h = None ->
  mainView item h = false ->
  addItemToBlock item h = Done tt (set_blocks (appended item (blocks h)) h).
Proof.
  intros Hb Hview.
  unfold addItemToBlock, prepareBlockForAddingItem, appended, mbind, Op_bind, get, Expects.
  rewrite Hview. cbn [negb]. unfold skip, mret, Op_ret, when, modify. cbv beta iota.
  rewrite Hb.
  destruct (match last (blocks h) with
            | Some back => Z.of_nat (length (messages back)) >=? kNewBlockEachMessage
            | None => true
            end); cbn; rewrite Hb; reflexivity.
Qed.

Lemma views_alter_last (f : HistoryBlock -> HistoryBlock) (init : list HistoryBlock)
    (b : HistoryBlock) :
  concat (messages <$> alter f (length (init ++ [b]) - 1)%nat (init ++ [b]))
  = concat (messages <$> init) ++ messages (f b).
Proof.
  rewrite length_app. simpl length.
  replace (length init + 1 - 1)%nat with (length init + 0)%nat by lia.
  rewrite alter_app_r. simpl.
  rewrite fmap_app, concat_app. simpl. rewrite app_nil_r. reflexivity.
Qed.

Lemma views_appended (item : HistoryItem) (bs : list HistoryBlock) :
  concat (messages <$> appended item bs) = concat (messages <$> bs) ++ [item].
Proof.
  unfold appended.
  destruct (last bs) as [back|] eqn:Hlast.
  - apply last_Some in Hlast as [init ->].
    destruct (Z.of_nat (length (messages back)) >=? kNewBlockEachMessage).
    + rewrite views_alter_last. simpl.
      rewrite !fmap_app, !concat_app. simpl. rewrite !app_nil_r. reflexivity.
    + rewrite views_alter_last. simpl.
      rewrite !fmap_app, !concat_app. simpl. rewrite !app_nil_r, app_assoc. reflexivity.
  - apply last_None in Hlast as ->. reflexivity.
Qed.

Lemma addNewItem_run (env : Env) (item : HistoryItem) (unread : bool) (h : History) :
  _buildingFrontBlock h = None ->
  mainView item h = false ->
  exists h', addNewItem env item unread h = Done item h'
    /\ layout h' = layout (set_blocks (appended item (blocks h)) h).
Proof.
  intros Hb Hview. unfold addNewItem.
  unfold mbind at 1, Op_bind at 1, get at 1. cbv beta iota.
  unfold isBuildingFrontBlock. rewrite Hb.
  rewrite bool_decide_eq_false_2 by (intros [? [=]]). cbn [negb].
  unfold mbind at 1, Op_bind at 1.
  change (Expects _ _ true h) with (Done tt h). cbv beta iota.
  unfold mbind at 1, Op_bind at 1. rewrite (addItemToBlock_run item h Hb Hview).
  match goal with
  | |- exists h', ?m ?h1 = _ /\ _ =>
    assert (Hr : yields (keeps layout) (fun a => a = item) m) by frame;
    destruct (Hr h1) as (a & h' & E & K & ->)
  end.
  exists h'. split; [exact E | exact K].
Qed.

(** C9.  A single optional builder records the front-block build in
    progress.  While one is in progress, starting another and appending a
    new item both abort on their contract check.  With no build in
    progress the check of [startBuildingFrontBlock] passes for a positive
    count and the build is started (so that a second start aborts), and
    [addNewItem] of an item that is not yet displayed passes its check and
    appends the item. *)
Theorem front_block_build_exclusive (env : Env) (h : History) :
  (isBuildingFrontBlock h = true ->
     (forall n, startBuildingFrontBlock n h = Aborted violation_startBuilding)
     /\ (forall item unread, addNewItem env item unread h = Aborted violation_addNewItem))
  /\ (isBuildingFrontBlock h = false ->
     (forall n, 0 < n ->
        exists h', startBuildingFrontBlock n h = Done tt h'
          /\ _buildingFrontBlock h' = Some {| expectedItemsCount := n; block := None |}
          /\ forall m, startBuildingFrontBlock m h' = Aborted violation_startBuilding)
     /\ (forall item unread, mainView item h = false ->
        exists h', addNewItem env item unread h = Done item h'
          /\ isBuildingFrontBlock h' = false
          /\ views h' = views h ++ [item])).
Proof.
  split.
  - intros Hb. split.
    + intros n. unfold startBuildingFrontBlock, mbind, Op_bind, get, Expects.
      rewrite Hb. reflexivity.
    + intros item unread. unfold addNewItem, mbind, Op_bind, get, Expects.
      rewrite Hb. reflexivity.
  - intros Hb. split.
    + intros n Hn. unfold startBuildingFrontBlock, mbind, Op_bind, get, Expects.
      rewrite Hb. cbn [negb skip mret Op_ret].
      apply Z.ltb_lt in Hn. rewrite Hn. cbn [modify].
      eexists. split; [reflexivity|]. split; [reflexivity|].
      intros m. reflexivity.
    + intros item unread Hview.
      assert (Hnone : _buildingFrontBlock h = None).
      { unfold isBuildingFrontBlock in Hb. apply bool_decide_eq_false in Hb.
        destruct (_buildingFrontBlock h); [|reflexivity]. exfalso. apply Hb. eauto. }
      destruct (addNewItem_run env item unread h Hnone Hview) as (h' & E & K).
      exists h'. split; [exact E|].
      unfold layout in K. inversion K as [[Hblocks Htop Hbottom Hbuilding]].
      split.
      * unfold isBuildingFrontBlock. rewrite Hbuilding. simpl. rewrite Hnone.
        apply bool_decide_eq_false_2. intros [? [=]].
      * unfold views. rewrite Hblocks. simpl. apply views_appended.
Qed.

(** ** Ingestion away from the bottom edge *)

Lemma set_items_effects_same (h : History) :
  set_effects (effects h) (set_items (items h) h) = h.
Proof. destruct h; reflexivity. Qed.

Lemma addToHistory_run (env : Env) (msg : MTPMessage) (h : History) :
  IdFromMessage msg <> 0 ->
  exists item fx,
    addToHistory env msg h
    = Done (Some item)
        (set_effects fx (set_items (<[IdFromMessage msg := item]> (items h)) h))
    /\ (items h !! IdFromMessage msg = None -> item = mtp_item msg)
    /\ (forall existing, items h !! IdFromMessage msg = Some existing -> item = existing).
Proof.
  intros Hid. unfold addToHistory, createItem.
  apply Z.eqb_neq in Hid. rewrite Hid.
  unfold mbind at 1, Op_bind at 1, get at 1. cbv beta iota.
  destruct (items h !! IdFromMessage msg) as [existing|] eqn:Hreg.
  - exists existing.
    destruct (match mtp_type msg with mtpc_message => true | _ => false end).
    + exists (effects h ++ [item_updateSentMedia (id existing)]).
      split; [|split; [discriminate | intros ? [= <-]; reflexivity]].
      rewrite (insert_id _ _ _ Hreg). clear Hreg. destruct h; reflexivity.
    + exists (effects h).
      split; [|split; [discriminate | intros ? [= <-]; reflexivity]].
      rewrite (insert_id _ _ _ Hreg). clear Hreg. destruct h; reflexivity.
  - exists (mtp_item msg), (effects h). split; [|split; [reflexivity | discriminate]].
    cbn. unfold IdFromMessage. destruct h; reflexivity.
Qed.

(** Closes [_lastMessage h' = v] when [E] runs, from a state where the
    pointer is [v], an operation that leaves the pointer alone. *)
Ltac lastMessage_kept E :=
  unfold mbind at 1, Op_bind at 1 in E; cbn [modify] in E;
  lazymatch type of E with
  | ?m ?h1 = Done tt _ =>
    let Hr := fresh "Hr" in
    assert (Hr : runs (keeps _lastMessage) m)
      by (eapply yields_weaken with (R := keeps steady);
          [unfold keeps, steady; intros ? ? H; inversion H; congruence | frame]);
    let h2 := fresh "h" in
    let E2 := fresh "E" in
    let K2 := fresh "K" in
    destruct (runs_unit _ _ h1 Hr) as (h2 & E2 & K2);
    rewrite E2 in E; injection E as <-; rewrite K2; reflexivity
  end.

Lemma setLastMessage_last (env : Env) (item : HistoryItem) (h : History) :
  exists h', setLastMessage env (Some item) h = Done tt h'
    /\ outside_projection h' = outside_projection h
    /\ _lastMessage h' =
       (if later_local_last env item h then _lastMessage h else Some (Some item))
    /\ (later_local_last env item h = true -> h' = h).
Proof.
  destruct (runs_unit _ _ h (setLastMessage_outside env (Some item))) as (h' & E & K).
  exists h'. split; [exact E|]. split; [exact K|].
  revert E. unfold setLastMessage, later_local_last.
  unfold mbind at 1, Op_bind at 1, get at 1. cbv beta iota.
  destruct (_lastMessage h) as [current|] eqn:Hlast.
  - destruct (same_ptr current (Some item)) eqn:Hsame.
    + cbn [orb]. intros [= <-].
      apply bool_decide_eq_true in Hsame. subst current.
      rewrite Z.gtb_ltb, Z.ltb_irrefl, andb_false_r.
      split; [exact Hlast | discriminate].
    + cbn [orb]. destruct current as [c|].
      * destruct (negb (IsServerMsgId env (id c)) && (date c >? date item)) eqn:Hguard.
        -- intros [= <-]. split; [exact Hlast | reflexivity].
        -- intros E. split; [lastMessage_kept E | discriminate].
      * intros E. split; [lastMessage_kept E | discriminate].
  - intros E. split; [lastMessage_kept E | discriminate].
Qed.

Lemma core_fields (h h' : History) :
  core h' = core h ->
  blocks h' = blocks h /\ edges h' = edges h /\ items h' = items h
  /\ anchored h' = anchored h.
Proof.
  unfold core, edges, anchored. intros H. inversion H. repeat split; congruence.
Qed.




(** ** An empty older page *)

Lemma scanBlock_place migrated inviteDate newestFirst blockIndex b i :
  insertJoinedMessage_scanBlock migrated inviteDate newestFirst blockIndex
  = Some (InTheMiddle b i) ->
  b = blockIndex /\ (i <= length newestFirst)%nat.
Proof.
  induction newestFirst as [|item older IH]; simpl; [discriminate|].
  destruct ((id item =? 1) && migrated); [discriminate|].
  destruct (date item <=? inviteDate).
  - intros [= <- <-]. split; [reflexivity | lia].
  - intros H. destruct (IH H) as [-> Hle]. split; [reflexivity | lia].
Qed.

Lemma scan_place migrated inviteDate (newestFirst : list HistoryBlock) b i :
  insertJoinedMessage_scan migrated inviteDate newestFirst = InTheMiddle b i ->
  exists blk, rev newestFirst !! b = Some blk /\ (i <= length (messages blk))%nat.
Proof.
  induction newestFirst as [|blk older IH]; simpl; [discriminate|].
  destruct (insertJoinedMessage_scanBlock migrated inviteDate (rev (messages blk))
              (length older)) as [place|] eqn:Hblock.
  - intros ->. apply scanBlock_place in Hblock as [-> Hle].
    exists blk. split.
    + rewrite lookup_app_r by (rewrite length_rev; lia).
      rewrite length_rev, Nat.sub_diag. reflexivity.
    + rewrite length_rev in Hle. exact Hle.
  - intros H. destruct (IH H) as (blk' & Hlook & Hle).
    exists blk'. split; [|exact Hle].
    apply lookup_app_l_Some. exact Hlook.
Qed.

Lemma views_inserted item (bs : list HistoryBlock) b i blk :
  bs !! b = Some blk -> (i <= length (messages blk))%nat ->
  exists pre post,
    concat (messages <$> bs) = pre ++ post
    /\ concat (messages <$> inserted item b i bs) = pre ++ item :: post.
Proof.
  revert b. induction bs as [|a bs IH]; intros b Hlook Hle; [discriminate|].
  destruct b as [|b]; simpl in Hlook.
  - injection Hlook as ->.
    exists (take i (messages blk)), (drop i (messages blk) ++ concat (messages <$> bs)).
    split.
    + rewrite fmap_cons. cbn [concat]. rewrite app_assoc, take_drop. reflexivity.
    + unfold inserted.
      change (alter ?f 0%nat (blk :: bs)) with (f blk :: bs).
      rewrite fmap_cons. cbn [concat messages]. rewrite <- app_assoc. reflexivity.
  - destruct (IH b Hlook Hle) as (pre & post & Hv & Hv').
    exists (messages a ++ pre), post. split.
    + rewrite fmap_cons. cbn [concat]. rewrite Hv, app_assoc. reflexivity.
    + unfold inserted in *.
      change (alter ?f (S b) (a :: bs)) with (a :: alter f b bs).
      rewrite fmap_cons. cbn [concat]. rewrite Hv', app_assoc. reflexivity.
Qed.

Lemma addNewInTheMiddle_run item b i h blk :
  blocks h !! b = Some blk -> (i <= length (messages blk))%nat ->
  exists h', addNewInTheMiddle item b i h = Done item h'
    /\ layout h' = layout (set_blocks (inserted item b i (blocks h)) h).
Proof.
  intros Hlook Hle. unfold addNewInTheMiddle.
  unfold mbind at 1, Op_bind at 1, get at 1. cbv beta iota.
  rewrite Hlook.
  assert (Hb : (b <? length (blocks h))%nat = true).
  { apply Nat.ltb_lt. eapply lookup_lt_Some. exact Hlook. }
  rewrite Hb. apply Nat.leb_le in Hle. rewrite Hle.
  unfold mbind at 1, Op_bind at 1.
  change (Expects _ _ true h) with (Done tt h). cbv beta iota.
  unfold mbind at 1, Op_bind at 1.
  change (Expects _ _ true h) with (Done tt h). cbv beta iota.
  unfold mbind at 1, Op_bind at 1. cbn [modify].
  fold (inserted item b i (blocks h)).
  match goal with
  | |- exists h', ?m ?h1 = _ /\ _ =>
    assert (Hr : yields (keeps layout) (fun a => a = item) m) by frame;
    destruct (Hr h1) as (a & h' & E & K & ->)
  end.
  exists h'. split; [exact E | exact K].
Qed.

Lemma mainView_same_blocks item (h h' : History) :
  blocks h' = blocks h -> mainView item h' = mainView item h.
Proof. unfold mainView, views. intros ->. reflexivity. Qed.

Lemma startBuildingFrontBlock_run (n : Z) (h : History) :
  _buildingFrontBlock h = None -> 0 < n ->
  startBuildingFrontBlock n h
  = Done tt (set_buildingFrontBlock (Some {| expectedItemsCount := n; block := None |}) h).
Proof.
  intros Hb Hn. unfold startBuildingFrontBlock, mbind, Op_bind, get, Expects,
    isBuildingFrontBlock.
  rewrite Hb. apply Z.ltb_lt in Hn. rewrite Hn. reflexivity.
Qed.

Lemma addItemToBlock_front_run (item : HistoryItem) (n : Z) (h : History) :
  _buildingFrontBlock h = Some {| expectedItemsCount := n; block := None |} ->
  mainView item h = false ->
  exists left,
    addItemToBlock item h
    = Done tt (set_buildingFrontBlock
                 (Some {| expectedItemsCount := left; block := Some 0%nat |})
                 (set_blocks ({| messages := [item] |} :: blocks h) h)).
Proof.
  intros Hb Hview.
  unfold addItemToBlock, prepareBlockForAddingItem, mbind, Op_bind, get, Expects.
  rewrite Hview. cbn [negb]. unfold skip, mret, Op_ret, when, modify. cbv beta iota.
  rewrite Hb. cbn.
  destruct (0 <? n); eexists; reflexivity.
Qed.

Lemma finishBuildingFrontBlock_run (b : BuildingBlock) (h : History) :
  _buildingFrontBlock h = Some b ->
  exists fx, finishBuildingFrontBlock h
             = Done tt (set_effects fx (set_buildingFrontBlock None h)).
Proof.
  intros Hb. unfold finishBuildingFrontBlock, isBuildingFrontBlock.
  unfold mbind at 1, Op_bind at 1, get at 1. cbv beta iota. rewrite Hb.
  rewrite bool_decide_eq_true_2 by eauto.
  unfold mbind at 1, Op_bind at 1.
  change (Expects _ _ true h) with (Done tt h). cbv beta iota.
  unfold mbind at 1, Op_bind at 1. cbn [modify].
  cbn [mbind option_bind].
  destruct (block b);
    [destruct (1 <? length (blocks h))%nat;
       match goal with
       | |- context [match ?x with Some _ => _ | None => _ end] => destruct x
       end|];
    eexists; reflexivity.
Qed.

(** The front-block path of [insertJoinedMessage]. *)
Lemma insertJoinedMessage_front_run (env : Env) (d : TimeId) (who : PeerRef) (h : History) :
  let joined := GenerateJoinedMessage env d who in
  _buildingFrontBlock h = None ->
  mainView joined h = false ->
  exists h',
    (startBuildingFrontBlock 1;;
     joined ← generateJoinedMessage env d who;
     addItemToBlock joined;;
     finishBuildingFrontBlock;;
     mret (Some joined)) h = Done (Some joined) h'
    /\ edges h' = edges h
    /\ blocks h' = {| messages := [joined] |} :: blocks h.
Proof.
  intros joined Hb Hview.
  unfold mbind at 1, Op_bind at 1.
  rewrite (startBuildingFrontBlock_run 1 h Hb) by lia. cbv beta iota.
  unfold mbind at 1, Op_bind at 1.
  unfold generateJoinedMessage at 1. fold joined.
  unfold mbind at 1 2, Op_bind at 1 2. cbn [modify mret Op_ret].
  unfold mbind at 1, Op_bind at 1.
  match goal with
  | |- context [addItemToBlock joined ?h2] =>
    destruct (addItemToBlock_front_run joined 1 h2 eq_refl) as (left & ->);
      [rewrite <- Hview; apply mainView_same_blocks; reflexivity|]
  end.
  cbv beta iota. unfold mbind at 1, Op_bind at 1.
  match goal with
  | |- context [finishBuildingFrontBlock ?h3] =>
    destruct (finishBuildingFrontBlock_run _ h3 eq_refl) as (fx & ->)
  end.
  cbv beta iota. eexists. split; [reflexivity|].
  split; [|reflexivity].
  unfold edges. cbn. rewrite Hb. reflexivity.
Qed.

Lemma layout_blocks (h h' : History) : layout h' = layout h -> blocks h' = blocks h.
Proof. intros K. exact (f_equal (fun t => t.1.1.1) K). Qed.

Lemma joined_into_refl (h : History) : joined_into h h.
Proof. split; [reflexivity | left; reflexivity]. Qed.

Lemma joined_into_layout (h h' : History) : layout h' = layout h -> joined_into h h'.
Proof.
  intros K. split; [apply keeps_layout_edges; exact K|].
  left. exact (f_equal (fun t => t.1.1.1) K).
Qed.

Lemma joined_into_then_layout (h h1 h' : History) :
  joined_into h h1 -> layout h' = layout h1 -> joined_into h h'.
Proof.
  intros [He Hv] K.
  pose proof (keeps_layout_edges _ _ K) as Ke. unfold keeps in Ke.
  pose proof (f_equal (fun t => t.1.1.1) K) as Kb. cbn in Kb.
  split; [congruence|].
  destruct Hv as [Hb | (pre & post & joined & Hv & Hv')].
  - left. congruence.
  - right. exists pre, post, joined. split; [exact Hv|].
    unfold views. rewrite Kb. exact Hv'.
Qed.

Lemma layout_then_joined_into (h h1 h' : History) :
  layout h1 = layout h -> joined_into h1 h' -> joined_into h h'.
Proof.
  intros K [He Hv].
  pose proof (keeps_layout_edges _ _ K) as Ke. unfold keeps in Ke.
  pose proof (f_equal (fun t => t.1.1.1) K) as Kb. cbn in Kb.
  split; [congruence|].
  destruct Hv as [Hb | (pre & post & joined & Hv & Hv')].
  - left. congruence.
  - right. exists pre, post, joined. split; [|exact Hv'].
    unfold views in *. rewrite <- Kb. exact Hv.
Qed.

Lemma insertJoinedMessage_joined (env : Env) (unread : bool) (h : History) :
  _buildingFrontBlock h = None ->
  joined_message_fresh env h ->
  exists r h', insertJoinedMessage env unread h = Done r h' /\ joined_into h h'.
Proof.
  intros Hb Hfresh. unfold insertJoinedMessage.
  unfold mbind at 1, Op_bind at 1, get at 1. cbv beta iota.
  destruct (asChannel (peer h)) as [channel|];
    [|eexists _, h; split; [reflexivity | apply joined_into_refl]].
  match goal with
  | |- context [if ?c then mret (_joinedMessage h) else _] => destruct c
  end; [eexists _, h; split; [reflexivity | apply joined_into_refl]|].
  destruct (if 0 <? inviter channel then userLoaded env (inviter channel) else None)
    as [who|]; [|eexists _, h; split; [reflexivity | apply joined_into_refl]].
  set (joined := GenerateJoinedMessage env (inviteDate channel) who).
  set (h2 := set_joinedMessage (Some joined)
               (set_items (<[id joined := joined]> (items h)) h)).
  assert (Hgen : generateJoinedMessage env (inviteDate channel) who h = Done joined h2)
    by reflexivity.
  assert (Hview2 : mainView joined h2 = false) by apply Hfresh.
  destruct (isEmpty h) eqn:Hempty.
  - unfold mbind at 1, Op_bind at 1. rewrite Hgen. cbv beta iota.
    unfold mbind at 1, Op_bind at 1.
    destruct (addNewItem_run env joined
                (if ref_id who =? userPeerId env then false else unread) h2 Hb Hview2)
      as (h3 & -> & K3).
    eexists _, h3. split; [reflexivity|].
    split.
    + apply keeps_layout_edges in K3. exact K3.
    + right. exists (views h), [], joined. split; [rewrite app_nil_r; reflexivity|].
      unfold views. rewrite (layout_blocks _ _ K3). cbn [blocks set_blocks].
      apply views_appended.
  - destruct (insertJoinedMessage_scan
                (peer_isMegagroup (peer h) && bool_decide (is_Some (migrateFrom (peer h))))
                (inviteDate channel) (rev (blocks h))) as [|b i|] eqn:Hscan.
    + assert (Hr : yields (keeps layout) any_result
                (update_mgInfo (MegagroupInfo_set_joinedMessageFound true)
                 ≫= fun _ => mret (None : option HistoryItem))) by frame.
      destruct (Hr h) as (r & h' & E & K & _).
      exists r, h'. split; [exact E | apply joined_into_layout; exact K].
    + apply scan_place in Hscan as (blk & Hlook & Hle).
      rewrite rev_involutive in Hlook.
      unfold mbind at 1, Op_bind at 1. rewrite Hgen. cbv beta iota.
      unfold mbind at 1, Op_bind at 1.
      destruct (addNewInTheMiddle_run joined b i h2 blk Hlook Hle) as (h3 & -> & K3).
      cbv beta iota.
      match goal with
      | |- exists r h', ?m h3 = _ /\ _ =>
        assert (Hr : yields (keeps layout) any_result m) by frame;
        destruct (Hr h3) as (r & h' & E & K & _)
      end.
      exists r, h'. split; [exact E|].
      eapply joined_into_then_layout; [|exact K].
      split.
      * apply keeps_layout_edges in K3. exact K3.
      * right. destruct (views_inserted joined (blocks h) b i blk Hlook Hle)
          as (pre & post & Hv & Hv').
        exists pre, post, joined. split; [exact Hv|].
        unfold views. rewrite (layout_blocks _ _ K3). exact Hv'.
    + destruct (insertJoinedMessage_front_run env (inviteDate channel) who h Hb
                  (Hfresh _ _)) as (h' & E & Ke & Kb).
      eexists _, h'. split; [exact E|].
      split; [exact Ke|].
      right. exists [], (views h), joined. split; [reflexivity|].
      unfold views. rewrite Kb. reflexivity.
Qed.

Lemma checkJoinedMessage_setLast_layout env :
  runs (keeps layout) (checkJoinedMessage_setLast env).
Proof. unfold checkJoinedMessage_setLast. frame. Qed.

Lemma checkJoinedMessage_insert (env : Env) (unread condition : bool) (h : History) :
  _buildingFrontBlock h = None ->
  joined_message_fresh env h ->
  exists h',
    (inserted ← insertJoinedMessage env unread;
     when (bool_decide (is_Some inserted) && condition) (checkJoinedMessage_setLast env)) h
    = Done tt h'
    /\ joined_into h h'.
Proof.
  intros Hb Hfresh.
  destruct (insertJoinedMessage_joined env unread h Hb Hfresh) as (r & h1 & E & J).
  unfold mbind, Op_bind. rewrite E.
  destruct (runs_unit _ _ h1
              (runs_when _ (bool_decide (is_Some r) && condition) _
                 (keeps_refl layout) (checkJoinedMessage_setLast_layout env)))
    as (h' & E' & K).
  exists h'. split; [exact E'|]. eapply joined_into_then_layout; [exact J | exact K].
Qed.

Lemma checkJoinedMessage_joined (env : Env) (createUnread : bool) (h : History) :
  _buildingFrontBlock h = None ->
  joined_message_fresh env h ->
  exists h', checkJoinedMessage env createUnread h = Done tt h' /\ joined_into h h'.
Proof.
  intros Hb Hfresh. unfold checkJoinedMessage.
  unfold mbind at 1, Op_bind at 1, get at 1. cbv beta iota.
  destruct (asChannel (peer h)) as [channel|];
    [|exists h; split; [reflexivity | apply joined_into_refl]].
  destruct (bool_decide (is_Some (_joinedMessage h)) || (inviter channel <=? 0));
    [exists h; split; [reflexivity | apply joined_into_refl]|].
  destruct (isEmpty h && loadedAtTop h && loadedAtBottom h).
  - destruct (checkJoinedMessage_insert env createUnread true h Hb Hfresh)
      as (h' & E & J).
    exists h'. split; [|exact J]. rewrite <- E.
    unfold mbind, Op_bind. destruct (insertJoinedMessage env createUnread h); [|reflexivity].
    rewrite andb_true_r. reflexivity.
  - cbv zeta.
    match goal with
    | |- context [when ?c _] => destruct c
    end; [|exists h; split; [reflexivity | apply joined_into_refl]].
    apply checkJoinedMessage_insert; assumption.
Qed.

Lemma checkJoinedMessage_nothing_pending (env : Env) (createUnread : bool) (h : History) :
  (forall channel, asChannel (peer h) = Some channel ->
     is_Some (_joinedMessage h) \/ inviter channel <= 0) ->
  checkJoinedMessage env createUnread h = Done tt h.
Proof.
  intros Hnone. unfold checkJoinedMessage.
  unfold mbind at 1, Op_bind at 1, get at 1. cbv beta iota.
  destruct (asChannel (peer h)) as [channel|]; [|reflexivity].
  destruct (Hnone channel eq_refl) as [Hj | Hi].
  - rewrite bool_decide_eq_true_2 by exact Hj. reflexivity.
  - apply Z.leb_le in Hi. rewrite Hi, orb_true_r. reflexivity.
Qed.

(** C6, amended.  An empty older page sets [loadedAtTop] and leaves
    [loadedAtBottom] as it is.  It removes and reorders nothing: the items
    displayed before are displayed after, in the same order.  Unless the
    conversation is a channel with a known inviter whose joined message is
    not yet in place, nothing else of the window changes either; in such a
    channel the joined message may be inserted, as the one added item. *)
Theorem addOlderSlice_empty_page (env : Env) (h : History) :
  ((forall channel, asChannel (peer h) = Some channel ->
      is_Some (_joinedMessage h) \/ inviter channel <= 0) ->
   addOlderSlice env [] h = Done tt (set_loadedAtTop true h))
  /\ (isBuildingFrontBlock h = false ->
      joined_message_fresh env h ->
      exists h', addOlderSlice env [] h = Done tt h'
        /\ _loadedAtTop h' = true
        /\ _loadedAtBottom h' = _loadedAtBottom h
        /\ isBuildingFrontBlock h' = false
        /\ (blocks h' = blocks h
            \/ exists pre post joined,
                 views h = pre ++ post /\ views h' = pre ++ joined :: post)).
Proof.
  split.
  - intros Hnone. unfold addOlderSlice, mbind, Op_bind. cbn [modify].
    apply checkJoinedMessage_nothing_pending. exact Hnone.
  - intros Hbuilding Hfresh.
    assert (Hb : _buildingFrontBlock h = None).
    { unfold isBuildingFrontBlock in Hbuilding. apply bool_decide_eq_false in Hbuilding.
      destruct (_buildingFrontBlock h); [|reflexivity]. exfalso. apply Hbuilding. eauto. }
    unfold addOlderSlice, mbind, Op_bind. cbn [modify].
    destruct (checkJoinedMessage_joined env false (set_loadedAtTop true h) Hb Hfresh)
      as (h' & E & [Ke Hv]).
    exists h'. split; [exact E|].
    unfold edges in Ke. cbn in Ke. injection Ke as Htop Hbottom Hbuild.
    repeat split; [exact Htop | exact Hbottom | | exact Hv].
    unfold isBuildingFrontBlock. rewrite Hbuild. exact Hbuilding.
Qed.

Lemma addOlderSlice_empty_page_witness :
  addOlderSlice sample_env [] (empty_window user_peer)
  = Done tt (set_loadedAtTop true (empty_window user_peer)).
Proof.
  apply (addOlderSlice_empty_page sample_env (empty_window user_peer)).
  intros channel Hchannel. discriminate Hchannel.
Defined.

(** C6 as worded fails: in a channel with a known inviter the empty page
    makes the window complete at the top and the joined message is
    inserted into the existing block. *)
Lemma addOlderSlice_empty_page_inserts_joined :
  ~ empty_page_keeps_blocks sample_env invited_channel_window
  /\ exists h',
       addOlderSlice sample_env [] invited_channel_window = Done tt h'
       /\ blocks invited_channel_window = [ {| messages := [plain_item 3 5] |} ]
       /\ blocks h' = [ {| messages := [plain_item 3 5; plain_item (-1) 10] |} ].
Proof.
  assert (Hrun : exists h',
            addOlderSlice sample_env [] invited_channel_window = Done tt h'
            /\ blocks invited_channel_window = [ {| messages := [plain_item 3 5] |} ]
            /\ blocks h' = [ {| messages := [plain_item 3 5; plain_item (-1) 10] |} ]).
  { eexists. split; [vm_compute; reflexivity|]. split; reflexivity. }
  split; [|exact Hrun].
  intros Hclaim. destruct Hrun as (h' & E & Hbefore & Hafter).
  destruct (Hclaim h' E) as (_ & _ & Hsame).
  rewrite Hbefore, Hafter in Hsame. discriminate Hsame.
Qed.

(** ** Unread mentions: the total and the tracked ids *)

Lemma difference_size_le (X Y : gset MsgId) : (size (X ∖ Y) <= size X)%nat.
Proof. apply subseteq_size, subseteq_difference_l. reflexivity. Qed.

Lemma insert_size_le (msgId : MsgId) (X : gset MsgId) :
  (size X <= size ({[ msgId ]} ∪ X) <= S (size X))%nat.
Proof.
  split; [apply subseteq_size, union_subseteq_r|].
  rewrite size_union_alt, size_singleton.
  pose proof (difference_size_le X {[msgId]}). lia.
Qed.

Lemma addToUnreadMentions_within (env : Env) (msgId : MsgId) (type : UnreadMentionType)
    (h : History) :
  mentions_within_total h ->
  (forall total, _unreadMentionsCount h = Some total -> total < int_max) ->
  exists accepted h',
    addToUnreadMentions env msgId type h = Done accepted h' /\ mentions_within_total h'.
Proof.
  intros Hin Hmax. unfold addToUnreadMentions, mbind, Op_bind, get.
  destruct (peer_isChannel (peer h) && negb (peer_isMegagroup (peer h))).
  { exists false, h. split; [reflexivity | exact Hin]. }
  pose proof (insert_size_le msgId (_unreadMentions h)) as Hgrown.
  destruct (_unreadMentionsCount h) as [c|] eqn:Hc.
  - specialize (Hin c Hc). specialize (Hmax c eq_refl).
    rewrite to_size_t_id by lia.
    destruct (Z.geb_spec (Z.of_nat (size (_unreadMentions h))) c) as [Hall|Hless].
    + destruct (bool_decide (type = New)).
      * cbn [modify]. change (default 0 (Some c)) with c.
        assert (int_add c 1 = c + 1) as ->
          by (apply wrap32_id; unfold in_int, int_min, int_max in *; lia).
        destruct (setUnreadMentionsCount_counted env (c + 1)
                    (set_unreadMentions ({[msgId]} ∪ _unreadMentions h) h))
          as (h' & -> & Hcount & Hset & _);
          [unfold int_max in *; lia | destruct h; simpl in *; lia |].
        exists true, h'. split; [reflexivity|].
        intros total Ht. rewrite Hcount in Ht. injection Ht as <-.
        rewrite Hset. destruct h; simpl. lia.
      * exists false, h. split; [reflexivity|].
        intros total Ht. rewrite Hc in Ht. injection Ht as <-. exact Hin.
    + destruct (negb (bool_decide (_unreadMentions h = ∅)) && negb (bool_decide (type = New))).
      * cbn [modify]. eexists true, _. split; [reflexivity|].
        intros total Ht.
        assert (total = c) as -> by (destruct h; simpl in *; congruence).
        destruct h; simpl in *. lia.
      * exists false, h. split; [reflexivity|].
        intros total Ht. rewrite Hc in Ht. injection Ht as <-. exact Hin.
  - destruct (negb (bool_decide (_unreadMentions h = ∅)) && negb (bool_decide (type = New))).
    + cbn [modify]. eexists true, _. split; [reflexivity|].
      intros total Ht. destruct h; simpl in *. congruence.
    + exists false, h. split; [reflexivity|].
      intros total Ht. rewrite Hc in Ht. discriminate Ht.
Qed.

Lemma eraseFromUnreadMentions_run (env : Env) (msgId : MsgId) (h : History) :
  Z.of_nat (size (_unreadMentions h)) <= int_max ->
  (forall total, _unreadMentionsCount h = Some total -> total <= int_max) ->
  exists h', eraseFromUnreadMentions env msgId h = Done tt h'
    /\ _unreadMentions h' = _unreadMentions h ∖ {[ msgId ]}
    /\ _unreadMentionsCount h' =
       match _unreadMentionsCount h with
       | Some total =>
         if 0 <? total
         then Some (Z.max (total - 1) (Z.of_nat (size (_unreadMentions h ∖ {[ msgId ]}))))
         else Some total
       | None => None
       end.
Proof.
  intros Hsize Hmax. unfold eraseFromUnreadMentions.
  unfold mbind at 1, Op_bind at 1. cbn [modify].
  unfold mbind at 1, Op_bind at 1, mbind at 1, Op_bind at 1, get.
  set (h1 := set_unreadMentions (_unreadMentions h ∖ {[msgId]}) h).
  assert (_unreadMentionsCount h1 = _unreadMentionsCount h) as Hsame
    by (destruct h; reflexivity).
  assert (_unreadMentions h1 = _unreadMentions h ∖ {[msgId]}) as Hset
    by (destruct h; reflexivity).
  pose proof (difference_size_le (_unreadMentions h) {[msgId]}) as Hsub.
  rewrite Hsame.
  destruct (_unreadMentionsCount h) as [total|] eqn:Hc.
  - specialize (Hmax total eq_refl).
    destruct (Z.ltb_spec 0 total) as [Hpos|Hzero]; cbn [when].
    + assert (int_sub total 1 = total - 1) as ->
        by (apply wrap32_id; unfold in_int, int_min, int_max in *; lia).
      destruct (setUnreadMentionsCount_counted env (total - 1) h1)
        as (h2 & -> & Hcount & Hset2 & _); [lia | rewrite Hset; lia |].
      eexists. split; [reflexivity|].
      split; [destruct h2; simpl in *; congruence|].
      rewrite <- Hset. destruct h2; simpl in *. exact Hcount.
    + eexists. split; [reflexivity|].
      split; [destruct h; reflexivity|]. destruct h; simpl in *. congruence.
  - eexists. split; [reflexivity|].
    split; [destruct h; reflexivity|]. destruct h; simpl in *. congruence.
Qed.

(** X1.  The known total of unread mentions never falls below the number of
    tracked ids.  From a state where the total covers the tracked set, and
    where the total and the number of tracked ids are below the largest
    [int] (so that adding one does not wrap and a size fits an [int]),
    [setUnreadMentionsCount] with a count that is an [int] and not
    negative, [addToUnreadMentions] and [eraseFromUnreadMentions] all
    finish in such a state again. *)
Theorem unread_mentions_total_covers_tracked (env : Env) (h : History) :
  mentions_within_total h ->
  Z.of_nat (size (_unreadMentions h)) < int_max ->
  (forall total, _unreadMentionsCount h = Some total -> total < int_max) ->
  (forall n, 0 <= n <= int_max -> exists h',
     setUnreadMentionsCount env n h = Done tt h' /\ mentions_within_total h')
  /\ (forall msgId type, exists accepted h',
        addToUnreadMentions env msgId type h = Done accepted h'
        /\ mentions_within_total h')
  /\ (forall msgId, exists h',
        eraseFromUnreadMentions env msgId h = Done tt h' /\ mentions_within_total h').
Proof.
  intros Hin Hsize Hmax. split; [|split].
  - intros n Hn.
    destruct (setUnreadMentionsCount_counted env n h) as (h' & E & Hcount & Hset & _);
      [exact Hn | lia |].
    exists h'. split; [exact E|].
    intros total Ht. rewrite Hcount in Ht. injection Ht as <-. rewrite Hset. lia.
  - intros msgId type. apply addToUnreadMentions_within; [exact Hin | exact Hmax].
  - intros msgId.
    destruct (eraseFromUnreadMentions_run env msgId h) as (h' & E & Hset & Hcount);
      [lia | intros total Ht; specialize (Hmax total Ht); lia |].
    exists h'. split; [exact E|].
    intros total Ht. rewrite Hset.
    pose proof (difference_size_le (_unreadMentions h) {[msgId]}) as Hsub.
    destruct (_unreadMentionsCount h) as [c|] eqn:Hc; [|congruence].
    specialize (Hin c Hc).
    destruct (0 <? c); rewrite Hcount in Ht; injection Ht as <-; lia.
Qed.

Lemma unread_mentions_total_covers_tracked_witness :
  (exists h', setUnreadMentionsCount sample_env 0 one_of_five_mentions = Done tt h'
     /\ mentions_within_total h')
  /\ (exists h', eraseFromUnreadMentions sample_env 1 one_of_five_mentions = Done tt h'
        /\ mentions_within_total h').
Proof.
  destruct (unread_mentions_total_covers_tracked sample_env one_of_five_mentions)
    as (Hset & _ & Herase).
  - intros total [= <-]. vm_compute. discriminate.
  - vm_compute. reflexivity.
  - intros total [= <-]. vm_compute. reflexivity.
  - split; [apply (Hset 0); unfold int_max; lia | exact (Herase 1)].
Defined.

Lemma added_then_erased (msgId : MsgId) (X : gset MsgId) :
  msgId ∉ X -> ({[ msgId ]} ∪ X) ∖ {[ msgId ]} = X.
Proof.
  intros Hfresh. apply set_eq. intros x.
  rewrite elem_of_difference, elem_of_union, elem_of_singleton. split.
  - intros [[->|Hx] Hne]; [contradiction | exact Hx].
  - intros Hx. split; [right; exact Hx | intros ->; contradiction].
Qed.

(** X2.  Round trip of a live mention.  When every unread mention is
    tracked (the tracked ids are exactly as many as the known total), a
    new mention is accepted and raises the total by one, and erasing it
    again gives back the tracked set and the total. *)
Theorem unread_mention_added_then_erased (env : Env) (msgId : MsgId) (total : Z)
    (h : History) :
  isBroadcast h = false ->
  _unreadMentionsCount h = Some total ->
  Z.of_nat (size (_unreadMentions h)) = total ->
  total < int_max ->
  msgId ∉ _unreadMentions h ->
  exists h1 h2,
    addToUnreadMentions env msgId New h = Done true h1
    /\ _unreadMentions h1 = {[ msgId ]} ∪ _unreadMentions h
    /\ _unreadMentionsCount h1 = Some (total + 1)
    /\ eraseFromUnreadMentions env msgId h1 = Done tt h2
    /\ _unreadMentions h2 = _unreadMentions h
    /\ _unreadMentionsCount h2 = Some total.
Proof.
  intros Hkind Hc Hsize Hmax Hfresh.
  assert (size ({[msgId]} ∪ _unreadMentions h) = S (size (_unreadMentions h))) as Hgrown.
  { rewrite size_union by (apply disjoint_singleton_l; exact Hfresh).
    rewrite size_singleton. reflexivity. }
  assert (int_add total 1 = total + 1) as Hnext.
  { apply wrap32_id. unfold in_int, int_min, int_max in *. lia. }
  unfold addToUnreadMentions, mbind, Op_bind, get.
  unfold isBroadcast in Hkind. rewrite Hkind, Hc.
  rewrite to_size_t_id by lia.
  destruct (Z.geb_spec (Z.of_nat (size (_unreadMentions h))) total) as [_|Hlt]; [|lia].
  rewrite bool_decide_eq_true_2 by reflexivity.
  cbn [modify]. change (default 0 (Some total)) with total. rewrite Hnext.
  destruct (setUnreadMentionsCount_counted env (total + 1)
              (set_unreadMentions ({[msgId]} ∪ _unreadMentions h) h))
    as (h1 & -> & Hcount1 & Hset1 & _);
    [unfold int_max in *; lia
    | change (_unreadMentions (set_unreadMentions ({[msgId]} ∪ _unreadMentions h) h))
        with ({[msgId]} ∪ _unreadMentions h); lia |].
  assert (_unreadMentions h1 = {[msgId]} ∪ _unreadMentions h) as Hset1'
    by (rewrite Hset1; destruct h; reflexivity).
  assert (_unreadMentionsCount h1 = Some (total + 1)) as Hcount1'.
  { rewrite Hcount1. f_equal.
    replace (_unreadMentions (set_unreadMentions ({[msgId]} ∪ _unreadMentions h) h))
      with ({[msgId]} ∪ _unreadMentions h) by (destruct h; reflexivity).
    rewrite Hgrown. lia. }
  destruct (eraseFromUnreadMentions_run env msgId h1) as (h2 & E2 & Hset2 & Hcount2);
    [rewrite Hset1'; lia
    | intros t Ht; rewrite Hcount1' in Ht; injection Ht as <-; lia |].
  exists h1, h2. split; [reflexivity|]. split; [exact Hset1'|]. split; [exact Hcount1'|].
  split; [exact E2|].
  rewrite Hset1', added_then_erased in Hset2 by exact Hfresh.
  split; [exact Hset2|].
  rewrite Hcount2, Hcount1', Hset1', added_then_erased by exact Hfresh.
  destruct (Z.ltb_spec 0 (total + 1)) as [_|Hneg]; [|lia].
  f_equal. lia.
Qed.

Lemma unread_mention_added_then_erased_witness :
  exists h1 h2,
    addToUnreadMentions sample_env 9 New all_three_mentions = Done true h1
    /\ _unreadMentionsCount h1 = Some 4
    /\ eraseFromUnreadMentions sample_env 9 h1 = Done tt h2
    /\ _unreadMentions h2 = _unreadMentions all_three_mentions
    /\ _unreadMentionsCount h2 = Some 3.
Proof.
  destruct (unread_mention_added_then_erased sample_env 9 3 all_three_mentions)
    as (h1 & h2 & E1 & _ & C1 & E2 & S2 & C2).
  - reflexivity.
  - reflexivity.
  - vm_compute. reflexivity.
  - vm_compute. reflexivity.
  - vm_compute. intros H. discriminate H.
  - exists h1, h2. repeat split; assumption.
Defined.

(** ** The read cursors *)

Lemma cursor_le_refl (c : option MsgId) : cursor_le c c.
Proof. destruct c as [t|]; simpl; [exists t; split; [reflexivity | lia] | exact I]. Qed.

Lemma cursor_le_trans (a b c : option MsgId) :
  cursor_le a b -> cursor_le b c -> cursor_le a c.
Proof.
  destruct a as [t|]; simpl; [|auto].
  intros (t1 & -> & H1). simpl. intros (t2 & -> & H2). exists t2. split; [reflexivity | lia].
Qed.

Lemma cursors_advance_refl : reflexive_on cursors_advance.
Proof. intros h. split; apply cursor_le_refl. Qed.

Lemma cursors_advance_trans : transitive_on cursors_advance.
Proof. intros h1 h2 h3 [I1 O1] [I2 O2]. split; eapply cursor_le_trans; eauto. Qed.

Lemma cursors_advance_same (h h' : History) : cursors h' = cursors h -> cursors_advance h h'.
Proof.
  unfold cursors. intros [= Hi Ho]. unfold cursors_advance. rewrite Hi, Ho.
  split; apply cursor_le_refl.
Qed.

(** One step of a proof that an operation finishes in a state related to
    the initial one by a reflexive and transitive relation; [same] turns
    an unchanged observation into the relation. *)
Ltac related_step refl trans same :=
  lazymatch goal with
  | |- yields _ _ (get ≫= _) => apply yields_get; intro
  | |- yields _ _ (gets _ ≫= _) => apply yields_gets; intro
  | |- yields _ _ (mret _) => apply yields_ret; [apply refl | first [exact I | reflexivity]]
  | |- yields _ _ skip => apply runs_skip, refl
  | |- yields _ _ (modify _) => apply runs_modify; intro; apply same; reflexivity
  | |- yields _ _ (call _) => apply runs_modify; intro; apply same; reflexivity
  | |- yields _ _ (when _ _) => apply runs_when; [apply refl | ]
  | |- yields _ _ (for_each _ _) => apply runs_for_each; [apply refl | apply trans | intro]
  | |- yields _ _ (if ?b then _ else _) => destruct b
  | |- yields _ _ (match ?x with _ => _ end) => destruct x
  | |- yields _ _ (let _ := _ in _) => cbv zeta
  | |- yields _ _ (_ ≫= _) => apply yields_bind; [apply trans | | intro]
  | |- _ => solve [ eauto with related ]
  end.

Create HintDb related discriminated.

Ltac advance :=
  repeat related_step cursors_advance_refl cursors_advance_trans cursors_advance_same.

Lemma setInboxReadTill_advance upTo : runs cursors_advance (setInboxReadTill upTo).
Proof.
  intros h. rewrite setInboxReadTill_run. eexists tt, _. split; [reflexivity|].
  split; [|exact I]. split.
  - destruct h as [? ? ? ? ? [t|]]; simpl; [|exact I]. eexists. split; [reflexivity | lia].
  - destruct h; simpl. apply cursor_le_refl.
Qed.

Lemma setOutboxReadTill_advance upTo : runs cursors_advance (setOutboxReadTill upTo).
Proof.
  intros h. rewrite setOutboxReadTill_run. eexists tt, _. split; [reflexivity|].
  split; [|exact I]. split.
  - destruct h; simpl. apply cursor_le_refl.
  - destruct h as [? ? ? ? ? ? [t|]]; simpl; [|exact I]. eexists. split; [reflexivity | lia].
Qed.

#[local] Hint Resolve setInboxReadTill_advance setOutboxReadTill_advance : related.

Lemma calculateFirstUnreadMessage_advance env :
  runs cursors_advance (calculateFirstUnreadMessage env).
Proof. unfold calculateFirstUnreadMessage. advance. Qed.

#[local] Hint Resolve calculateFirstUnreadMessage_advance : related.

Lemma setUnreadCount_advance env n : runs cursors_advance (setUnreadCount env n).
Proof. unfold setUnreadCount. advance. Qed.

#[local] Hint Resolve setUnreadCount_advance : related.

Lemma changeUnreadCount_advance env delta : runs cursors_advance (changeUnreadCount env delta).
Proof. unfold changeUnreadCount. advance. Qed.

Lemma updateSendActionNeedsAnimating_advance env now force :
  runs cursors_advance (updateSendActionNeedsAnimating env now force).
Proof. unfold updateSendActionNeedsAnimating. advance. Qed.

#[local] Hint Resolve changeUnreadCount_advance updateSendActionNeedsAnimating_advance
  : related.

Lemma clearSendAction_advance env user : runs cursors_advance (clearSendAction env user).
Proof. unfold clearSendAction. advance. Qed.

Lemma destroyUnreadBar_advance : runs cursors_advance destroyUnreadBar.
Proof. unfold destroyUnreadBar. advance. Qed.

Lemma outboxRead_advance env upTo : runs cursors_advance (outboxRead env upTo).
Proof. unfold outboxRead. advance. Qed.

Lemma inboxRead_advance env upTo : runs cursors_advance (inboxRead env upTo).
Proof. unfold inboxRead. advance. Qed.

#[local] Hint Resolve clearSendAction_advance destroyUnreadBar_advance outboxRead_advance
  inboxRead_advance : related.

Lemma newItemAdded_advance env item : runs cursors_advance (newItemAdded env item).
Proof. unfold newItemAdded, outboxRead_item, inboxRead_item. advance. Qed.

Lemma readInbox_advance env : runs cursors_advance (readInbox env).
Proof. unfold readInbox. advance. Qed.

Lemma unknownMessageDeleted_advance env messageId :
  runs cursors_advance (unknownMessageDeleted env messageId).
Proof. unfold unknownMessageDeleted. advance. Qed.


(** *** Postconditions *)

Lemma wrap32_add_r (a b : Z) : wrap32 (a + wrap32 b) = wrap32 (a + b).
Proof.
  unfold wrap32.
  replace (a + ((b + 2 ^ 31) mod 2 ^ 32 - 2 ^ 31) + 2 ^ 31)
    with (a + (b + 2 ^ 31) mod 2 ^ 32) by lia.
  rewrite Zplus_mod_idemp_r. f_equal. f_equal. lia.
Qed.

Lemma int_add_1 (upTo : MsgId) : 0 < upTo -> upTo < MsgId_max -> int_add upTo 1 = upTo + 1.
Proof.
  intros Hpos Hmax. apply wrap32_id. unfold in_int, int_min, MsgId_max, int_max in *. lia.
Qed.

(** What is left of [inboxRead] after the counter is brought up to date. *)
Lemma inboxRead_tail (env : Env) (upTo : MsgId) (to : option PeerId) (h1 : History) :
  exists h',
    (setInboxReadTill upTo;;
     call updateChatListEntry;;
     match to with
     | Some to =>
       when (bool_decide (is_Some (historyLoaded env to)))
         (call (sibling_updateChatListEntry to))
     | None => skip
     end;;
     modify (set_firstUnreadView None);;
     call notifications_clearFromHistory) h1 = Done tt h'
    /\ _inboxReadBefore h' =
       Some (match _inboxReadBefore h1 with
             | Some t => Z.max t (int_add upTo 1)
             | None => int_add upTo 1
             end)
    /\ _firstUnreadView h' = None
    /\ _unreadCount h' = _unreadCount h1.
Proof.
  unfold mbind at 1, Op_bind at 1. rewrite setInboxReadTill_run.
  destruct to as [to|]; [destruct (bool_decide (is_Some (historyLoaded env to)))|];
    (eexists; split; [reflexivity|]); destruct h1; simpl; auto.
Qed.

Lemma inboxRead_run (env : Env) (upTo : MsgId) (h : History) :
  exists h' t,
    inboxRead env upTo h = Done tt h'
    /\ _inboxReadBefore h' = Some t /\ int_add upTo 1 <= t
    /\ _firstUnreadView h' = None
    /\ _unreadCount h' =
       match _unreadCount h with
       | Some count =>
         if count =? 0 then Some count
         else Some (Z.max (int_add count (int_sub (countUnread upTo h) count)) 0)
       | None => None
       end.
Proof.
  unfold inboxRead. unfold mbind at 1, Op_bind at 1, get at 1. cbv beta iota zeta.
  unfold mbind at 1, Op_bind at 1.
  assert (exists h1,
    when (negb (unreadCount h =? 0))
      (when (loadedAtBottom h) (call main_historyToDown);;
       changeUnreadCount env (int_sub (countUnread upTo h) (unreadCount h))) h = Done tt h1
    /\ _unreadCount h1 =
       match _unreadCount h with
       | Some count =>
         if count =? 0 then Some count
         else Some (Z.max (int_add count (int_sub (countUnread upTo h) count)) 0)
       | None => None
       end) as (h1 & -> & Hcount).
  { unfold unreadCount. destruct (_unreadCount h) as [count|] eqn:Hc.
    - change (default 0 (Some count)) with count.
      destruct (count =? 0); cbn [negb when].
      + exists h. split; [reflexivity | exact Hc].
      + unfold mbind at 1, Op_bind at 1.
        destruct (loadedAtBottom h); cbn [when].
        * destruct (changeUnreadCount_count env (int_sub (countUnread upTo h) count) count
                      (set_effects (effects h ++ [main_historyToDown]) h))
            as (h1 & E & H1); [destruct h; exact Hc|].
          exists h1. split; [exact E | exact H1].
        * destruct (changeUnreadCount_count env (int_sub (countUnread upTo h) count) count h Hc)
            as (h1 & E & H1).
          exists h1. split; [exact E | exact H1].
    - exists h. split; [reflexivity | exact Hc]. }
  destruct (inboxRead_tail env upTo (migrateTo (peer h)) h1) as (h' & E & Hcursor & Hfirst & Hsame).
  exists h'. eexists. split; [exact E|]. split; [exact Hcursor|].
  split; [destruct (_inboxReadBefore h1); lia|].
  split; [exact Hfirst|]. rewrite Hsame. exact Hcount.
Qed.



(** *** Counting unread items *)

Lemma count_of_nil test : count_of test [] = 0.
Proof. reflexivity. Qed.

Lemma count_of_cons test item l :
  count_of test (item :: l) = (if test item then 1 else 0) + count_of test l.
Proof. unfold count_of. simpl. destruct (test item); simpl; lia. Qed.

Lemma count_of_app test l1 l2 :
  count_of test (l1 ++ l2) = count_of test l1 + count_of test l2.
Proof.
  induction l1 as [|item l1 IH]; [unfold count_of; simpl; lia|].
  change ((item :: l1) ++ l2) with (item :: (l1 ++ l2)). rewrite !count_of_cons, IH. lia.
Qed.

Lemma count_of_rev test l : count_of test (rev l) = count_of test l.
Proof.
  induction l as [|item l IH]; [reflexivity|].
  simpl. rewrite count_of_app, IH, !count_of_cons, count_of_nil. lia.
Qed.

Lemma count_of_bounds test l : 0 <= count_of test l <= Z.of_nat (length l).
Proof.
  induction l as [|item l IH]; [unfold count_of; simpl; lia|].
  rewrite count_of_cons. cbn [length]. destruct (test item); lia.
Qed.

Lemma countUnread_block_bounds upTo (l : list HistoryItem) (result : Z) :
  0 <= result -> result + Z.of_nat (length l) <= int_max ->
  result <= countUnread_block upTo l result <= result + count_of (unread_above upTo) l.
Proof.
  revert result. induction l as [|item older IH]; intros result Hpos Hmax.
  - simpl. rewrite count_of_nil. lia.
  - cbn [length] in Hmax. cbn [countUnread_block]. rewrite count_of_cons.
    pose proof (count_of_bounds (unread_above upTo) older) as Hb.
    destruct ((0 <? id item) && (id item <=? upTo)).
    + destruct (unread_above upTo item); lia.
    + unfold unread_above at 1.
      destruct (negb (out item) && unread item && (id item >? upTo)).
      * assert (int_add result 1 = result + 1) as ->.
        { apply wrap32_id. unfold in_int, int_min, int_max in *. lia. }
        specialize (IH (result + 1) ltac:(lia) ltac:(lia)). lia.
      * specialize (IH result Hpos ltac:(lia)). lia.
Qed.

Lemma countUnread_fold upTo (bs : list HistoryBlock) :
  fold_left (fun result b => countUnread_block upTo (rev (messages b)) result) (rev bs) 0
  = fold_right (fun b result => countUnread_block upTo (rev (messages b)) result) 0 bs.
Proof.
  rewrite <- (fold_left_rev_right
    (fun b result => countUnread_block upTo (rev (messages b)) result) (rev bs) 0).
  rewrite rev_involutive. reflexivity.
Qed.

Lemma countUnread_bounds upTo (h : History) :
  Z.of_nat (length (views h)) <= int_max ->
  0 <= countUnread upTo h <= count_of (unread_above upTo) (views h).
Proof.
  unfold countUnread, views. rewrite countUnread_fold.
  induction (blocks h) as [|b bs IH]; intros Hmax.
  - simpl. rewrite count_of_nil. lia.
  - cbn [fold_right fmap list_fmap concat] in *.
    rewrite length_app in Hmax. rewrite count_of_app.
    specialize (IH ltac:(lia)).
    pose proof (count_of_bounds (unread_above upTo) (concat (messages <$> bs))) as Hb.
    match goal with
    | |- _ <= countUnread_block _ _ ?inner <= _ =>
      pose proof (countUnread_block_bounds upTo (rev (messages b)) inner ltac:(lia)) as Hblock
    end.
    rewrite length_rev, count_of_rev in Hblock. specialize (Hblock ltac:(lia)). lia.
Qed.

Lemma ordered_by_id_app (l1 l2 : list HistoryItem) :
  ordered_by_id (l1 ++ l2) ->
  ordered_by_id l1 /\ ordered_by_id l2
  /\ Forall (fun older => Forall (fun newer => id older <= id newer) l2) l1.
Proof.
  induction l1 as [|item l1 IH]; simpl.
  - intros H. repeat split; [exact H | constructor].
  - intros [Hall Hrest]. apply Forall_app in Hall as [H1 H2].
    destruct (IH Hrest) as (I1 & I2 & I3).
    repeat split; [exact H1 | exact I1 | exact I2 | constructor; assumption].
Qed.

Lemma count_of_none test (l : list HistoryItem) :
  Forall (fun item => test item = false) l -> count_of test l = 0.
Proof.
  induction 1 as [|item l Hitem _ IH]; [reflexivity|].
  rewrite count_of_cons, Hitem, IH. reflexivity.
Qed.

Lemma countUnread_block_ordered upTo (m : list HistoryItem) (result : Z) :
  ordered_by_id m ->
  0 <= result -> result + Z.of_nat (length m) <= int_max ->
  countUnread_block upTo (rev m) result = result + count_of (unread_above upTo) m.
Proof.
  revert result. induction m as [|newest init IH] using rev_ind; intros result Hord Hpos Hmax.
  - simpl. rewrite count_of_nil. lia.
  - rewrite rev_app_distr. cbn [rev app countUnread_block].
    apply ordered_by_id_app in Hord as (Hinit & _ & Hbelow).
    rewrite length_app in Hmax. cbn [length] in Hmax.
    rewrite count_of_app, count_of_cons, count_of_nil.
    pose proof (count_of_bounds (unread_above upTo) init) as Hb.
    destruct ((0 <? id newest) && (id newest <=? upTo)) eqn:Hbreak.
    + apply andb_true_iff in Hbreak as [_ Hle]. apply Z.leb_le in Hle.
      rewrite (count_of_none _ init).
      * unfold unread_above. destruct (Z.gtb_spec (id newest) upTo); [lia|].
        rewrite andb_false_r. lia.
      * eapply Forall_impl; [exact Hbelow|]. intros older Holder. cbv beta in Holder.
        apply Forall_inv in Holder. unfold unread_above.
        destruct (Z.gtb_spec (id older) upTo); [lia | apply andb_false_r].
    + unfold unread_above at 2.
      destruct (negb (out newest) && unread newest && (id newest >? upTo)).
      * assert (int_add result 1 = result + 1) as ->.
        { apply wrap32_id. unfold in_int, int_min, int_max in *. lia. }
        rewrite IH by (assumption || lia). lia.
      * rewrite IH by (assumption || lia). lia.
Qed.

Lemma countUnread_ordered upTo (h : History) :
  ordered_by_id (views h) ->
  Z.of_nat (length (views h)) <= int_max ->
  countUnread upTo h = count_of (unread_above upTo) (views h).
Proof.
  unfold countUnread, views. rewrite countUnread_fold.
  induction (blocks h) as [|b bs IH]; intros Hord Hmax; [reflexivity|].
  cbn [fold_right fmap list_fmap concat] in *.
  apply ordered_by_id_app in Hord as (Hb & Hbs & _).
  rewrite length_app in Hmax. rewrite count_of_app.
  rewrite IH by (assumption || lia).
  pose proof (count_of_bounds (unread_above upTo) (concat (messages <$> bs))).
  rewrite countUnread_block_ordered by (assumption || lia). lia.
Qed.



Lemma int_add_neg (count : Z) : int_add count (int_neg count) = 0.
Proof.
  unfold int_add, int_neg. rewrite wrap32_add_r.
  replace (count + - count) with 0 by lia. reflexivity.
Qed.

(** X6.  [readInbox] returns the id it read up to ([msgIdForRead]) and
    leaves a known unread counter at zero (an unknown one stays unknown);
    when that id is not zero, the inbox cursor ends above it and no first
    unread view is left. *)
Theorem readInbox_zeroes_counter (env : Env) (h : History) :
  exists h',
    readInbox env h = Done (msgIdForRead env h) h'
    /\ _unreadCount h' = (fun _ => 0) <$> _unreadCount h
    /\ (msgIdForRead env h <> 0 ->
        _firstUnreadView h' = None
        /\ exists t, _inboxReadBefore h' = Some t /\ int_add (msgIdForRead env h) 1 <= t).
Proof.
  unfold readInbox. unfold mbind at 1, Op_bind at 1, get at 1. cbv beta iota zeta.
  unfold mbind at 1, Op_bind at 1.
  assert (exists h1, changeUnreadCount env (int_neg (unreadCount h)) h = Done tt h1
            /\ _unreadCount h1 = (fun _ => 0) <$> _unreadCount h) as (h1 & -> & Hzero).
  { unfold unreadCount. destruct (_unreadCount h) as [count|] eqn:Hc.
    - change (default 0 (Some count)) with count.
      destruct (changeUnreadCount_count env (int_neg count) count h Hc) as (h1 & E & H1).
      exists h1. split; [exact E|]. rewrite H1, int_add_neg. reflexivity.
    - destruct (changeUnreadCount_unknown env (int_neg (default 0 None)) h Hc)
        as (h1 & E & H1).
      exists h1. split; [exact E | exact H1]. }
  unfold mbind at 1, Op_bind at 1.
  destruct (Z.eqb_spec (msgIdForRead env h) 0) as [Hnone|Hsome]; cbn [negb when].
  - exists h1. split; [reflexivity|]. split; [exact Hzero | contradiction].
  - destruct (inboxRead_run env (msgIdForRead env h) h1)
      as (h' & t & -> & Hcursor & Ht & Hfirst & Hcount).
    exists h'. split; [reflexivity|]. split.
    + rewrite Hcount, Hzero. destruct (_unreadCount h); reflexivity.
    + intros _. split; [exact Hfirst|]. exists t. split; assumption.
Qed.

(** ** The unread badge *)

Lemma reported_unread_app fx1 fx2 :
  reported_unread (fx1 ++ fx2) = reported_unread fx1 + reported_unread fx2.
Proof. induction fx1 as [|e fx1 IH]; simpl; [reflexivity | rewrite IH; lia]. Qed.

Lemma reported_entries_app fx1 fx2 :
  reported_entries (fx1 ++ fx2) = reported_entries fx1 + reported_entries fx2.
Proof. induction fx1 as [|e fx1 IH]; simpl; [reflexivity | rewrite IH; lia]. Qed.

Lemma setInboxReadTill_counting upTo : runs (keeps counting) (setInboxReadTill upTo).
Proof. unfold setInboxReadTill. frame. Qed.

Lemma calculateFirstUnreadMessage_counting env :
  runs (keeps counting) (calculateFirstUnreadMessage env).
Proof. unfold calculateFirstUnreadMessage. frame. Qed.

#[local] Hint Resolve setInboxReadTill_counting calculateFirstUnreadMessage_counting : frame.

Lemma setUnreadCount_ledger (env : Env) (n : Z) (h : History) :
  inChatList env = true ->
  0 <= n <= int_max ->
  (forall count, _unreadCount h = Some count -> 0 <= count <= int_max) ->
  exists h', setUnreadCount env n h = Done tt h'
    /\ _unreadCount h' = Some n
    /\ _unreadMark h' = _unreadMark h
    /\ badge_ledger h' = badge_ledger h.
Proof.
  intros Hlist Hn Hrange. unfold setUnreadCount.
  unfold mbind at 1, Op_bind at 1, get at 1. cbv beta iota zeta.
  destruct (bool_decide (_unreadCount h = Some n)) eqn:Hsame.
  { apply bool_decide_eq_true in Hsame. exists h. repeat split. exact Hsame. }
  apply bool_decide_eq_false in Hsame.
  match goal with
  | |- exists h', (?branch ≫= _) h = _ /\ _ =>
    assert (Hbranch : runs (keeps counting) branch) by frame;
    destruct (runs_unit _ _ h Hbranch) as (h1 & E1 & K1)
  end.
  unfold mbind at 1, Op_bind at 1. rewrite E1.
  unfold counting, keeps in K1. injection K1 as Kfx Kmark Kbar Kmute Kcount.
  clear E1 Hbranch. rewrite Hlist.
  unfold mbind, Op_bind, get, modify, call, when, skip, mret, Op_ret. cbv beta iota zeta.
  destruct h1 as [p1 bs1 top1 bot1 bld1 irb1 orb1 uc1 um1 ums1 umc1 lm1 clm1 ld1 cd1 nt1
                  fuv1 ubv1 sti1 jm1 lki1 lkid1 lkh1 lkf1 lku1 mu1 ty1 sa1 it1 fx1].
  cbn [_unreadBarView set_unreadCount effects _unreadMark _mute _unreadCount] in *.
  subst fx1 um1 ubv1 mu1 uc1.
  destruct (_unreadBarView h) as [bar|];
    [match goal with |- context [0 <? ?c] => destruct (0 <? c) end|];
    (eexists; split; [reflexivity|]);
    (split; [reflexivity|]); (split; [reflexivity|]);
    unfold badge_ledger, unread_entry, historiesUnreadCount, unreadCount, unreadMark, mute;
    cbn [effects _unreadCount _unreadMark _mute set_effects set_unreadCount];
    rewrite !reported_unread_app, !reported_entries_app;
    cbn [reported_unread reported_entries foldr reported_increment reported_entry];
    change (default 0 (Some n)) with n;
    generalize (reported_unread (effects h)), (reported_entries (effects h));
    intros ru re; clear Hsame;
    (destruct (_unreadCount h) as [count|];
       [specialize (Hrange count eq_refl); change (default 0 (Some count)) with count;
        destruct (Z.ltb_spec 0 count), (Z.eqb_spec count 0); try lia|];
       cbn [default fmap option_fmap option_map]; unfold Datatypes.id);
    destruct (Z.ltb_spec 0 n), (Z.eqb_spec n 0); try lia;
    destruct (_unreadMark h);
    repeat (cbn [eqb andb orb negb Z.eqb];
            match goal with
            | |- context [?a =? 0] => is_var a; destruct (Z.eqb_spec a 0); try lia
            end);
    cbn [eqb andb orb negb Z.eqb];
    unfold int_add, int_sub;
    try rewrite (wrap32_id (n - count)) by (unfold in_int, int_min, int_max in *; lia);
    rewrite wrap32_id by (unfold in_int, int_min, int_max in *; lia);
    f_equal; lia.
Qed.

Lemma badge_ledger_call (e : Effect) (h : History) :
  reported_increment e = 0 -> reported_entry e = 0 ->
  badge_ledger (set_effects (effects h ++ [e]) h) = badge_ledger h.
Proof.
  intros Hi He. unfold badge_ledger, unread_entry, historiesUnreadCount, unreadCount, unreadMark.
  destruct h; cbn [effects _unreadCount _unreadMark set_effects].
  rewrite reported_unread_app, reported_entries_app. simpl. rewrite Hi, He. f_equal; lia.
Qed.

Lemma changeUnreadCount_ledger (env : Env) (delta : Z) (h : History) :
  inChatList env = true ->
  (forall count, _unreadCount h = Some count -> 0 <= count <= int_max) ->
  exists h', changeUnreadCount env delta h = Done tt h' /\ badge_ledger h' = badge_ledger h.
Proof.
  intros Hlist Hrange. unfold changeUnreadCount.
  unfold mbind at 1, Op_bind at 1, get at 1. cbv beta iota.
  unfold mbind at 1, Op_bind at 1.
  assert (exists h1,
    match _unreadCount h with
    | Some count => setUnreadCount env (Z.max (int_add count delta) 0)
    | None => skip
    end h = Done tt h1 /\ badge_ledger h1 = badge_ledger h) as (h1 & -> & H1).
  { destruct (_unreadCount h) as [count|] eqn:Hc.
    - destruct (setUnreadCount_ledger env (Z.max (int_add count delta) 0) h Hlist)
        as (h1 & E & _ & _ & H1).
      + pose proof (wrap32_in_int (count + delta)) as Hw.
        unfold int_add, in_int, int_min, int_max in *. lia.
      + rewrite Hc. exact Hrange.
      + exists h1. split; [exact E | exact H1].
    - exists h. split; reflexivity. }
  unfold mbind, Op_bind, get.
  destruct (asChannel (peer h1)) as [channel|]; [destruct (feed channel)|];
    cbn [when call modify skip mret Op_ret];
    (eexists; split; [reflexivity|]); rewrite <- H1;
    [apply badge_ledger_call; reflexivity | reflexivity | reflexivity].
Qed.

Lemma setUnreadMark_ledger (env : Env) (supportMode : bool) (f_deleted : UserData -> bool)
    (unread : bool) (h : History) :
  inChatList env = true ->
  (forall count, _unreadCount h = Some count -> 0 <= count <= int_max) ->
  exists h', setUnreadMark env supportMode f_deleted unread h = Done tt h'
    /\ _unreadMark h' =
       (if clearUnreadOnClientSide supportMode f_deleted h then false else unread)
    /\ _unreadCount h' = _unreadCount h
    /\ badge_ledger h' = badge_ledger h.
Proof.
  intros Hlist Hrange. unfold setUnreadMark.
  unfold mbind at 1, Op_bind at 1, get at 1. cbv beta iota zeta.
  generalize (if clearUnreadOnClientSide supportMode f_deleted h then false else unread).
  intros mark. rewrite Hlist.
  destruct (eqb (_unreadMark h) mark) eqn:Hsame; cbn [negb when].
  { apply eqb_prop in Hsame. exists h. repeat split. exact Hsame. }
  apply eqb_false_iff in Hsame.
  unfold mbind, Op_bind, get, modify, call, when, skip, mret, Op_ret. cbv beta iota zeta.
  destruct (_unreadCount h) as [count|] eqn:Hc;
    [specialize (Hrange count eq_refl); destruct (Z.eqb_spec count 0) as [->|Hnz]|];
    (eexists; split; [reflexivity|]);
    (split; [destruct h; reflexivity|]); (split; [destruct h; simpl in *; congruence|]);
    unfold badge_ledger, unread_entry, historiesUnreadCount, unreadCount, unreadMark, mute;
    destruct h; cbn [effects _unreadCount _unreadMark _mute set_effects set_unreadMark] in *;
    rewrite Hc; rewrite ?reported_unread_app, ?reported_entries_app;
    cbn [reported_unread reported_entries foldr reported_increment reported_entry default];
    unfold Datatypes.id;
    try (apply Z.eqb_neq in Hnz as Hnz'; rewrite ?Hnz');
    match goal with
    | H : ?before ≠ mark |- _ => destruct before, mark; try congruence
    end;
    cbn [andb Z.eqb]; rewrite ?Hnz'; f_equal; lia.
Qed.

(** X7.  The application-wide unread totals are kept in step.  In a
    conversation that is in the chat list, with counts in the range of a
    non-negative int, [setUnreadCount], [changeUnreadCount] and
    [setUnreadMark] report to the owner exactly the change of the
    conversation's contribution: the sum of the reported increments grows by
    the change of [historiesUnreadCount], and the sum of the reported
    entry changes by the change of whether the conversation is unread. *)
Theorem unread_badge_ledger (env : Env) (h : History) :
  inChatList env = true ->
  (forall count, _unreadCount h = Some count -> 0 <= count <= int_max) ->
  (forall n, 0 <= n <= int_max ->
     exists h', setUnreadCount env n h = Done tt h'
       /\ badge_ledger h' = badge_ledger h)
  /\ (forall delta,
        exists h', changeUnreadCount env delta h = Done tt h'
          /\ badge_ledger h' = badge_ledger h)
  /\ (forall supportMode f_deleted unread,
        exists h', setUnreadMark env supportMode f_deleted unread h = Done tt h'
          /\ badge_ledger h' = badge_ledger h).
Proof.
  intros Hlist Hrange. split; [|split].
  - intros n Hn.
    destruct (setUnreadCount_ledger env n h Hlist Hn Hrange) as (h' & E & _ & _ & H').
    exists h'. split; assumption.
  - intros delta. apply changeUnreadCount_ledger; assumption.
  - intros supportMode f_deleted unread.
    destruct (setUnreadMark_ledger env supportMode f_deleted unread h Hlist Hrange)
      as (h' & E & _ & _ & H').
    exists h'. split; assumption.
Qed.

Lemma unread_badge_ledger_witness :
  exists h', setUnreadCount sample_env 0 two_unread_window = Done tt h'
    /\ badge_ledger h' = badge_ledger two_unread_window
    /\ reported_unread (effects h') = -2.
Proof.
  destruct (unread_badge_ledger sample_env two_unread_window) as (Hset & _ & _).
  - reflexivity.
  - intros count [= <-]. vm_compute. split; discriminate.
  - destruct (Hset 0) as (h' & E & H'); [vm_compute; split; discriminate|].
    exists h'. split; [exact E|]. split; [exact H'|].
    vm_compute in E. injection E as <-. reflexivity.
Defined.

Lemma changedInChatListHook_run (added : bool) (h : History) :
  (forall count, _unreadCount h = Some count -> 0 <= count <= int_max) ->
  exists h', changedInChatListHook true added h = Done tt h'
    /\ _unreadCount h' = _unreadCount h /\ _unreadMark h' = _unreadMark h
    /\ reported_unread (effects h') =
       reported_unread (effects h)
       + (if added then historiesUnreadCount h else - historiesUnreadCount h)
    /\ reported_entries (effects h') =
       reported_entries (effects h) + (if added then unread_entry h else - unread_entry h).
Proof.
  intros Hrange.
  assert (0 <= historiesUnreadCount h <= int_max) as Hhist.
  { unfold historiesUnreadCount, unreadCount, unreadMark.
    destruct (_unreadCount h) as [count|]; [specialize (Hrange count eq_refl)|];
      cbn [default]; unfold Datatypes.id;
      match goal with |- context [?a =? 0] => destruct (Z.eqb_spec a 0) end;
      destruct (_unreadMark h); cbn [andb]; unfold int_max in *; lia. }
  unfold changedInChatListHook, unread_entry.
  cbn [when]. unfold mbind at 1, Op_bind at 1, get at 1. cbv beta iota zeta.
  assert (int_mul (historiesUnreadCount h) (if added then 1 else -1)
          = if added then historiesUnreadCount h else - historiesUnreadCount h) as ->.
  { unfold int_mul. destruct added;
      rewrite wrap32_id by (unfold in_int, int_min, int_max in *; lia); lia. }
  destruct (Z.eqb_spec (historiesUnreadCount h) 0) as [Hzero|Hpos].
  - rewrite Hzero. replace (if added then 0 else - 0) with 0 by (destruct added; reflexivity).
    exists h. repeat split; destruct added; lia.
  - assert (((if added then historiesUnreadCount h else - historiesUnreadCount h) =? 0)
            = false) as -> by (apply Z.eqb_neq; destruct added; lia).
    cbn [negb when]. unfold mbind, Op_bind, call, modify.
    eexists. split; [reflexivity|].
    destruct h; cbn [effects set_effects _unreadCount _unreadMark].
    rewrite !reported_unread_app, !reported_entries_app. simpl.
    repeat split; destruct added; lia.
Qed.

(** X8.  Entering and leaving the chat list.  When the conversation is
    added to the main list it reports its whole contribution to the
    application-wide totals ([historiesUnreadCount], and one entry when
    that is not zero); when it is removed it reports the opposite, so that
    an addition followed by a removal leaves both reported sums as they
    were.  For any other list nothing is reported. *)
Theorem chat_list_membership_reports_contribution (h : History) :
  (forall count, _unreadCount h = Some count -> 0 <= count <= int_max) ->
  (exists h1 h2,
     changedInChatListHook true true h = Done tt h1
     /\ reported_unread (effects h1) = reported_unread (effects h) + historiesUnreadCount h
     /\ reported_entries (effects h1) = reported_entries (effects h) + unread_entry h
     /\ changedInChatListHook true false h1 = Done tt h2
     /\ reported_unread (effects h2) = reported_unread (effects h)
     /\ reported_entries (effects h2) = reported_entries (effects h))
  /\ (forall added, changedInChatListHook false added h = Done tt h).
Proof.
  intros Hrange. split; [|reflexivity].
  destruct (changedInChatListHook_run true h Hrange) as (h1 & E1 & Hc & Hm & Hu & He).
  destruct (changedInChatListHook_run false h1) as (h2 & E2 & _ & _ & Hu2 & He2).
  { rewrite Hc. exact Hrange. }
  exists h1, h2. repeat split; try assumption.
  - rewrite Hu2, Hu. unfold historiesUnreadCount, unreadCount, unreadMark.
    rewrite Hc, Hm. lia.
  - rewrite He2, He. unfold unread_entry, historiesUnreadCount, unreadCount, unreadMark.
    rewrite Hc, Hm. lia.
Qed.

Lemma chat_list_membership_reports_contribution_witness :
  exists h1,
    changedInChatListHook true true two_unread_window = Done tt h1
    /\ reported_unread (effects h1) = 2
    /\ reported_entries (effects h1) = 1.
Proof.
  destruct (chat_list_membership_reports_contribution two_unread_window)
    as [(h1 & h2 & E1 & Hu & He & _) _].
  - intros count [= <-]. vm_compute. split; discriminate.
  - exists h1. split; [exact E1|]. split; [exact Hu | exact He].
Defined.

(** ** The notification queue *)

Lemma set_notifies_same (h : History) : set_notifies (notifies h) h = h.
Proof. destruct h; reflexivity. Qed.

Lemma removeNotification_erase_absent (item : HistoryItem) (queue : list HistoryItem) :
  item ∉ queue -> removeNotification_erase item queue = queue.
Proof.
  induction queue as [|queued rest IH]; intros Habsent; [reflexivity|].
  simpl. unfold same_item. rewrite bool_decide_eq_false_2.
  - f_equal. apply IH. intros Hin. apply Habsent. right. exact Hin.
  - intros ->. apply Habsent. left.
Qed.

Lemma removeNotification_erase_first (item : HistoryItem) (pre post : list HistoryItem) :
  item ∉ pre -> removeNotification_erase item (pre ++ item :: post) = pre ++ post.
Proof.
  induction pre as [|queued pre IH]; intros Habsent; simpl.
  - unfold same_item. rewrite bool_decide_eq_true_2 by reflexivity. reflexivity.
  - unfold same_item. rewrite bool_decide_eq_false_2.
    + f_equal. apply IH. intros Hin. apply Habsent. right. exact Hin.
    + intros ->. apply Habsent. left.
Qed.

(** X9.  [removeNotification] takes exactly the earliest queued occurrence
    of the item out of the notification queue and touches nothing else:
    with the item not queued the window is unchanged, and with the queue
    [pre ++ item :: post], [item] not in [pre], it becomes [pre ++ post]. *)
Theorem removeNotification_erases_first (item : HistoryItem) (h : History) :
  (item ∉ notifies h -> removeNotification item h = Done tt h)
  /\ (forall pre post, notifies h = pre ++ item :: post -> item ∉ pre ->
        removeNotification item h = Done tt (set_notifies (pre ++ post) h)).
Proof.
  split.
  - intros Habsent. unfold removeNotification, modify.
    rewrite removeNotification_erase_absent by exact Habsent.
    rewrite set_notifies_same. reflexivity.
  - intros pre post Hqueue Habsent. unfold removeNotification, modify.
    rewrite Hqueue, removeNotification_erase_first by exact Habsent. reflexivity.
Qed.

Lemma updateSendActionNeedsAnimating_queue env now force :
  runs (keeps queue_view) (updateSendActionNeedsAnimating env now force).
Proof. unfold updateSendActionNeedsAnimating. frame. Qed.

#[local] Hint Resolve updateSendActionNeedsAnimating_queue : frame.

Lemma clearSendAction_queue env user : runs (keeps queue_view) (clearSendAction env user).
Proof. unfold clearSendAction. frame. Qed.

#[local] Hint Resolve clearSendAction_queue : frame.



(** ** Blocks *)

Lemma alter_last (f : HistoryBlock -> HistoryBlock) (init : list HistoryBlock)
    (b : HistoryBlock) :
  alter f (length (init ++ [b]) - 1)%nat (init ++ [b]) = init ++ [f b].
Proof.
  rewrite length_app. simpl length.
  replace (length init + 1 - 1)%nat with (length init + 0)%nat by lia.
  rewrite alter_app_r. reflexivity.
Qed.

Lemma appended_cases (item : HistoryItem) (bs : list HistoryBlock) :
  (appended item bs = bs ++ [ {| messages := [item] |} ]
   /\ (bs = [] \/ exists back, last bs = Some back
                    /\ kNewBlockEachMessage <= Z.of_nat (length (messages back))))
  \/ (exists init back,
        bs = init ++ [back]
        /\ Z.of_nat (length (messages back)) < kNewBlockEachMessage
        /\ appended item bs = init ++ [ {| messages := messages back ++ [item] |} ]).
Proof.
  unfold appended. destruct (last bs) as [back|] eqn:Hlast.
  - apply last_Some in Hlast as [init ->].
    destruct (Z.geb_spec (Z.of_nat (length (messages back))) kNewBlockEachMessage) as [Hfull|Hroom].
    + left. split.
      * rewrite (alter_last _ (init ++ [back])). reflexivity.
      * right. exists back. split; [reflexivity | exact Hfull].
    + right. exists init, back. split; [reflexivity|]. split; [exact Hroom|].
      apply alter_last.
  - apply last_None in Hlast as ->. left. split; [reflexivity | left; reflexivity].
Qed.

(** X11.  Appending keeps the blocks well sized.  When every block of the
    window holds between one and [kNewBlockEachMessage] views, it does so
    again after [addNewItem]: the item goes to the end of the last block,
    or, when there is no block or the last one is full, into a new last
    block of its own; all earlier blocks are untouched. *)
Theorem addNewItem_keeps_blocks_sized (env : Env) (item : HistoryItem) (unread : bool)
    (h : History) :
  _buildingFrontBlock h = None ->
  mainView item h = false ->
  Forall block_well_sized (blocks h) ->
  exists h',
    addNewItem env item unread h = Done item h'
    /\ Forall block_well_sized (blocks h')
    /\ (blocks h' = blocks h ++ [ {| messages := [item] |} ]
        \/ exists init back,
             blocks h = init ++ [back]
             /\ blocks h' = init ++ [ {| messages := messages back ++ [item] |} ]).
Proof.
  intros Hbuild Hfresh Hsized.
  destruct (addNewItem_run env item unread h Hbuild Hfresh) as (h' & E & K).
  apply layout_blocks in K.
  replace (blocks (set_blocks (appended item (blocks h)) h))
    with (appended item (blocks h)) in K by (destruct h; reflexivity).
  exists h'. split; [exact E|]. rewrite K.
  destruct (appended_cases item (blocks h)) as [[-> _]|(init & back & Hbs & Hroom & ->)].
  - split; [|left; reflexivity].
    apply Forall_app. split; [exact Hsized|].
    constructor; [|constructor]. unfold block_well_sized, kNewBlockEachMessage. simpl. lia.
  - split; [|right; exists init, back; split; [exact Hbs | reflexivity]].
    rewrite Hbs in Hsized. apply Forall_app in Hsized as [Hinit Hback].
    apply Forall_app. split; [exact Hinit|].
    constructor; [|constructor]. apply Forall_inv in Hback.
    unfold block_well_sized in *. cbn [messages]. rewrite length_app. simpl length. lia.
Qed.

Lemma addNewItem_keeps_blocks_sized_witness :
  exists h',
    addNewItem sample_env (plain_item 9 9) false two_unread_window = Done (plain_item 9 9) h'
    /\ Forall block_well_sized (blocks h').
Proof.
  destruct (addNewItem_keeps_blocks_sized sample_env (plain_item 9 9) false two_unread_window)
    as (h' & E & Hsized & _).
  - reflexivity.
  - vm_compute. reflexivity.
  - repeat constructor; vm_compute; discriminate.
  - exists h'. split; [exact E | exact Hsized].
Defined.

Lemma alter_at {A} (f : A -> A) (l : list A) (i : nat) (x : A) :
  l !! i = Some x -> alter f i l = <[i := f x]> l.
Proof.
  revert i. induction l as [|y l IH]; intros i Hlook; [discriminate|].
  destruct i as [|i]; simpl in *.
  - injection Hlook as ->. reflexivity.
  - f_equal. apply IH. exact Hlook.
Qed.

(** X12.  [addNewInTheMiddle] checks its position and inserts exactly
    there.  A block index past the last block, or an item index past the
    end of that block, is a contract violation.  Otherwise the item becomes
    the view at that index of that block, the views before and after keep
    their order, and the load-edge flags and the builder are unchanged. *)
Theorem addNewInTheMiddle_checks_position (item : HistoryItem) (blockIndex itemIndex : nat)
    (h : History) :
  ((length (blocks h) <= blockIndex)%nat ->
     addNewInTheMiddle item blockIndex itemIndex h = Aborted violation_blockIndex)
  /\ (forall b, blocks h !! blockIndex = Some b ->
        ((length (messages b) < itemIndex)%nat ->
           addNewInTheMiddle item blockIndex itemIndex h = Aborted violation_itemIndex)
        /\ ((itemIndex <= length (messages b))%nat ->
            exists h',
              addNewInTheMiddle item blockIndex itemIndex h = Done item h'
              /\ blocks h' =
                 <[blockIndex :=
                    {| messages := take itemIndex (messages b) ++ item
                                   :: drop itemIndex (messages b) |}]> (blocks h)
              /\ edges h' = edges h
              /\ exists pre post,
                   views h = pre ++ post /\ views h' = pre ++ item :: post)).
Proof.
  split.
  - intros Hpast. unfold addNewInTheMiddle, mbind, Op_bind, get.
    apply Nat.ltb_ge in Hpast. rewrite Hpast. reflexivity.
  - intros b Hlook. split.
    + intros Hpast. unfold addNewInTheMiddle, mbind, Op_bind, get. rewrite Hlook.
      assert ((blockIndex <? length (blocks h))%nat = true) as ->
        by (apply Nat.ltb_lt; eapply lookup_lt_Some; exact Hlook).
      apply Nat.leb_gt in Hpast. rewrite Hpast. reflexivity.
    + intros Hle.
      destruct (addNewInTheMiddle_run item blockIndex itemIndex h b Hlook Hle)
        as (h' & E & K).
      assert (blocks h' = inserted item blockIndex itemIndex (blocks h)) as Hblocks.
      { apply layout_blocks in K. rewrite K. destruct h; reflexivity. }
      exists h'. split; [exact E|]. split; [|split].
      * rewrite Hblocks. unfold inserted.
        rewrite (alter_at _ (blocks h) blockIndex b Hlook). reflexivity.
      * apply keeps_layout_edges in K. unfold keeps in K. rewrite K.
        destruct h; reflexivity.
      * unfold views. rewrite Hblocks.
        apply views_inserted with (blk := b); assumption.
Qed.

(** *** Removing a view *)

Section Removal.

Context (view : HistoryItem) (b i : nat) (blk : HistoryBlock) (bs : list HistoryBlock).
Hypothesis (Hblock : bs !! b = Some blk) (Hview : messages blk !! i = Some view).

Lemma blocks_split : bs = take b bs ++ blk :: drop (S b) bs.
Proof. symmetry. apply take_drop_middle. exact Hblock. Qed.

Lemma views_split :
  concat (messages <$> bs) = views_before b i bs ++ view :: views_after b i bs.
Proof.
  unfold views_before, views_after. rewrite Hblock.
  rewrite blocks_split at 1. rewrite fmap_app, concat_app, fmap_cons. cbn [concat].
  rewrite <- (take_drop_middle (messages blk) i view Hview) at 1.
  rewrite <- !app_assoc. reflexivity.
Qed.

Lemma alter_block (f : HistoryBlock -> HistoryBlock) :
  alter f b bs = take b bs ++ f blk :: drop (S b) bs.
Proof.
  rewrite blocks_split at 1.
  assert (length (take b bs) = b) as Hlen.
  { apply length_take_le. apply Nat.lt_le_incl. eapply lookup_lt_Some. exact Hblock. }
  rewrite alter_app_r_alt by lia. rewrite Hlen, Nat.sub_diag. reflexivity.
Qed.

Lemma views_without :
  concat (messages <$> alter (fun blk => {| messages := delete i (messages blk) |}) b bs)
  = views_before b i bs ++ views_after b i bs.
Proof.
  rewrite alter_block. unfold views_before, views_after. rewrite Hblock.
  rewrite fmap_app, concat_app, fmap_cons. cbn [concat messages].
  rewrite delete_take_drop. rewrite <- !app_assoc. reflexivity.
Qed.

Lemma views_without_block :
  delete i (messages blk) = [] ->
  concat (messages <$> delete b
    (alter (fun blk => {| messages := delete i (messages blk) |}) b bs))
  = views_before b i bs ++ views_after b i bs.
Proof.
  intros Hempty. rewrite <- views_without. rewrite alter_block.
  assert (length (take b bs) = b) as Hlen.
  { apply length_take_le. apply Nat.lt_le_incl. eapply lookup_lt_Some. exact Hblock. }
  rewrite delete_take_drop.
  rewrite take_app_length' by (symmetry; exact Hlen).
  replace (S b) with (length (take b bs) + 1)%nat by lia.
  rewrite drop_app_add. cbn [drop].
  rewrite !fmap_app, !concat_app, fmap_cons. cbn [concat messages]. rewrite Hempty.
  reflexivity.
Qed.

End Removal.

Lemma locate_here (view : HistoryItem) (bs : list HistoryBlock) (b i k : nat)
    (blk : HistoryBlock) :
  bs !! b = Some blk -> messages blk !! i = Some view ->
  NoDup (concat (messages <$> bs)) ->
  locate view bs k = Some ((k + b)%nat, i).
Proof.
  revert b k. induction bs as [|a bs IH]; intros b k Hblock Hview Hnodup; [discriminate|].
  rewrite fmap_cons in Hnodup. cbn [concat] in Hnodup.
  apply NoDup_app in Hnodup as (Ha & Hdisjoint & Hrest).
  cbn [locate]. destruct b as [|b]; simpl in Hblock.
  - injection Hblock as ->.
    assert (list_find (fun other => other = view) (messages blk) = Some (i, view)) as ->.
    { apply list_find_Some. split; [exact Hview|]. split; [reflexivity|].
      intros j y Hj Hlt ->.
      pose proof (NoDup_lookup _ _ _ _ Ha Hj Hview). lia. }
    rewrite Nat.add_0_r. reflexivity.
  - assert (list_find (fun other => other = view) (messages a) = None) as ->.
    { apply list_find_None. apply Forall_forall. intros y Hy ->.
      apply (Hdisjoint view Hy). apply list_elem_of_In, in_concat.
      exists (messages blk). split.
      - apply in_map_iff. exists blk. split; [reflexivity|].
        apply list_elem_of_In. eapply list_elem_of_lookup_2. exact Hblock.
      - apply list_elem_of_In. eapply list_elem_of_lookup_2. exact Hview. }
    rewrite (IH b (S k) Hblock Hview Hrest). f_equal. f_equal. lia.
Qed.

Lemma find_not_before (test : HistoryItem -> bool) (view : HistoryItem)
    (l : list HistoryItem) :
  view ∉ l -> List.find test l <> Some view.
Proof.
  intros Habsent Hfound. apply find_some in Hfound as [Hin _].
  apply Habsent, list_elem_of_In. exact Hin.
Qed.

Lemma mainViewRemoved_run (env : Env) (view : HistoryItem) (b i : nat)
    (blk : HistoryBlock) (h : History) :
  blocks h !! b = Some blk -> messages blk !! i = Some view ->
  NoDup (views h) ->
  exists h1,
    mainViewRemoved env b i view h = Done tt h1
    /\ blocks h1 = blocks h
    /\ _buildingFrontBlock h1 = _buildingFrontBlock h
    /\ effects h1 = effects h
    /\ forgets view h1.
Proof.
  intros Hblock Hview Hnodup.
  pose proof (locate_here view (blocks h) b i 0 blk Hblock Hview Hnodup) as Hloc.
  unfold views in Hnodup. rewrite (views_split view b i blk (blocks h) Hblock Hview) in Hnodup.
  apply NoDup_app in Hnodup as (_ & _ & Hafter). apply NoDup_cons in Hafter as [Hafter _].
  assert (forall next, messages blk !! S i = Some next -> next <> view) as Hnext.
  { intros next Hlook ->. apply Hafter. unfold views_after. rewrite Hblock.
    apply elem_of_app. left. apply list_elem_of_lookup. exists 0%nat.
    rewrite lookup_drop. rewrite Nat.add_0_r. exact Hlook. }
  assert (forall after front, blocks h !! S b = Some after -> head (messages after) = Some front ->
            front <> view) as Hfront.
  { intros after front Hlook Hhead ->. apply Hafter. unfold views_after. rewrite Hblock.
    apply elem_of_app. right. apply list_elem_of_In, in_concat.
    exists (messages after). split.
    - apply in_map_iff. exists after. split; [reflexivity|].
      apply list_elem_of_In, list_elem_of_lookup. exists 0%nat.
      rewrite lookup_drop, Nat.add_0_r. exact Hlook.
    - apply list_elem_of_In. destruct (messages after); [discriminate|].
      injection Hhead as ->. left. }
  destruct h as [p bs top bot bld irb orb uc um ums umc lm clm ld cd nt
                 fuv ubv sti jm lki lkid lkh lkf lku mu ty sa it fx].
  cbn [blocks] in *.
  unfold mainViewRemoved, mbind, Op_bind, get, when, modify, skip, mret, Op_ret, same_ptr.
  cbn [_joinedMessage _firstUnreadView _unreadBarView scrollTopItem].
  unfold getNextFirstUnreadMessage, getNextScrollTopItem, Expects,
    mbind, Op_bind, get, modify, skip, mret, Op_ret.
  change (0 + b)%nat with b in Hloc.
  repeat case_bool_decide; subst;
    cbn [set_joinedMessage set_unreadBarView set_firstUnreadView set_scrollTopItem
         _firstUnreadView blocks is_Some] in *;
    try (exfalso; match goal with H : ¬ is_Some _ |- _ => apply H; eexists; reflexivity end);
    cbn [mbind option_bind]; rewrite ?Hloc; rewrite ?Hblock;
    cbn [mbind option_bind set_firstUnreadView set_scrollTopItem blocks];
    try (destruct (messages blk !! S i) as [next|] eqn:Hn;
         [|destruct (bs !! S b) as [after|] eqn:Ha;
           [destruct (head (messages after)) as [front|] eqn:Hf|]]);
    (eexists; split; [reflexivity|]);
    cbn [blocks _buildingFrontBlock effects set_scrollTopItem set_unreadBarView
         set_firstUnreadView set_joinedMessage];
    (split; [reflexivity|]); (split; [reflexivity|]); (split; [reflexivity|]);
    unfold forgets;
    cbn [_joinedMessage _firstUnreadView _unreadBarView scrollTopItem];
    repeat split;
    try assumption; try discriminate;
    try (apply find_not_before; unfold views_after in Hafter; rewrite Hblock in Hafter;
         exact Hafter);
    try (intros [= ->]; eapply Hnext; eauto; fail);
    try (intros [= ->]; eapply Hfront; eauto; fail).
Qed.

Lemma forgets_cached (view : HistoryItem) (h h' : History) :
  cached h' = cached h -> forgets view h -> forgets view h'.
Proof.
  unfold cached, forgets. intros [= -> -> -> ->]. auto.
Qed.

Lemma removeBlock_run (index : nat) (blk : HistoryBlock) (h : History) :
  blocks h !! index = Some blk -> messages blk = [] ->
  exists h', removeBlock index h = Done tt h'
    /\ displayed h' = displayed (set_blocks (delete index (blocks h)) h).
Proof.
  intros Hlook Hempty. unfold removeBlock.
  unfold mbind at 1, Op_bind at 1, get at 1. cbv beta iota. rewrite Hlook.
  rewrite bool_decide_eq_true_2 by exact Hempty.
  unfold mbind at 1, Op_bind at 1. change (Expects _ _ true h) with (Done tt h). cbv beta iota.
  unfold mbind at 1, Op_bind at 1.
  match goal with
  | |- exists h', match ?m h with _ => _ end = _ /\ _ =>
    destruct (runs_unit (keeps displayed) m h ltac:(frame)) as (h1 & -> & K1)
  end.
  unfold mbind at 1, Op_bind at 1. cbn [modify].
  match goal with
  | |- exists h', ?m ?h2 = _ /\ _ =>
    destruct (runs_unit (keeps displayed) m h2 ltac:(frame)) as (h' & -> & K')
  end.
  exists h'. split; [reflexivity|]. unfold keeps in *. rewrite K'.
  pose proof (f_equal snd K1) as Kc. unfold displayed in *. cbn [snd] in Kc.
  refine (f_equal2 pair _ _); [destruct h1; reflexivity|].
  transitivity (cached h1); [destruct h1; reflexivity|].
  rewrite Kc. destruct h; reflexivity.
Qed.

Lemma delete_altered (f : HistoryBlock -> HistoryBlock) (b : nat) (bs : list HistoryBlock) :
  delete b (alter f b bs) = delete b bs.
Proof.
  revert b. induction bs as [|a bs IH]; intros [|b]; try reflexivity.
  simpl. f_equal. apply IH.
Qed.

(** X13.  Removing a view leaves nothing pointing at it.  When the window
    displays no item twice and [view] is the view at index [i] of block
    [b], [HistoryBlock::remove] finishes; the views are then the former
    ones without [view], in the same order; none of the cached pointers
    (joined message, first unread view, unread bar, scroll anchor) refers to
    [view] any more; and a block that became empty has been removed, so
    that no block is empty if none was. *)
Theorem HistoryBlock_remove_detaches (env : Env) (view : HistoryItem) (b i : nat)
    (blk : HistoryBlock) (h : History) :
  blocks h !! b = Some blk ->
  messages blk !! i = Some view ->
  NoDup (views h) ->
  Forall block_not_empty (blocks h) ->
  exists h',
    HistoryBlock_remove env b i view h = Done tt h'
    /\ views h = views_before b i (blocks h) ++ view :: views_after b i (blocks h)
    /\ views h' = views_before b i (blocks h) ++ views_after b i (blocks h)
    /\ mainView view h' = false
    /\ forgets view h'
    /\ Forall block_not_empty (blocks h').
Proof.
  intros Hblock Hview Hnodup Hfull.
  pose proof (views_split view b i blk (blocks h) Hblock Hview) as Hsplit.
  fold (views h) in Hsplit.
  destruct (mainViewRemoved_run env view b i blk h Hblock Hview Hnodup)
    as (h1 & E1 & Hb1 & _ & _ & Hforgets).
  unfold HistoryBlock_remove. unfold mbind at 1, Op_bind at 1. rewrite E1.
  unfold mbind at 1, Op_bind at 1. cbn [modify].
  unfold mbind at 1, Op_bind at 1, get at 1. cbv beta iota zeta.
  set (del := fun blk : HistoryBlock => {| messages := delete i (messages blk) |}).
  set (h2 := set_blocks (alter del b (blocks h1)) h1).
  assert (blocks h2 = alter del b (blocks h)) as Hb2
    by (unfold h2; rewrite <- Hb1; destruct h1; reflexivity).
  assert (cached h2 = cached h1) as Hc2 by (unfold h2; destruct h1; reflexivity).
  assert (blocks h2 !! b = Some (del blk)) as Hlook2.
  { rewrite Hb2, list_lookup_alter_eq, Hblock. reflexivity. }
  rewrite Hlook2. cbn [fmap option_fmap option_map default]. unfold Datatypes.id.
  change (messages (del blk)) with (delete i (messages blk)).
  assert (exists h',
    (if bool_decide (delete i (messages blk) = [])
     then removeBlock b
     else
       match delete i (messages blk) !! i with
       | Some next => call (view_previousInBlocksChanged (id next))
       | None =>
         match blocks h2 !! S b with
         | Some after =>
           match head (messages after) with
           | Some front => call (view_previousInBlocksChanged (id front))
           | None => skip
           end
         | None =>
           match last (blocks h2) ≫= (fun b => last (messages b)) with
           | Some back => call (view_nextInBlocksRemoved (id back))
           | None => skip
           end
         end
       end) h2 = Done tt h'
    /\ cached h' = cached h1
    /\ blocks h' = (if bool_decide (delete i (messages blk) = [])
                    then delete b (blocks h) else alter del b (blocks h)))
    as (h' & E & Hcached & Hblocks).
  { case_bool_decide as Hempty.
    - destruct (removeBlock_run b (del blk) h2 Hlook2 Hempty) as (h' & E & K).
      exists h'. split; [exact E|].
      pose proof (f_equal fst K) as Kb. pose proof (f_equal snd K) as Kc.
      unfold displayed in Kb, Kc. cbn [fst snd] in Kb, Kc. split.
      * rewrite Kc, <- Hc2. destruct h2; reflexivity.
      * transitivity (delete b (blocks h2));
          [rewrite Kb; destruct h2; reflexivity | rewrite Hb2; apply delete_altered].
    - match goal with
      | |- exists h', ?m h2 = _ /\ _ =>
        destruct (runs_unit (keeps displayed) m h2 ltac:(frame)) as (h' & E & K)
      end.
      exists h'. split; [exact E|]. unfold keeps in K.
      pose proof (f_equal fst K) as Kb. pose proof (f_equal snd K) as Kc.
      unfold displayed in Kb, Kc. cbn [fst snd] in Kb, Kc.
      split; [congruence|]. rewrite Kb. exact Hb2. }
  exists h'. split; [exact E|]. split; [exact Hsplit|].
  assert (views h' = views_before b i (blocks h) ++ views_after b i (blocks h)) as Hviews.
  { unfold views. rewrite Hblocks. case_bool_decide as Hempty.
    - rewrite <- (delete_altered del).
      apply (views_without_block b i blk (blocks h) Hblock Hempty).
    - apply (views_without b i blk (blocks h) Hblock). }
  split; [exact Hviews|]. split; [|split].
  - unfold mainView. rewrite Hviews. apply bool_decide_eq_false_2.
    rewrite Hsplit in Hnodup. apply NoDup_app in Hnodup as (_ & Hdisjoint & Hafter).
    apply NoDup_cons in Hafter as [Hafter _].
    intros [Hin|Hin]%elem_of_app; [|contradiction].
    apply (Hdisjoint view Hin). left.
  - apply (forgets_cached view h1 h' Hcached Hforgets).
  - rewrite Hblocks. case_bool_decide as Hempty.
    + apply Forall_delete. exact Hfull.
    + apply Forall_alter; [exact Hfull|]. intros x Hx _.
      assert (x = blk) as -> by congruence. exact Hempty.
Qed.

Lemma HistoryBlock_remove_detaches_witness :
  exists h',
    HistoryBlock_remove sample_env 0 1 (unread_item 4 6) first_unread_window = Done tt h'
    /\ views h' = [plain_item 3 5; unread_item 5 7]
    /\ forgets (unread_item 4 6) h'.
Proof.
  destruct (HistoryBlock_remove_detaches sample_env (unread_item 4 6) 0 1
              {| messages := [plain_item 3 5; unread_item 4 6; unread_item 5 7] |}
              first_unread_window)
    as (h' & E & _ & Hviews & _ & Hforgets & _).
  - reflexivity.
  - reflexivity.
  - apply (bool_decide_unpack _). vm_compute. exact I.
  - repeat constructor; discriminate.
  - exists h'. split; [exact E|]. split; [exact Hviews | exact Hforgets].
Defined.

(** ** Unloading and clearing *)

Lemma unloadBlocks_run (env : Env) (h : History) :
  exists h',
    unloadBlocks env h = Done tt h'
    /\ blocks h' = []
    /\ (_loadedAtTop h' = false /\ _loadedAtBottom h' = false)
    /\ cached h' = (None, None, None, None)
    /\ lastKeyboardInited h' = false
    /\ summary h' = summary h
    /\ effects h' = effects h ++ [owner_notifyHistoryUnloaded; owner_notifyHistoryChangeDelayed].
Proof.
  unfold unloadBlocks, clearBlocks, forgetScrollState, update_chat, update_mgInfo,
    mbind, Op_bind, get, modify, call, when, skip, mret, Op_ret.
  destruct h as [[pid kind cw] bs top bot bld irb orb uc um ums umc lm clm ld cd nt
                 fuv ubv sti jm lki lkid lkh lkf lku mu ty sa it fx].
  cbn [scrollTopItem set_unreadBarView set_firstUnreadView set_joinedMessage].
  destruct sti as [anchor|]; destruct kind as [user|chat|channel];
    (eexists; split; [reflexivity|]);
    cbn; rewrite <- ?app_assoc; repeat split.
Qed.

(** X14.  Unloading the blocks keeps the summary of the conversation.
    [unloadBlocks] always finishes; afterwards the window is empty, not
    loaded at either edge, caches no pointer to a view and has to look for
    its keyboard again, while the last message, the chat-list projection,
    the unread counter and mark, the read cursors, the unread mentions, the
    drafts, the notification queue and the item registry are as before; the
    owner is told of the unloading and of the change, in this order. *)
Theorem unloadBlocks_keeps_summary (env : Env) (h : History) :
  exists h',
    unloadBlocks env h = Done tt h'
    /\ isEmpty h' = true
    /\ loadedAtTop h' = false /\ loadedAtBottom h' = false
    /\ cached h' = (None, None, None, None)
    /\ lastKeyboardInited h' = false
    /\ summary h' = summary h
    /\ effects h' = effects h ++ [owner_notifyHistoryUnloaded; owner_notifyHistoryChangeDelayed].
Proof.
  destruct (unloadBlocks_run env h) as (h' & E & Hb & [Ht Hbot] & Hc & Hk & Hs & Hfx).
  exists h'. unfold isEmpty, loadedAtTop, loadedAtBottom. rewrite Hb.
  repeat split; assumption.
Qed.

(** X15.  A lone part of a media group is dropped once.
    [removeOrphanMediaGroupPart] answers whether the window, loaded at the
    bottom but not at the top, displays exactly one item and that item
    belongs to a media group; if so it unloads the blocks and keeps the
    summary of the conversation, otherwise it changes nothing; called
    again right after, it answers no and changes nothing. *)
Theorem removeOrphanMediaGroupPart_once (env : Env) (h : History) :
  exists h',
    removeOrphanMediaGroupPart env h = Done (hasOrphanMediaGroupPart h) h'
    /\ (hasOrphanMediaGroupPart h = false -> h' = h)
    /\ (hasOrphanMediaGroupPart h = true ->
        (exists part, views h = [part] /\ hasGroupId part = true)
        /\ isEmpty h' = true /\ summary h' = summary h)
    /\ removeOrphanMediaGroupPart env h' = Done false h'.
Proof.
  unfold removeOrphanMediaGroupPart at 1. unfold mbind at 1, Op_bind at 1, get at 1.
  cbv beta iota.
  destruct (hasOrphanMediaGroupPart h) eqn:Horphan.
  - destruct (unloadBlocks_run env h) as (h' & E & Hb & _ & _ & _ & Hs & _).
    unfold mbind, Op_bind. rewrite E. exists h'. split; [reflexivity|].
    split; [discriminate|]. split.
    + intros _. split; [|split; [unfold isEmpty; rewrite Hb; reflexivity | exact Hs]].
      unfold hasOrphanMediaGroupPart in Horphan. unfold views.
      destruct (loadedAtTop h || negb (loadedAtBottom h)); [discriminate|].
      destruct (blocks h) as [|[[|part [|]]] [|]]; try discriminate.
      exists part. split; [reflexivity | exact Horphan].
    + unfold removeOrphanMediaGroupPart, mbind, Op_bind, get.
      assert (hasOrphanMediaGroupPart h' = false) as ->; [|reflexivity].
      unfold hasOrphanMediaGroupPart. rewrite Hb.
      destruct (loadedAtTop h' || negb (loadedAtBottom h')); reflexivity.
  - exists h. split; [reflexivity|]. split; [reflexivity|]. split; [discriminate|].
    unfold removeOrphanMediaGroupPart, mbind, Op_bind, get. rewrite Horphan. reflexivity.
Qed.

(** ** What an operation leaves alone when it finishes *)

Lemma runs_preserves {A B} (f : History -> B) (m : Op A) :
  runs (keeps f) m -> preserves f m.
Proof.
  intros Hm h a h' E. destruct (Hm h) as (a' & h'' & E' & K & _).
  rewrite E in E'. injection E' as <- <-. exact K.
Qed.

Lemma preserves_bind {A B C} (f : History -> C) (m : Op A) (k : A -> Op B) :
  preserves f m -> (forall a, preserves f (k a)) -> preserves f (m ≫= k).
Proof.
  intros Hm Hk h b h' E. unfold mbind, Op_bind in E.
  destruct (m h) as [a h1|v] eqn:E1; [|discriminate].
  rewrite (Hk a h1 b h' E). exact (Hm h a h1 E1).
Qed.

Lemma preserves_get {A C} (f : History -> C) (k : History -> Op A) :
  (forall h, preserves f (k h)) -> preserves f (get ≫= k).
Proof. intros Hk h a h' E. exact (Hk h h a h' E). Qed.

Lemma preserves_gets {A B C} (f : History -> C) (g : History -> B) (k : B -> Op A) :
  (forall b, preserves f (k b)) -> preserves f (gets g ≫= k).
Proof. intros Hk h a h' E. exact (Hk (g h) h a h' E). Qed.

Lemma preserves_ret {A C} (f : History -> C) (a : A) : preserves f (mret a).
Proof. intros h a' h' [= _ <-]. reflexivity. Qed.

Lemma preserves_modify {C} (f : History -> C) (g : History -> History) :
  (forall h, f (g h) = f h) -> preserves f (modify g).
Proof. intros Hg h a h' [= _ <-]. apply Hg. Qed.

Lemma preserves_Expects {C} (f : History -> C) fn cond (b : bool) :
  preserves f (Expects fn cond b).
Proof. destruct b; intros h a h' E; [injection E as _ <-; reflexivity | discriminate]. Qed.

Lemma preserves_when {C} (f : History -> C) (b : bool) (m : Op unit) :
  preserves f m -> preserves f (when b m).
Proof. intros Hm. destruct b; [exact Hm | apply preserves_ret]. Qed.

Lemma preserves_for_each {A C} (f : History -> C) (xs : list A) (body : A -> Op unit) :
  (forall x, preserves f (body x)) -> preserves f (for_each xs body).
Proof.
  intros Hb. induction xs as [|x xs IH]; simpl.
  - apply preserves_ret.
  - apply preserves_bind; [apply Hb | intros _; exact IH].
Qed.

(** One step of a proof of [preserves]. *)
Ltac preserve_step :=
  lazymatch goal with
  | |- preserves _ (get ≫= _) => apply preserves_get; intro
  | |- preserves _ (gets _ ≫= _) => apply preserves_gets; intro
  | |- preserves _ (mret _) => apply preserves_ret
  | |- preserves _ skip => apply preserves_ret
  | |- preserves _ (modify _) => apply preserves_modify; intro; reflexivity
  | |- preserves _ (call _) => apply preserves_modify; intro; reflexivity
  | |- preserves _ (Expects _ _ _) => apply preserves_Expects
  | |- preserves _ (when _ _) => apply preserves_when
  | |- preserves _ (for_each _ _) => apply preserves_for_each; intro
  | |- preserves _ (if ?b then _ else _) => destruct b
  | |- preserves _ (match ?x with _ => _ end) => destruct x
  | |- preserves _ (let _ := _ in _) => cbv zeta
  | |- preserves _ (_ ≫= _) => apply preserves_bind; [ | intro]
  | |- _ => solve [ eauto with preserve ]
  end.

Ltac preserve := repeat preserve_step.

Create HintDb preserve discriminated.

(** ** What ingestion, reading and unloading never change *)

Lemma update_chat_settled f : preserves settled (update_chat f).
Proof.
  apply preserves_modify. intros h. unfold settled.
  destruct h as [p bs top bot bld irb orb uc um ums umc lm clm ld cd nt fuv ubv sti jm
                 lki lkid lkh lkf lku mu ty sa it fx].
  destruct p as [pid [user|chat|channel] cw]; reflexivity.
Qed.

Lemma update_mgInfo_settled f : preserves settled (update_mgInfo f).
Proof.
  apply preserves_modify. intros h. unfold settled.
  destruct h as [p bs top bot bld irb orb uc um ums umc lm clm ld cd nt fuv ubv sti jm
                 lki lkid lkh lkf lku mu ty sa it fx].
  destruct p as [pid [user|chat|[[mg|] ? ? ? ?]] cw]; reflexivity.
Qed.

#[local] Hint Resolve update_chat_settled update_mgInfo_settled : preserve.

Lemma clearLastKeyboard_settled env :
  preserves settled (clearLastKeyboard env).
Proof. unfold clearLastKeyboard. preserve. Qed.

#[local] Hint Resolve clearLastKeyboard_settled : preserve.

Lemma setUnreadMentionsCount_settled env count :
  preserves settled (setUnreadMentionsCount env count).
Proof. unfold setUnreadMentionsCount. preserve. Qed.

#[local] Hint Resolve setUnreadMentionsCount_settled : preserve.

Lemma addToUnreadMentions_settled env msgId type :
  preserves settled (addToUnreadMentions env msgId type).
Proof. unfold addToUnreadMentions. preserve. Qed.

#[local] Hint Resolve addToUnreadMentions_settled : preserve.

Lemma setInboxReadTill_settled upTo :
  preserves settled (setInboxReadTill upTo).
Proof. unfold setInboxReadTill. preserve. Qed.

#[local] Hint Resolve setInboxReadTill_settled : preserve.

Lemma setOutboxReadTill_settled upTo :
  preserves settled (setOutboxReadTill upTo).
Proof. unfold setOutboxReadTill. preserve. Qed.

#[local] Hint Resolve setOutboxReadTill_settled : preserve.

Lemma calculateFirstUnreadMessage_settled env :
  preserves settled (calculateFirstUnreadMessage env).
Proof. unfold calculateFirstUnreadMessage. preserve. Qed.

#[local] Hint Resolve calculateFirstUnreadMessage_settled : preserve.

Lemma setUnreadCount_settled env n :
  preserves settled (setUnreadCount env n).
Proof. unfold setUnreadCount. preserve. Qed.

#[local] Hint Resolve setUnreadCount_settled : preserve.

Lemma changeUnreadCount_settled env delta :
  preserves settled (changeUnreadCount env delta).
Proof. unfold changeUnreadCount. preserve. Qed.

#[local] Hint Resolve changeUnreadCount_settled : preserve.

Lemma setChatListMessage_settled env item :
  preserves settled (setChatListMessage env item).
Proof. unfold setChatListMessage. preserve. Qed.

#[local] Hint Resolve setChatListMessage_settled : preserve.

Lemma setChatListMessageFromLast_settled env :
  preserves settled (setChatListMessageFromLast env).
Proof. unfold setChatListMessageFromLast. preserve. Qed.

#[local] Hint Resolve setChatListMessageFromLast_settled : preserve.

Lemma setFakeChatListMessage_settled :
  preserves settled setFakeChatListMessage.
Proof. unfold setFakeChatListMessage. preserve. Qed.

#[local] Hint Resolve setFakeChatListMessage_settled : preserve.

Lemma requestChatListMessage_settled env :
  preserves settled (requestChatListMessage env).
Proof. unfold requestChatListMessage. preserve. Qed.

#[local] Hint Resolve requestChatListMessage_settled : preserve.

Lemma setLastMessage_settled env item :
  preserves settled (setLastMessage env item).
Proof. unfold setLastMessage. preserve. Qed.

#[local] Hint Resolve setLastMessage_settled : preserve.

Lemma updateSendActionNeedsAnimating_settled env now force :
  preserves settled (updateSendActionNeedsAnimating env now force).
Proof. unfold updateSendActionNeedsAnimating. preserve. Qed.

#[local] Hint Resolve updateSendActionNeedsAnimating_settled : preserve.

Lemma clearSendAction_settled env user :
  preserves settled (clearSendAction env user).
Proof. unfold clearSendAction. preserve. Qed.

#[local] Hint Resolve clearSendAction_settled : preserve.

Lemma destroyUnreadBar_settled :
  preserves settled destroyUnreadBar.
Proof. unfold destroyUnreadBar. preserve. Qed.

#[local] Hint Resolve destroyUnreadBar_settled : preserve.

Lemma outboxRead_settled env upTo :
  preserves settled (outboxRead env upTo).
Proof. unfold outboxRead. preserve. Qed.

#[local] Hint Resolve outboxRead_settled : preserve.

Lemma outboxRead_item_settled env item :
  preserves settled (outboxRead_item env item).
Proof. unfold outboxRead_item. preserve. Qed.

#[local] Hint Resolve outboxRead_item_settled : preserve.

Lemma inboxRead_settled env upTo :
  preserves settled (inboxRead env upTo).
Proof. unfold inboxRead. preserve. Qed.

#[local] Hint Resolve inboxRead_settled : preserve.

Lemma inboxRead_item_settled env item :
  preserves settled (inboxRead_item env item).
Proof. unfold inboxRead_item. preserve. Qed.

#[local] Hint Resolve inboxRead_item_settled : preserve.

Lemma newItemAdded_settled env item :
  preserves settled (newItemAdded env item).
Proof. unfold newItemAdded. preserve. Qed.

#[local] Hint Resolve newItemAdded_settled : preserve.

Lemma mgInfo_addBot_settled user :
  preserves settled (mgInfo_addBot user).
Proof. unfold mgInfo_addBot. preserve. Qed.

#[local] Hint Resolve mgInfo_addBot_settled : preserve.

Lemma prepareBlockForAddingItem_settled :
  preserves settled prepareBlockForAddingItem.
Proof. unfold prepareBlockForAddingItem. preserve. Qed.

#[local] Hint Resolve prepareBlockForAddingItem_settled : preserve.

Lemma addItemToBlock_settled item :
  preserves settled (addItemToBlock item).
Proof. unfold addItemToBlock. preserve. Qed.

#[local] Hint Resolve addItemToBlock_settled : preserve.

Lemma startBuildingFrontBlock_settled n :
  preserves settled (startBuildingFrontBlock n).
Proof. unfold startBuildingFrontBlock. preserve. Qed.

#[local] Hint Resolve startBuildingFrontBlock_settled : preserve.

Lemma finishBuildingFrontBlock_settled :
  preserves settled finishBuildingFrontBlock.
Proof. unfold finishBuildingFrontBlock. preserve. Qed.

#[local] Hint Resolve finishBuildingFrontBlock_settled : preserve.

Lemma getNextFirstUnreadMessage_settled env :
  preserves settled (getNextFirstUnreadMessage env).
Proof. unfold getNextFirstUnreadMessage. preserve. Qed.

#[local] Hint Resolve getNextFirstUnreadMessage_settled : preserve.

Lemma getNextScrollTopItem_settled b i :
  preserves settled (getNextScrollTopItem b i).
Proof. unfold getNextScrollTopItem. preserve. Qed.

#[local] Hint Resolve getNextScrollTopItem_settled : preserve.

Lemma mainViewRemoved_settled env b i view :
  preserves settled (mainViewRemoved env b i view).
Proof. unfold mainViewRemoved. preserve. Qed.

#[local] Hint Resolve mainViewRemoved_settled : preserve.

Lemma removeBlock_settled index :
  preserves settled (removeBlock index).
Proof. unfold removeBlock. preserve. Qed.

#[local] Hint Resolve removeBlock_settled : preserve.

Lemma HistoryBlock_remove_settled env b i view :
  preserves settled (HistoryBlock_remove env b i view).
Proof. unfold HistoryBlock_remove. preserve. Qed.

#[local] Hint Resolve HistoryBlock_remove_settled : preserve.

Lemma removeMainView_settled env item :
  preserves settled (removeMainView env item).
Proof. unfold removeMainView. preserve. Qed.

#[local] Hint Resolve removeMainView_settled : preserve.

Lemma forgetScrollState_settled :
  preserves settled forgetScrollState.
Proof. unfold forgetScrollState. preserve. Qed.

#[local] Hint Resolve forgetScrollState_settled : preserve.

Lemma addNewItem_keyboard_settled env item :
  preserves settled (addNewItem_keyboard env item).
Proof. unfold addNewItem_keyboard. preserve. Qed.

#[local] Hint Resolve addNewItem_keyboard_settled : preserve.

Lemma addNewItem_authors_settled user :
  preserves settled (addNewItem_authors user).
Proof. unfold addNewItem_authors. preserve. Qed.

#[local] Hint Resolve addNewItem_authors_settled : preserve.

Lemma addNewItem_settled env item unread :
  preserves settled (addNewItem env item unread).
Proof. unfold addNewItem. preserve. Qed.

#[local] Hint Resolve addNewItem_settled : preserve.

Lemma addNewInTheMiddle_settled item b i :
  preserves settled (addNewInTheMiddle item b i).
Proof. unfold addNewInTheMiddle. preserve. Qed.

#[local] Hint Resolve addNewInTheMiddle_settled : preserve.

Lemma generateJoinedMessage_settled env d who :
  preserves settled (generateJoinedMessage env d who).
Proof. unfold generateJoinedMessage. preserve. Qed.

#[local] Hint Resolve generateJoinedMessage_settled : preserve.

Lemma insertJoinedMessage_settled env unread :
  preserves settled (insertJoinedMessage env unread).
Proof. unfold insertJoinedMessage. preserve. Qed.

#[local] Hint Resolve insertJoinedMessage_settled : preserve.

Lemma checkJoinedMessage_setLast_settled env :
  preserves settled (checkJoinedMessage_setLast env).
Proof. unfold checkJoinedMessage_setLast. preserve. Qed.

#[local] Hint Resolve checkJoinedMessage_setLast_settled : preserve.

Lemma checkJoinedMessage_settled env createUnread :
  preserves settled (checkJoinedMessage env createUnread).
Proof. unfold checkJoinedMessage. preserve. Qed.

#[local] Hint Resolve checkJoinedMessage_settled : preserve.

Lemma HistoryItem_Create_settled message :
  preserves settled (HistoryItem_Create message).
Proof. unfold HistoryItem_Create. preserve. Qed.

#[local] Hint Resolve HistoryItem_Create_settled : preserve.

Lemma createItem_settled env message detach :
  preserves settled (createItem env message detach).
Proof. unfold createItem. preserve. Qed.

#[local] Hint Resolve createItem_settled : preserve.

Lemma createItems_loop_settled env messages :
  preserves settled (createItems_loop env messages).
Proof.
  induction messages as [|message rest IH]; simpl; [apply preserves_ret|].
  apply preserves_bind; [apply createItem_settled|]. intros created.
  apply preserves_bind; [exact IH|]. intros result. apply preserves_ret.
Qed.

#[local] Hint Resolve createItems_loop_settled : preserve.

Lemma createItems_settled env data :
  preserves settled (createItems env data).
Proof. unfold createItems. preserve. Qed.

#[local] Hint Resolve createItems_settled : preserve.

Lemma addToHistory_settled env msg :
  preserves settled (addToHistory env msg).
Proof. unfold addToHistory. preserve. Qed.

#[local] Hint Resolve addToHistory_settled : preserve.

Lemma addEdgesToSharedMedia_settled env :
  preserves settled (addEdgesToSharedMedia env).
Proof. unfold addEdgesToSharedMedia. preserve. Qed.

#[local] Hint Resolve addEdgesToSharedMedia_settled : preserve.

Lemma addToSharedMedia_settled env added :
  preserves settled (addToSharedMedia env added).
Proof. unfold addToSharedMedia. preserve. Qed.

#[local] Hint Resolve addToSharedMedia_settled : preserve.

Lemma HistoryItem_addToUnreadMentions_settled env item type :
  preserves settled (HistoryItem_addToUnreadMentions env item type).
Proof. unfold HistoryItem_addToUnreadMentions. preserve. Qed.

#[local] Hint Resolve HistoryItem_addToUnreadMentions_settled : preserve.

Lemma checkAddAllToUnreadMentions_settled env :
  preserves settled (checkAddAllToUnreadMentions env).
Proof. unfold checkAddAllToUnreadMentions. preserve. Qed.

#[local] Hint Resolve checkAddAllToUnreadMentions_settled : preserve.

Lemma checkLastMessage_settled env :
  preserves settled (checkLastMessage env).
Proof. unfold checkLastMessage. preserve. Qed.

#[local] Hint Resolve checkLastMessage_settled : preserve.

Lemma setKeyboardFrom_settled item :
  preserves settled (setKeyboardFrom item).
Proof. unfold setKeyboardFrom. preserve. Qed.

#[local] Hint Resolve setKeyboardFrom_settled : preserve.

Lemma addItemsToLists_keyboard_settled env item :
  preserves settled (addItemsToLists_keyboard env item).
Proof. unfold addItemsToLists_keyboard. preserve. Qed.

#[local] Hint Resolve addItemsToLists_keyboard_settled : preserve.

Lemma addItemsToLists_settled env added :
  preserves settled (addItemsToLists env added).
Proof. unfold addItemsToLists. preserve. Qed.

#[local] Hint Resolve addItemsToLists_settled : preserve.

Lemma clearBlocks_settled env leaveItems :
  preserves settled (clearBlocks env leaveItems).
Proof. unfold clearBlocks. preserve. Qed.

#[local] Hint Resolve clearBlocks_settled : preserve.

Lemma unloadBlocks_settled env :
  preserves settled (unloadBlocks env).
Proof. unfold unloadBlocks. preserve. Qed.

#[local] Hint Resolve unloadBlocks_settled : preserve.

Lemma removeOrphanMediaGroupPart_settled env :
  preserves settled (removeOrphanMediaGroupPart env).
Proof. unfold removeOrphanMediaGroupPart. preserve. Qed.

#[local] Hint Resolve removeOrphanMediaGroupPart_settled : preserve.

Lemma applyServiceChanges_joined_settled user :
  preserves settled (applyServiceChanges_joined user).
Proof. unfold applyServiceChanges_joined. preserve. Qed.

#[local] Hint Resolve applyServiceChanges_joined_settled : preserve.

Lemma applyServiceChanges_settled env item action :
  preserves settled (applyServiceChanges env item action).
Proof. unfold applyServiceChanges. preserve. Qed.

#[local] Hint Resolve applyServiceChanges_settled : preserve.

Lemma applyMessageChanges_settled env item data :
  preserves settled (applyMessageChanges env item data).
Proof. unfold applyMessageChanges. preserve. Qed.

#[local] Hint Resolve applyMessageChanges_settled : preserve.

Lemma checkForLoadedAtTop_settled env added :
  preserves settled (checkForLoadedAtTop env added).
Proof. unfold checkForLoadedAtTop. preserve. Qed.

#[local] Hint Resolve checkForLoadedAtTop_settled : preserve.

Lemma addNewToLastBlock_settled env msg type :
  preserves settled (addNewToLastBlock env msg type).
Proof. unfold addNewToLastBlock. preserve. Qed.

#[local] Hint Resolve addNewToLastBlock_settled : preserve.

Lemma addNewMessage_settled env msg type :
  preserves settled (addNewMessage env msg type).
Proof. unfold addNewMessage. preserve. Qed.

#[local] Hint Resolve addNewMessage_settled : preserve.

Lemma addOlderSlice_settled env slice :
  preserves settled (addOlderSlice env slice).
Proof. unfold addOlderSlice. preserve. Qed.

#[local] Hint Resolve addOlderSlice_settled : preserve.

Lemma removeNotification_settled item :
  preserves settled (removeNotification item).
Proof. unfold removeNotification. preserve. Qed.

#[local] Hint Resolve removeNotification_settled : preserve.

Lemma skipNotification_settled :
  preserves settled skipNotification.
Proof. unfold skipNotification. preserve. Qed.

#[local] Hint Resolve skipNotification_settled : preserve.

Lemma popNotification_settled item :
  preserves settled (popNotification item).
Proof. unfold popNotification. preserve. Qed.

#[local] Hint Resolve popNotification_settled : preserve.

Lemma clearNotifications_settled :
  preserves settled clearNotifications.
Proof. unfold clearNotifications. preserve. Qed.

#[local] Hint Resolve clearNotifications_settled : preserve.

Lemma eraseFromUnreadMentions_settled env msgId :
  preserves settled (eraseFromUnreadMentions env msgId).
Proof. unfold eraseFromUnreadMentions. preserve. Qed.

#[local] Hint Resolve eraseFromUnreadMentions_settled : preserve.

Lemma readInbox_settled env :
  preserves settled (readInbox env).
Proof. unfold readInbox. preserve. Qed.

#[local] Hint Resolve readInbox_settled : preserve.

Lemma unknownMessageDeleted_settled env messageId :
  preserves settled (unknownMessageDeleted env messageId).
Proof. unfold unknownMessageDeleted. preserve. Qed.

#[local] Hint Resolve unknownMessageDeleted_settled : preserve.

Lemma changedInChatListHook_settled listIsAll added :
  preserves settled (changedInChatListHook listIsAll added).
Proof. unfold changedInChatListHook. preserve. Qed.

#[local] Hint Resolve changedInChatListHook_settled : preserve.

Lemma addNewerSlice_settled env slice :
  preserves settled (addNewerSlice env slice).
Proof. unfold addNewerSlice. preserve. Qed.

#[local] Hint Resolve addNewerSlice_settled : preserve.

Lemma History_clear_settled env :
  preserves settled (History_clear env).
Proof. unfold History_clear. exact (clearBlocks_settled env false). Qed.

#[local] Hint Resolve History_clear_settled : preserve.


(** ** Ingestion *)

(** X17.  A message without an id is ignored: whatever the type of the
    ingestion and the state of the window, [addNewMessage] returns no item
    and changes nothing. *)
Theorem addNewMessage_without_id (env : Env) (msg : MTPMessage) (type : NewMessageType)
    (h : History) :
  IdFromMessage msg = 0 ->
  addNewMessage env msg type h = Done None h.
Proof.
  intros Hid.
  assert (forall detach, createItem env msg detach h = Done None h) as Hcreate.
  { intros detach. unfold createItem. rewrite Hid. reflexivity. }
  unfold addNewMessage, addToHistory, addNewToLastBlock, mbind, Op_bind, get.
  destruct type;
    repeat first [rewrite bool_decide_eq_true_2 by reflexivity
                 | rewrite bool_decide_eq_false_2 by discriminate];
    cbn [negb Expects skip mret Op_ret];
    try (destruct (negb (loadedAtBottom h) || bool_decide (is_Some (migrateTo (peer h)))));
    rewrite ?Hcreate; reflexivity.
Qed.

Lemma addNewMessage_without_id_witness :
  addNewMessage sample_env (incoming_message 0 5) NewMessageUnread (empty_window user_peer)
  = Done None (empty_window user_peer).
Proof. apply addNewMessage_without_id. reflexivity. Defined.

(** X18.  An id is given one item only.  When the registry already tracks
    an item under the id of the message, ingesting the message as an
    existing one returns that item and creates nothing: the registry and
    the window are unchanged, and the only call made is the refresh of the
    item's media, for a plain message. *)
Theorem addNewMessage_existing_reuses (env : Env) (msg : MTPMessage)
    (existing : HistoryItem) (h : History) :
  IdFromMessage msg <> 0 ->
  items h !! IdFromMessage msg = Some existing ->
  addNewMessage env msg NewMessageExisting h
  = Done (Some existing)
      match mtp_type msg with
      | mtpc_message => set_effects (effects h ++ [item_updateSentMedia (id existing)]) h
      | _ => h
      end.
Proof.
  intros Hid Htracked.
  unfold addNewMessage. rewrite bool_decide_eq_true_2 by reflexivity.
  unfold addToHistory, createItem, mbind, Op_bind, get.
  apply Z.eqb_neq in Hid. rewrite Hid, Htracked. cbn [when skip mret Op_ret].
  destruct (mtp_type msg); reflexivity.
Qed.

Lemma addNewMessage_existing_reuses_witness :
  addNewMessage sample_env (incoming_message 7 9) NewMessageExisting
    (set_items {[ 7 := plain_item 7 8 ]} (empty_window user_peer))
  = Done (Some (plain_item 7 8))
      (set_effects [item_updateSentMedia 7]
         (set_items {[ 7 := plain_item 7 8 ]} (empty_window user_peer))).
Proof.
  apply (addNewMessage_existing_reuses sample_env (incoming_message 7 9) (plain_item 7 8)).
  - discriminate.
  - reflexivity.
Defined.

(** ** The last message and the chat list *)

(** X19.  A new last message reaches the chat list.  In a conversation
    that has not migrated to a supergroup, when [setLastMessage] is given
    an item that is not a migration event, is not the last message already,
    and is not older than a local (not yet confirmed) last message, the item
    becomes the last message and the chat-list projection, and the
    chat-list time is set to its date; nothing outside the projection
    changes. *)
Theorem setLastMessage_reaches_chat_list (env : Env) (item : HistoryItem) (h : History) :
  migrateTo (peer h) = None ->
  isGroupMigrate item = false ->
  _lastMessage h <> Some (Some item) ->
  (forall current, _lastMessage h = Some (Some current) ->
     IsServerMsgId env (id current) = true \/ date current <= date item) ->
  exists h',
    setLastMessage env (Some item) h = Done tt h'
    /\ lastMessage h' = Some item
    /\ chatListMessage h' = Some item
    /\ effects h' = effects h ++ [setChatListTimeId (date item)]
    /\ outside_projection h' = outside_projection h.
Proof.
  intros Hmigrate Hevent Hnew Hlocal.
  unfold setLastMessage. unfold mbind at 1, Op_bind at 1, get at 1. cbv beta iota zeta.
  assert (match _lastMessage h with
          | Some current =>
            same_ptr current (Some item)
            || match current, Some item with
               | Some c, Some i => negb (IsServerMsgId env (id c)) && (date c >? date i)
               | _, _ => false
               end
          | None => false
          end = false) as ->.
  { destruct (_lastMessage h) as [[current|]|] eqn:Hlast; [|reflexivity|reflexivity].
    unfold same_ptr. rewrite bool_decide_eq_false_2 by congruence.
    destruct (Hlocal current eq_refl) as [Hserver|Hdate].
    - rewrite Hserver. reflexivity.
    - destruct (Z.gtb_spec (date current) (date item)); [lia|]. apply andb_false_r. }
  rewrite Hmigrate.
  destruct h as [p bs top bot bld irb orb uc um ums umc lm clm ld cd nt
                 fuv ubv sti jm lki lkid lkh lkf lku mu ty sa it fx].
  cbn [peer] in Hmigrate.
  unfold requestChatListMessage, setChatListMessageFromLast, setChatListMessage,
    computeChatListMessageFromLast, lastMessageKnown, chatListMessageKnown,
    mbind, Op_bind, get, modify, call, when, skip, mret, Op_ret.
  cbn [set_lastMessage set_chatListMessage _lastMessage _chatListMessage peer
       bool_decide decide_rel negb is_Some].
  cbn. rewrite Hevent. cbn. rewrite Hmigrate.
  rewrite bool_decide_eq_false_2 by discriminate.
  eexists. split; [reflexivity|]. repeat split.
Qed.

Lemma setLastMessage_reaches_chat_list_witness :
  exists h',
    setLastMessage sample_env (Some (plain_item 9 12)) two_unread_window = Done tt h'
    /\ lastMessage h' = Some (plain_item 9 12)
    /\ chatListMessage h' = Some (plain_item 9 12)
    /\ effects h' = effects two_unread_window ++ [setChatListTimeId (date (plain_item 9 12))]
    /\ outside_projection h' = outside_projection two_unread_window.
Proof.
  apply (setLastMessage_reaches_chat_list sample_env (plain_item 9 12) two_unread_window).
  - reflexivity.
  - reflexivity.
  - vm_compute. discriminate.
  - intros current H. discriminate H.
Defined.


(** ** A live message at the bottom edge *)

Lemma applyServiceChanges_joined_layout user :
  runs (keeps layout) (applyServiceChanges_joined user).
Proof. unfold applyServiceChanges_joined. frame. Qed.

#[local] Hint Resolve applyServiceChanges_joined_layout : frame.

Lemma applyServiceChanges_layout env item action :
  runs (keeps layout) (applyServiceChanges env item action).
Proof. unfold applyServiceChanges. frame. Qed.

#[local] Hint Resolve applyServiceChanges_layout : frame.

Lemma applyMessageChanges_layout env item data :
  runs (keeps layout) (applyMessageChanges env item data).
Proof. unfold applyMessageChanges. frame. Qed.

(** The registry of items is the owner's; of the operations below only the
    creation of an item writes to it. *)

Lemma update_chat_registry f : preserves items (update_chat f).
Proof.
  apply preserves_modify. intros h. destruct (peer_kind (peer h)); reflexivity.
Qed.

Lemma update_mgInfo_registry f : preserves items (update_mgInfo f).
Proof.
  apply preserves_modify. intros h. destruct (peer_kind (peer h)); reflexivity.
Qed.

#[local] Hint Resolve update_chat_registry update_mgInfo_registry : preserve.

Lemma clearLastKeyboard_registry env : preserves items (clearLastKeyboard env).
Proof. unfold clearLastKeyboard. preserve. Qed.

Lemma mgInfo_addBot_registry user : preserves items (mgInfo_addBot user).
Proof. unfold mgInfo_addBot. preserve. Qed.

#[local] Hint Resolve clearLastKeyboard_registry mgInfo_addBot_registry : preserve.

Lemma keeps_core_items h h' : keeps core h h' -> keeps items h h'.
Proof. unfold keeps, core. intros H. inversion H. congruence. Qed.

Lemma setLastMessage_registry env item : preserves items (setLastMessage env item).
Proof.
  apply runs_preserves.
  eapply yields_weaken; [apply keeps_core_items | apply setLastMessage_core].
Qed.

Lemma newItemAdded_registry env item : preserves items (newItemAdded env item).
Proof.
  apply runs_preserves.
  eapply yields_weaken; [apply keeps_core_items | apply newItemAdded_core].
Qed.

Lemma addNewItem_authors_registry user : preserves items (addNewItem_authors user).
Proof. unfold addNewItem_authors. preserve. Qed.

Lemma addNewItem_keyboard_registry env item :
  preserves items (addNewItem_keyboard env item).
Proof. unfold addNewItem_keyboard. preserve. Qed.

Lemma prepareBlockForAddingItem_registry : preserves items prepareBlockForAddingItem.
Proof. unfold prepareBlockForAddingItem. preserve. Qed.

#[local] Hint Resolve setLastMessage_registry newItemAdded_registry
  addNewItem_authors_registry addNewItem_keyboard_registry
  prepareBlockForAddingItem_registry : preserve.

Lemma addItemToBlock_registry item : preserves items (addItemToBlock item).
Proof. unfold addItemToBlock. preserve. Qed.

#[local] Hint Resolve addItemToBlock_registry : preserve.

Lemma addNewItem_registry env item unread : preserves items (addNewItem env item unread).
Proof. unfold addNewItem. preserve. Qed.

Lemma applyServiceChanges_joined_registry user :
  preserves items (applyServiceChanges_joined user).
Proof. unfold applyServiceChanges_joined. preserve. Qed.

#[local] Hint Resolve applyServiceChanges_joined_registry : preserve.

Lemma applyServiceChanges_registry env item action :
  preserves items (applyServiceChanges env item action).
Proof. unfold applyServiceChanges. preserve. Qed.

#[local] Hint Resolve applyServiceChanges_registry : preserve.

Lemma applyMessageChanges_registry env item data :
  preserves items (applyMessageChanges env item data).
Proof. unfold applyMessageChanges. preserve. Qed.

Lemma createItem_fresh (env : Env) (msg : MTPMessage) (detach : bool) (h : History) :
  IdFromMessage msg <> 0 ->
  items h !! IdFromMessage msg = None ->
  createItem env msg detach h
  = Done (Some (mtp_item msg))
      (set_items (<[IdFromMessage msg := mtp_item msg]> (items h)) h).
Proof.
  intros Hid Hfresh. unfold createItem, mbind, Op_bind, get.
  apply Z.eqb_neq in Hid. rewrite Hid, Hfresh. reflexivity.
Qed.

(** X20.  A live message at the bottom edge becomes the newest view.  In a
    private conversation loaded at its bottom edge, with no front block
    being built, an unread message whose id is not tracked yet (and whose
    item is not displayed) is turned into its item, the item is tracked
    under its id and appended after all loaded views; the load-edge flags
    and the builder are unchanged. *)
Theorem addNewMessage_at_bottom_appends (env : Env) (msg : MTPMessage) (h : History) :
  IdFromMessage msg <> 0 ->
  items h !! IdFromMessage msg = None ->
  mainView (mtp_item msg) h = false ->
  loadedAtBottom h = true ->
  migrateTo (peer h) = None ->
  _buildingFrontBlock h = None ->
  isChat (peer h) = false ->
  peer_isChannel (peer h) = false ->
  exists h',
    addNewMessage env msg NewMessageUnread h = Done (Some (mtp_item msg)) h'
    /\ views h' = views h ++ [mtp_item msg]
    /\ items h' = <[IdFromMessage msg := mtp_item msg]> (items h)
    /\ edges h' = edges h.
Proof.
  intros Hid Hfresh Hview Hbottom Hmigrate Hbuild Hchat Hchannel.
  unfold addNewMessage. rewrite bool_decide_eq_false_2 by discriminate.
  unfold mbind at 1, Op_bind at 1, get at 1. cbv beta iota.
  rewrite Hbottom, Hmigrate.
  rewrite bool_decide_eq_false_2 by (intros [? [=]]). cbn [negb orb].
  unfold addNewToLastBlock.
  repeat first [rewrite bool_decide_eq_true_2 by reflexivity
               | rewrite bool_decide_eq_false_2 by discriminate].
  cbn [negb when].
  unfold mbind at 1, Op_bind at 1.
  change (Expects _ _ true h) with (Done tt h). cbv beta iota.
  unfold mbind at 1, Op_bind at 1.
  rewrite (createItem_fresh env msg true h Hid Hfresh).
  set (h1 := set_items _ h).
  assert (blocks h1 = blocks h) as Hblocks1 by (destruct h; reflexivity).
  unfold mbind at 1, Op_bind at 1, get at 1. cbv beta iota.
  rewrite (mainView_same_blocks _ h h1 Hblocks1), Hview.
  unfold mbind at 1, Op_bind at 1.
  destruct (runs_unit _ _ h1 (applyMessageChanges_layout env (mtp_item msg) msg))
    as (h2 & E2 & K2).
  rewrite E2.
  pose proof (applyMessageChanges_registry env _ _ _ _ _ E2) as I2.
  pose proof (applyMessageChanges_settled env _ _ _ _ _ E2) as S2.
  unfold keeps in K2.
  assert (blocks h2 = blocks h) as Hblocks2
    by (rewrite (layout_blocks _ _ K2); exact Hblocks1).
  assert (edges h2 = edges h) as Hedges2.
  { apply keeps_layout_edges in K2. unfold keeps in K2. rewrite K2.
    destruct h; reflexivity. }
  assert (_buildingFrontBlock h2 = None) as Hbuild2.
  { pose proof (f_equal snd Hedges2) as Hb. cbn in Hb. rewrite Hb. exact Hbuild. }
  assert (mainView (mtp_item msg) h2 = false) as Hview2
    by (rewrite (mainView_same_blocks _ h h2 Hblocks2); exact Hview).
  destruct (addNewItem_run env (mtp_item msg) true h2 Hbuild2 Hview2) as (h3 & E3 & K3).
  unfold mbind at 1, Op_bind at 1. rewrite E3.
  pose proof (addNewItem_registry env _ _ _ _ _ E3) as I3.
  pose proof (addNewItem_settled env _ _ _ _ _ E3) as S3.
  assert (isChat (peer h3) = false /\ peer_isChannel (peer h3) = false) as [Hchat3 Hchannel3].
  { rewrite S2 in S3. unfold settled in S3.
    assert (settled h1 = settled h) as S1 by (destruct h; reflexivity).
    unfold settled in S1.
    pose proof (f_equal snd S3) as Hk. pose proof (f_equal snd S1) as Hk1.
    cbn [snd] in Hk, Hk1. rewrite Hk1 in Hk.
    injection Hk as _ Hc Hch _. rewrite Hc, Hch. split; assumption. }
  unfold checkForLoadedAtTop.
  unfold mbind at 1, Op_bind at 1, mbind at 1, Op_bind at 1, get at 1.
  cbv beta iota. rewrite Hchat3, Hchannel3.
  exists h3. split; [reflexivity|].
  assert (blocks h3 = appended (mtp_item msg) (blocks h)) as Hblocks3.
  { apply layout_blocks in K3. rewrite K3, <- Hblocks2. destruct h2; reflexivity. }
  split; [|split].
  - unfold views. rewrite Hblocks3. apply views_appended.
  - rewrite I3, I2. destruct h; reflexivity.
  - rewrite <- Hedges2. apply keeps_layout_edges in K3. unfold keeps in K3.
    rewrite K3. destruct h2; reflexivity.
Qed.

Lemma addNewMessage_at_bottom_appends_witness :
  exists h',
    addNewMessage sample_env (incoming_message 9 12) NewMessageUnread two_unread_window
    = Done (Some (mtp_item (incoming_message 9 12))) h'
    /\ views h' = views two_unread_window ++ [mtp_item (incoming_message 9 12)].
Proof.
  destruct (addNewMessage_at_bottom_appends sample_env (incoming_message 9 12)
              two_unread_window) as (h' & E & Hviews & _).
  - discriminate.
  - reflexivity.
  - vm_compute. reflexivity.
  - reflexivity.
  - reflexivity.
  - reflexivity.
  - reflexivity.
  - reflexivity.
  - exists h'. split; [exact E | exact Hviews].
Defined.

(** ** Clearing the conversation *)

Lemma setLastMessage_none (env : Env) (h : History) :
  exists h', setLastMessage env None h = Done tt h'
    /\ outside_projection h' = outside_projection h
    /\ _lastMessage h' = Some None.
Proof.
  destruct (runs_unit _ _ h (setLastMessage_outside env None)) as (h' & E & K).
  exists h'. split; [exact E|]. split; [exact K|].
  revert E. unfold setLastMessage.
  unfold mbind at 1, Op_bind at 1, get at 1. cbv beta iota.
  destruct (_lastMessage h) as [current|] eqn:Hlast.
  - destruct (same_ptr current None) eqn:Hsame.
    + cbn [orb]. intros [= <-]. rewrite Hlast.
      apply bool_decide_eq_true in Hsame. rewrite Hsame. reflexivity.
    + replace (match current with Some _ => false | None => false end) with false
        by (destruct current; reflexivity).
      cbn [orb]. intros E. lastMessage_kept E.
  - intros E. lastMessage_kept E.
Qed.

Lemma setInboxReadTill_queue_and_bar upTo :
  runs (keeps queue_and_bar) (setInboxReadTill upTo).
Proof. unfold setInboxReadTill. frame. Qed.

Lemma calculateFirstUnreadMessage_queue_and_bar env :
  runs (keeps queue_and_bar) (calculateFirstUnreadMessage env).
Proof. unfold calculateFirstUnreadMessage. frame. Qed.

#[local] Hint Resolve setInboxReadTill_queue_and_bar
  calculateFirstUnreadMessage_queue_and_bar : frame.

Lemma setUnreadCount_queue_and_bar env n :
  runs (keeps queue_and_bar) (setUnreadCount env n).
Proof. unfold setUnreadCount. frame. Qed.

#[local] Hint Resolve setUnreadCount_queue_and_bar : frame.

Lemma changeUnreadCount_queue_and_bar env delta :
  runs (keeps queue_and_bar) (changeUnreadCount env delta).
Proof. unfold changeUnreadCount. frame. Qed.

(** Setting the unread count to zero when there is nothing to read up to:
    no first unread view is left behind and the read cursors stay. *)
Lemma setUnreadCount_zero_quiet (env : Env) (h : History) :
  _firstUnreadView h = None ->
  msgIdForRead env h = 0 ->
  exists h', setUnreadCount env 0 h = Done tt h'
    /\ _firstUnreadView h' = None /\ cursors h' = cursors h.
Proof.
  intros Hnone Hlast. unfold setUnreadCount.
  unfold mbind at 1, Op_bind at 1, get at 1. cbv beta iota zeta.
  destruct (bool_decide (_unreadCount h = Some 0)).
  - exists h. split; [reflexivity|]. split; [exact Hnone | reflexivity].
  - change (0 =? 1) with false. change (0 =? 0) with true. cbv iota.
    rewrite Hlast. change (negb (0 =? 0)) with false. cbn [when].
    match goal with
    | |- exists h', ?m h = _ /\ _ =>
      assert (Hr : runs (fun h h' => _firstUnreadView h' = None /\ cursors h' = cursors h) m)
    end.
    { set (quiet := fun h h' : History =>
                      _firstUnreadView h' = None /\ cursors h' = cursors h).
      assert (forall h1 h2 h3, quiet h1 h2 ->
                keeps (fun h => (_firstUnreadView h, cursors h)) h2 h3 -> quiet h1 h3)
        as Hthen.
      { unfold keeps, quiet. intros h1 h2 h3 [Hf Hc] H2.
        pose proof (f_equal fst H2) as H2f. pose proof (f_equal snd H2) as H2c.
        cbn [fst snd] in H2f, H2c. rewrite H2f, H2c. split; assumption. }
      eapply yields_seq with (R1 := quiet) (Q1 := any_result); [| |exact Hthen].
      - eapply yields_seq with (R1 := quiet) (Q1 := any_result); [| |exact Hthen].
        + apply runs_modify. intros h0. split; reflexivity.
        + intros _ _. frame.
      - intros _ _. frame. }
    destruct (runs_unit _ _ h Hr) as (h' & E & K). exists h'. split; [exact E | exact K].
Qed.

Lemma changeUnreadCount_to_zero (env : Env) (h : History) :
  _firstUnreadView h = None ->
  msgIdForRead env h = 0 ->
  exists h', changeUnreadCount env (int_neg (unreadCount h)) h = Done tt h'
    /\ stable h' = stable h
    /\ queue_and_bar h' = queue_and_bar h
    /\ unreadCount h' = 0
    /\ _firstUnreadView h' = None
    /\ cursors h' = cursors h.
Proof.
  intros Hnone Hlast.
  destruct (runs_unit _ _ h (changeUnreadCount_stable env (int_neg (unreadCount h))))
    as (h' & E & K).
  destruct (runs_unit _ _ h (changeUnreadCount_queue_and_bar env (int_neg (unreadCount h))))
    as (h'' & E' & K').
  rewrite E in E'. injection E' as <-.
  exists h'. split; [exact E|]. split; [exact K|]. split; [exact K'|].
  revert E. unfold changeUnreadCount.
  unfold mbind at 1, Op_bind at 1, get at 1. cbv beta iota.
  unfold unreadCount.
  set (seen := fun h : History => (_unreadCount h, _firstUnreadView h, cursors h)).
  destruct (_unreadCount h) as [count|] eqn:Hcount.
  - change (default 0 (Some count)) with count. rewrite int_add_neg.
    change (Z.max 0 0) with 0.
    destruct (setUnreadCount_zero_quiet env h Hnone Hlast) as (h1 & E1 & F1 & R1).
    destruct (setUnreadCount_count env 0 h) as (h1' & E1' & C1).
    rewrite E1 in E1'. injection E1' as <-.
    unfold mbind at 1, Op_bind at 1. rewrite E1.
    match goal with
    | |- ?m h1 = _ -> _ =>
      assert (Hr : runs (keeps seen) m) by (unfold seen; frame);
      destruct (runs_unit _ _ h1 Hr) as (h2 & E2 & K2)
    end.
    rewrite E2. intros [= <-]. unfold keeps, seen in K2.
    pose proof (f_equal (fun t => t.1.1) K2) as Kc.
    pose proof (f_equal (fun t => t.1.2) K2) as Kf.
    pose proof (f_equal snd K2) as Kr. cbn [fst snd] in Kc, Kf, Kr.
    rewrite Kc, Kf, Kr, C1, R1. repeat split. exact F1.
  - unfold mbind at 1, Op_bind at 1. unfold skip at 1, mret at 1, Op_ret at 1.
    match goal with
    | |- ?m h = _ -> _ =>
      assert (Hr : runs (keeps seen) m) by (unfold seen; frame);
      destruct (runs_unit _ _ h Hr) as (h2 & E2 & K2)
    end.
    rewrite E2. intros [= <-]. unfold keeps, seen in K2.
    pose proof (f_equal (fun t => t.1.1) K2) as Kc.
    pose proof (f_equal (fun t => t.1.2) K2) as Kf.
    pose proof (f_equal snd K2) as Kr. cbn [fst snd] in Kc, Kf, Kr.
    rewrite Kc, Kf, Kr, Hcount. repeat split. exact Hnone.
Qed.

Lemma clearLastKeyboard_run (env : Env) (h : History) :
  exists h', clearLastKeyboard env h = Done tt h'
    /\ beside_keyboard h' = beside_keyboard h
    /\ lastKeyboardId h' = 0
    /\ lastKeyboardFrom h' = 0
    /\ lastKeyboardInited h' = true.
Proof.
  unfold clearLastKeyboard, mbind, Op_bind, gets, get, modify, call, when, skip, mret, Op_ret.
  destruct (Z.eqb_spec (lastKeyboardId h) 0) as [Hzero|Hset]; cbn [negb].
  - eexists. split; [reflexivity|]. cbn. rewrite Hzero. repeat split.
  - destruct (lastKeyboardId h =? lastKeyboardHiddenId h), (App_main env);
      (eexists; split; [reflexivity|]); cbn; repeat split.
Qed.

Lemma update_chat_run (f : ChatData -> ChatData) (h : History) :
  exists p, update_chat f h = Done tt (set_peer p h)
    /\ settled (set_peer p h) = settled h.
Proof.
  destruct h as [[pid kind cw] bs top bot bld irb orb uc um ums umc lm clm ld cd nt
                 fuv ubv sti jm lki lkid lkh lkf lku mu ty sa it fx].
  unfold update_chat, modify. destruct kind as [user|chat|channel];
    eexists; split; reflexivity.
Qed.

Lemma update_mgInfo_run (f : MegagroupInfo -> MegagroupInfo) (h : History) :
  exists p, update_mgInfo f h = Done tt (set_peer p h)
    /\ settled (set_peer p h) = settled h.
Proof.
  destruct h as [[pid kind cw] bs top bot bld irb orb uc um ums umc lm clm ld cd nt
                 fuv ubv sti jm lki lkid lkh lkf lku mu ty sa it fx].
  unfold update_mgInfo, modify. destruct kind as [user|chat|channel];
    try (eexists; split; reflexivity).
  destruct channel as [[mg|] joined who when_ fd]; eexists; split; reflexivity.
Qed.

(** X21.  Clearing resets the conversation.  [History::clear] always
    finishes.  Afterwards nothing is displayed and no pointer to a view is
    cached, the notification queue is empty, there is no last message, the
    unread count is zero and the reply keyboard has no origin; the window
    counts as loaded at the bottom and not at the top.  The last message is
    known to be absent, except in a channel, where it becomes unknown.  The
    item registry, the drafts, the mute flag, the unread mark and the read
    cursors are as before. *)
Theorem History_clear_resets (env : Env) (h : History) :
  exists h',
    History_clear env h = Done tt h'
    /\ cleared h' = (([], (None, None, None, None)), [], None, 0, (0, 0))
    /\ loadedAtTop h' = false /\ loadedAtBottom h' = true
    /\ lastMessageKnown h' = negb (isChannel h)
    /\ items h' = items h
    /\ settled h' = settled h
    /\ cursors h' = cursors h.
Proof.
  unfold History_clear, clearBlocks, forgetScrollState.
  repeat (unfold mbind at 1, Op_bind at 1, modify at 1; cbv beta iota).
  unfold get at 1. cbv beta iota.
  cbn [peer set_joinedMessage set_firstUnreadView set_unreadBarView scrollTopItem].
  set (h0 := set_joinedMessage None (set_firstUnreadView None (set_unreadBarView None h))).
  assert (carried h0 = (None, None, None, items h, settled h, cursors h, peer h)) as C0
    by reflexivity.
  match goal with
  | |- context [when ?b ?m h0] =>
    assert (exists h1, when b m h0 = Done tt h1 /\ carried h1 = carried h0)
      as (h1 & -> & C1)
      by (destruct b; eexists; split; reflexivity)
  end.
  match goal with
  | |- context [?step h1] =>
    lazymatch step with
    | (if ?b then _ else _) =>
      assert (exists h2, step h1 = Done tt h2
                /\ carried h2 = carried h1
                /\ _lastMessage h2 = (if b then None else Some None))
        as (h2 & -> & C2 & L2)
    end
  end.
  { destruct (peer_isChannel (peer h)).
    - eexists. split; [reflexivity|]. split; reflexivity.
    - destruct (setLastMessage_none env h1) as (h2 & E & K & L).
      exists h2. split; [exact E|]. split; [|exact L].
      unfold outside_projection, core, reading in K.
      unfold carried, settled, cursors. inversion K. congruence. }
  unfold call at 1, modify at 1. cbv beta iota.
  match goal with
  | |- context [set_blocks [] ?x] => set (hb := set_blocks [] x)
  end.
  assert (carried hb = carried h2) as Cb by reflexivity.
  assert (vacated hb = ([], [], _lastMessage h2)) as Vb by reflexivity.
  assert (_firstUnreadView hb = None) as Fb.
  { change (_firstUnreadView hb) with (_firstUnreadView h2).
    rewrite C1, C0 in C2. unfold carried in C2. congruence. }
  assert (msgIdForRead env hb = 0) as Rb.
  { unfold msgIdForRead, lastMessage, maxMsgId, views.
    change (_lastMessage hb) with (_lastMessage h2). rewrite L2.
    change (blocks hb) with (@nil HistoryBlock).
    destruct (peer_isChannel (peer h)), (loadedAtBottom hb); reflexivity. }
  unfold mbind at 1, Op_bind at 1, get at 1. cbv beta iota.
  unfold mbind at 1, Op_bind at 1.
  destruct (changeUnreadCount_to_zero env hb Fb Rb) as (h3 & -> & S3 & Q3 & U3 & F3 & R3).
  set (seen := fun h : History => (carried h, vacated h, unreadCount h)).
  assert (seen h3 = (carried h2, ([], [], _lastMessage h2), 0)) as N3.
  { unfold seen. rewrite U3, <- Cb, <- Vb.
    unfold stable, core in S3. unfold queue_and_bar in Q3.
    unfold carried, vacated, settled. unfold cursors in *. inversion S3. inversion Q3.
    rewrite F3, Fb. congruence. }
  unfold mbind at 1, Op_bind at 1.
  match goal with
  | |- context [?step h3] =>
    lazymatch step with
    | match asChannel _ with _ => _ end =>
      assert (Hr : runs (keeps seen) step) by (unfold seen; frame);
      destruct (runs_unit _ _ h3 Hr) as (h4 & -> & N4)
    end
  end.
  unfold keeps in N4. rewrite N3 in N4. clear Hr.
  destruct (clearLastKeyboard_run env h4) as (h5 & -> & B5 & Kid & Kfrom & _).
  assert (seen h5 = seen h4) as N5.
  { unfold seen, carried, vacated, unreadCount, settled, cursors.
    unfold beside_keyboard, layout, reading in B5. inversion B5. congruence. }
  rewrite N4, C2, C1, C0, L2 in N5. clear N3 N4 B5.
  repeat (unfold mbind at 1, Op_bind at 1; first [unfold call at 1, modify at 1 | idtac];
          cbv beta iota).
  match goal with
  | |- context [update_chat ?f ?y] => destruct (update_chat_run f y) as (p1 & -> & S1)
  end.
  match goal with
  | |- context [update_mgInfo ?f ?y] => destruct (update_mgInfo_run f y) as (p2 & -> & S2)
  end.
  eexists. split; [reflexivity|].
  rewrite S2, S1.
  unfold seen, carried, vacated, unreadCount in N5.
  unfold cleared, displayed, cached, lastMessage, unreadCount, loadedAtTop, loadedAtBottom,
    lastMessageKnown, isChannel, cursors in *.
  cbn.
  change (settled (set_scrollTopItem _ _)) with (settled h5).
  remember (settled h5) as after eqn:Hafter. remember (settled h) as before eqn:Hbefore.
  injection N5 as Hj Hf Hb Hi Hs Hri Hro Hp Hbl Hn Hl Hu.
  rewrite Hj, Hf, Hb, Hi, Hs, Hri, Hro, Hbl, Hn, Hl, Hu, Kid, Kfrom.
  destruct (peer_isChannel (peer h)); repeat split.
Qed.

(** ** Typing indicators *)

Lemma sweep_typing (now : Z) (m : gmap PeerId Z) (user : PeerId) (t : Z) :
  filter (fun entry => ¬ (now >= entry.2)) m !! user = Some t
  <-> m !! user = Some t /\ now < t.
Proof. rewrite map_lookup_filter_Some. simpl. split; intros [? ?]; split; (assumption || lia). Qed.

Lemma sweep_sendActions (now : Z) (m : gmap PeerId SendAction) (user : PeerId)
    (a : SendAction) :
  filter (fun entry => ¬ (now >= until entry.2)) m !! user = Some a
  <-> m !! user = Some a /\ now < until a.
Proof. rewrite map_lookup_filter_Some. simpl. split; intros [? ?]; split; (assumption || lia). Qed.

Lemma updateSendActionNeedsAnimating_run (env : Env) (now : Z) (force : bool)
    (h : History) :
  exists r h',
    updateSendActionNeedsAnimating env now force h = Done r h'
    /\ _typing h' = filter (fun entry => ¬ (now >= entry.2)) (_typing h)
    /\ _sendActions h' = filter (fun entry => ¬ (now >= until entry.2)) (_sendActions h).
Proof.
  unfold updateSendActionNeedsAnimating.
  unfold mbind, Op_bind, get, modify, call, skip, mret, Op_ret.
  match goal with
  | |- context [when ?b _] => destruct b
  end; eexists _, _; (split; [reflexivity|]); split; reflexivity.
Qed.

Lemma sweep_typing_expired (now : Z) (m basis : gmap PeerId Z) (from : PeerId) :
  m = <[from := now]> basis \/ (m = basis /\ basis !! from = None) ->
  filter (fun entry => ¬ (now >= entry.2)) m !! from = None
  /\ forall user t, user <> from ->
       filter (fun entry => ¬ (now >= entry.2)) m !! user = Some t
       <-> basis !! user = Some t /\ now < t.
Proof.
  intros Hm. split.
  - apply map_lookup_filter_None. destruct Hm as [->|[-> Hnone]].
    + right. intros x. rewrite lookup_insert_eq. intros [= <-]. simpl. lia.
    + left. exact Hnone.
  - intros user t Hother. rewrite sweep_typing.
    destruct Hm as [->|[-> _]]; [rewrite lookup_insert_ne by congruence|]; reflexivity.
Qed.

Lemma sweep_sendActions_expired (now : Z) (m basis : gmap PeerId SendAction)
    (from : PeerId) :
  (exists a, m = <[from := a]> basis /\ until a = now)
  \/ (m = basis /\ basis !! from = None) ->
  filter (fun entry => ¬ (now >= until entry.2)) m !! from = None
  /\ forall user a, user <> from ->
       filter (fun entry => ¬ (now >= until entry.2)) m !! user = Some a
       <-> basis !! user = Some a /\ now < until a.
Proof.
  intros Hm. split.
  - apply map_lookup_filter_None. destruct Hm as [(a & -> & Ha)|[-> Hnone]].
    + right. intros x. rewrite lookup_insert_eq. intros [= <-]. simpl. lia.
    + left. exact Hnone.
  - intros user a Hother. rewrite sweep_sendActions.
    destruct Hm as [(a' & -> & _)|[-> _]]; [rewrite lookup_insert_ne by congruence|];
      reflexivity.
Qed.

Lemma indicators_swept_after (now : Z) (from : PeerId) (h h' : History)
    (ty : gmap PeerId Z) (sa : gmap PeerId SendAction) :
  _typing h' = filter (fun entry => ¬ (now >= entry.2)) ty ->
  _sendActions h' = filter (fun entry => ¬ (now >= until entry.2)) sa ->
  ty = <[from := now]> (_typing h) \/ (ty = _typing h /\ _typing h !! from = None) ->
  (exists a, sa = <[from := a]> (_sendActions h) /\ until a = now)
  \/ (sa = _sendActions h /\ _sendActions h !! from = None) ->
  indicators from h' = (None, None)
  /\ forall user, user <> from -> indicators_swept now user h h'.
Proof.
  intros Hty Hsa Ht Hs.
  destruct (sweep_typing_expired now ty (_typing h) from Ht) as [Tnone Tother].
  destruct (sweep_sendActions_expired now sa (_sendActions h) from Hs) as [Snone Sother].
  unfold indicators, indicators_swept. rewrite Hty, Hsa, Tnone, Snone.
  split; [reflexivity|]. intros user Hother. repeat split.
  - intros t Hin. apply Tother in Hin; [apply Hin | exact Hother].
  - intros t Hin Hlive. apply Tother; [exact Hother | split; assumption].
  - intros a Hin. apply Sother in Hin; [apply Hin | exact Hother].
  - intros a Hin Hlive. apply Sother; [exact Hother | split; assumption].
Qed.

(** X22.  A message from a user ends their indicators.  With a clock that
    is not at zero, [clearSendAction] always finishes and leaves neither a
    typing nor a send-action indicator for the user; for every other user
    no indicator appears, and an indicator that runs past the current time
    stays. *)
Theorem clearSendAction_ends_indicators (env : Env) (from : PeerId) (h : History) :
  crl_now env <> 0 ->
  exists h',
    clearSendAction env from h = Done tt h'
    /\ indicators from h' = (None, None)
    /\ forall user, user <> from -> indicators_swept (crl_now env) user h h'.
Proof.
  intros Hclock. apply Z.eqb_neq in Hclock.
  unfold clearSendAction.
  unfold mbind at 1, Op_bind at 1, get at 1. cbv beta iota.
  destruct (_typing h !! from) as [t|] eqn:Ht;
    destruct (_sendActions h !! from) as [a|] eqn:Hs;
    unfold mbind, Op_bind, modify, skip, mret, Op_ret; cbv beta iota;
    rewrite ?Hclock; cbv beta iota.
  - destruct (updateSendActionNeedsAnimating_run env (crl_now env) true
                (set_sendActions
                   (<[from := {| action_type := action_type a; until := crl_now env;
                                 progress := progress a |}]> (_sendActions h))
                   (set_typing (<[from := crl_now env]> (_typing h)) h)))
      as (r & h' & -> & Hty & Hsa).
    exists h'. split; [reflexivity|].
    eapply indicators_swept_after; [exact Hty | exact Hsa | left; reflexivity |].
    left. eexists. split; reflexivity.
  - destruct (updateSendActionNeedsAnimating_run env (crl_now env) true
                (set_typing (<[from := crl_now env]> (_typing h)) h))
      as (r & h' & -> & Hty & Hsa).
    exists h'. split; [reflexivity|].
    eapply indicators_swept_after; [exact Hty | exact Hsa | left; reflexivity |].
    right. split; [reflexivity | exact Hs].
  - change (0 =? 0) with true. cbv iota. rewrite Hclock.
    destruct (updateSendActionNeedsAnimating_run env (crl_now env) true
                (set_sendActions
                   (<[from := {| action_type := action_type a; until := crl_now env;
                                 progress := progress a |}]> (_sendActions h)) h))
      as (r & h' & -> & Hty & Hsa).
    exists h'. split; [reflexivity|].
    eapply indicators_swept_after; [exact Hty | exact Hsa | |].
    + right. split; [reflexivity | exact Ht].
    + left. eexists. split; reflexivity.
  - exists h. split; [reflexivity|]. unfold indicators, indicators_swept.
    rewrite Ht, Hs. split; [reflexivity|]. intros user _. repeat split; auto.
Qed.

Lemma clearSendAction_ends_indicators_witness :
  exists h',
    clearSendAction sample_env 5 (set_typing {[ 5 := 1500; 8 := 1600 ]} (empty_window user_peer))
    = Done tt h'
    /\ indicators 5 h' = (None, None)
    /\ _typing h' !! 8 = Some 1600.
Proof.
  destruct (clearSendAction_ends_indicators sample_env 5
              (set_typing {[ 5 := 1500; 8 := 1600 ]} (empty_window user_peer)))
    as (h' & E & Hnone & Hother).
  - discriminate.
  - exists h'. split; [exact E|]. split; [exact Hnone|].
    destruct (Hother 8) as (_ & Hlive & _); [discriminate|].
    apply Hlive; [reflexivity | reflexivity].
Defined.

(** ** Recent authors *)

Lemma filter_others (user : PeerId) (authors : list PeerId) :
  user ∉ authors -> filter (fun u => u <> user) authors = authors.
Proof.
  induction authors as [|u authors IH]; intros Hfresh; [reflexivity|].
  apply not_elem_of_cons in Hfresh as [Hne Hfresh].
  rewrite filter_cons_True by congruence. rewrite IH by exact Hfresh. reflexivity.
Qed.

Lemma delete_only_occurrence (user : PeerId) (authors : list PeerId) (i : nat) :
  NoDup authors -> authors !! i = Some user ->
  delete i authors = filter (fun u => u <> user) authors.
Proof.
  revert i. induction authors as [|u authors IH]; intros i Hnodup Hat; [discriminate|].
  apply NoDup_cons in Hnodup as [Hfresh Hnodup].
  destruct i as [|i]; simpl in Hat.
  - injection Hat as ->. rewrite filter_cons_False by (intros H; apply H; reflexivity).
    rewrite filter_others by exact Hfresh. reflexivity.
  - assert (u <> user) as Hne.
    { intros ->. apply Hfresh. eapply list_elem_of_lookup_2. exact Hat. }
    rewrite filter_cons_True by exact Hne. simpl. f_equal. apply IH; assumption.
Qed.

(** What [bumpAuthor] computes: the user in front of the deque without the
    first entry for the user. *)
Lemma bumpAuthor_erases_first (user : PeerId) (authors : list PeerId) :
  bumpAuthor user authors
  = user :: match list_find (fun u => u = user) authors with
            | Some (i, _) => delete i authors
            | None => authors
            end.
Proof.
  unfold bumpAuthor.
  destruct (list_find (fun u => u = user) authors) as [[i found]|] eqn:Hfind; [|reflexivity].
  apply list_find_Some in Hfind as (Hat & _ & _).
  apply lookup_lt_Some in Hat.
  assert (0 < Z.of_nat (length authors - i)) as Hpos by lia.
  destruct (Z.ltb_spec 0 (Z.of_nat (length authors - i))); [|lia].
  destruct (Z.eqb_spec (Z.of_nat (length authors - i)) 0); [lia|]. reflexivity.
Qed.

Lemma bumpAuthor_members (user : PeerId) (authors : list PeerId) (u : PeerId) :
  u ∈ bumpAuthor user authors <-> u = user \/ u ∈ authors.
Proof.
  rewrite bumpAuthor_erases_first, elem_of_cons.
  destruct (list_find (fun u => u = user) authors) as [[i found]|] eqn:Hfind; [|reflexivity].
  apply list_find_Some in Hfind as (Hat & -> & _).
  split; intros [Hu|Hu]; auto.
  - right. eapply list_elem_of_delete_inv. exact Hu.
  - destruct (decide (u = user)) as [->|Hne]; [left; reflexivity | right].
    apply list_elem_of_lookup in Hu as [j Hj].
    assert (j <> i) as Hji by (intros ->; congruence).
    destruct (lt_dec j i) as [Hlt|Hge].
    + eapply list_elem_of_lookup_2. rewrite list_lookup_delete_lt by exact Hlt. exact Hj.
    + eapply list_elem_of_lookup_2 with (i := pred j).
      rewrite list_lookup_delete_ge by lia. replace (S (pred j)) with j by lia. exact Hj.
Qed.

Lemma bumpAuthor_unique (user : PeerId) (authors : list PeerId) :
  NoDup authors ->
  bumpAuthor user authors = user :: filter (fun u => u <> user) authors.
Proof.
  intros Hnodup. rewrite bumpAuthor_erases_first. f_equal.
  destruct (list_find (fun u => u = user) authors) as [[i found]|] eqn:Hfind.
  - apply list_find_Some in Hfind as (Hat & -> & _).
    apply delete_only_occurrence; assumption.
  - apply list_find_None in Hfind. symmetry. apply filter_others.
    intros Hin. rewrite Forall_forall in Hfind. exact (Hfind user Hin eq_refl).
Qed.

Lemma update_chat_authors (f : ChatData -> ChatData) :
  (forall chat, lastAuthors (f chat) = lastAuthors chat) ->
  runs (keeps recent_authors) (update_chat f).
Proof.
  intros Hf. apply runs_modify. intros h. unfold keeps, recent_authors, asChat, asMegagroup.
  destruct (peer_kind (peer h)) as [user|chat|channel] eqn:Hkind; rewrite ?Hkind;
    try reflexivity.
  cbn. rewrite Hf. reflexivity.
Qed.

Lemma update_mgInfo_authors (f : MegagroupInfo -> MegagroupInfo) :
  (forall mg, lastParticipants (f mg) = lastParticipants mg) ->
  runs (keeps recent_authors) (update_mgInfo f).
Proof.
  intros Hf. apply runs_modify. intros h. unfold keeps, recent_authors, asChat, asMegagroup.
  destruct (peer_kind (peer h)) as [user|chat|channel] eqn:Hkind; rewrite ?Hkind;
    try reflexivity.
  cbn. destruct (mgInfo channel) as [mg|]; cbn; [rewrite Hf|]; reflexivity.
Qed.

(** Closes the side condition of the two lemmas above for an update that
    writes other fields. *)
Ltac other_fields :=
  intro;
  repeat match goal with
         | |- context [if ?b then _ else _] => destruct b
         end;
  reflexivity.

#[local] Hint Extern 1 (yields (keeps recent_authors) _ (update_chat _)) =>
  apply update_chat_authors; other_fields : frame.
#[local] Hint Extern 1 (yields (keeps recent_authors) _ (update_mgInfo _)) =>
  apply update_mgInfo_authors; other_fields : frame.

Lemma keeps_core_authors h h' : keeps core h h' -> keeps recent_authors h h'.
Proof.
  unfold keeps, core, recent_authors. intros H.
  assert (peer h' = peer h) as -> by (inversion H; congruence). reflexivity.
Qed.

Lemma clearLastKeyboard_authors env : runs (keeps recent_authors) (clearLastKeyboard env).
Proof. unfold clearLastKeyboard. frame. Qed.

Lemma mgInfo_addBot_authors user : runs (keeps recent_authors) (mgInfo_addBot user).
Proof. unfold mgInfo_addBot. frame. Qed.

Lemma setLastMessage_authors env item :
  runs (keeps recent_authors) (setLastMessage env item).
Proof. eapply yields_weaken; [apply keeps_core_authors | apply setLastMessage_core]. Qed.

Lemma newItemAdded_authors env item : runs (keeps recent_authors) (newItemAdded env item).
Proof. eapply yields_weaken; [apply keeps_core_authors | apply newItemAdded_core]. Qed.

#[local] Hint Resolve clearLastKeyboard_authors mgInfo_addBot_authors
  setLastMessage_authors newItemAdded_authors : frame.

Lemma addNewItem_keyboard_authors env item :
  runs (keeps recent_authors) (addNewItem_keyboard env item).
Proof. unfold addNewItem_keyboard. frame. Qed.

#[local] Hint Resolve addNewItem_keyboard_authors : frame.

Lemma addNewItem_authors_bumps (user : PeerRef) :
  runs (author_bumped (ref_id user)) (addNewItem_authors user).
Proof.
  intros h.
  unfold addNewItem_authors, mgInfo_addBot, update_chat, update_mgInfo,
    mbind, Op_bind, get, modify, call, when, skip, mret, Op_ret.
  destruct h as [[pid kind cw] bs top bot bld irb orb uc um ums umc lm clm ld cd nt
                 fuv ubv sti jm lki lkid lkh lkf lku mu ty sa it fx].
  destruct kind as [u|chat|[[mg|] joined who when_ fd]]; destruct (ref_botInfo user);
    eexists _, _; (split; [reflexivity|]); (split; [|exact I]);
    unfold author_bumped, recent_authors; cbn;
    repeat match goal with
           | |- context [if ?b then _ else _] => destruct b
           end;
    reflexivity.
Qed.

Lemma author_bumped_then_kept (user : PeerId) (h1 h2 h3 : History) :
  author_bumped user h1 h2 -> keeps recent_authors h2 h3 -> author_bumped user h1 h3.
Proof. unfold author_bumped, keeps. intros H1 H2. rewrite H2. exact H1. Qed.

Lemma author_kept_then_bumped (user : PeerId) (h1 h2 h3 : History) :
  keeps recent_authors h1 h2 -> author_bumped user h2 h3 -> author_bumped user h1 h3.
Proof. unfold author_bumped, keeps. intros H1 H2. rewrite H2, H1. reflexivity. Qed.

(** X23.  The author of a new message moves to the front of the recent
    authors.  When [addNewItem] appends an item sent by a user (no front
    block being built, the item not displayed yet), the deque of recent
    authors of a legacy group (of recent participants of a megagroup) has
    that user in front afterwards and holds the users it held before and
    that user; a deque without duplicates becomes that user followed by the
    other users in their former order. *)
Theorem addNewItem_bumps_author (env : Env) (item : HistoryItem) (unread : bool)
    (h : History) (authors : list PeerId) :
  _buildingFrontBlock h = None ->
  mainView item h = false ->
  ref_id (from item) <> 0 ->
  ref_isUser (from item) = true ->
  recent_authors h = Some authors ->
  exists h' authors',
    addNewItem env item unread h = Done item h'
    /\ recent_authors h' = Some authors'
    /\ head authors' = Some (ref_id (from item))
    /\ (forall user, user ∈ authors' <-> user = ref_id (from item) \/ user ∈ authors)
    /\ (NoDup authors ->
        authors' = ref_id (from item) :: filter (fun u => u <> ref_id (from item)) authors).
Proof.
  intros Hbuild Hview Hfrom Huser Hauthors.
  assert (exists h', addNewItem env item unread h = Done item h'
            /\ author_bumped (ref_id (from item)) h h') as (h' & E & Hbumped).
  { unfold addNewItem.
    unfold mbind at 1, Op_bind at 1, get at 1. cbv beta iota.
    unfold isBuildingFrontBlock. rewrite Hbuild.
    rewrite bool_decide_eq_false_2 by (intros [? [=]]). cbn [negb].
    unfold mbind at 1, Op_bind at 1.
    change (Expects _ _ true h) with (Done tt h). cbv beta iota.
    unfold mbind at 1, Op_bind at 1. rewrite (addItemToBlock_run item h Hbuild Hview).
    apply Z.eqb_neq in Hfrom. rewrite Hfrom, Huser. cbn [negb when].
    match goal with
    | |- exists h', ?m ?h1 = _ /\ _ =>
      assert (Hr : yields (author_bumped (ref_id (from item))) (fun a => a = item) m)
    end.
    { apply yields_get. intros h1.
      eapply yields_seq with (R1 := keeps recent_authors)
                             (R2 := author_bumped (ref_id (from item))) (Q1 := any_result);
        [frame | intros _ _ | apply author_kept_then_bumped].
      eapply yields_seq with (R1 := author_bumped (ref_id (from item)))
                             (R2 := keeps recent_authors) (Q1 := any_result);
        [| intros _ _; frame | apply author_bumped_then_kept].
      eapply yields_seq with (R1 := author_bumped (ref_id (from item)))
                             (R2 := keeps recent_authors) (Q1 := any_result);
        [apply addNewItem_authors_bumps | intros _ _; frame | apply author_bumped_then_kept]. }
    match goal with
    | |- exists h', ?m ?h1 = _ /\ _ => destruct (Hr h1) as (a & h' & E & K & ->)
    end.
    exists h'. split; [exact E|].
    unfold author_bumped in *. rewrite K. destruct h; reflexivity. }
  unfold author_bumped in Hbumped. rewrite Hauthors in Hbumped. cbn in Hbumped.
  exists h', (bumpAuthor (ref_id (from item)) authors).
  split; [exact E|]. split; [exact Hbumped|]. split; [|split].
  - rewrite bumpAuthor_erases_first. reflexivity.
  - intros user. apply bumpAuthor_members.
  - apply bumpAuthor_unique.
Qed.

Lemma addNewItem_bumps_author_witness :
  exists h' authors',
    addNewItem sample_env (authored_item 9 9 41) false recent_chat_window
    = Done (authored_item 9 9 41) h'
    /\ recent_authors h' = Some authors'
    /\ authors' = [41; 40; 42].
Proof.
  destruct (addNewItem_bumps_author sample_env (authored_item 9 9 41) false
              recent_chat_window [40; 41; 42])
    as (h' & authors' & E & Hrecent & _ & _ & Hunique).
  - reflexivity.
  - vm_compute. reflexivity.
  - discriminate.
  - reflexivity.
  - reflexivity.
  - exists h', authors'. split; [exact E|]. split; [exact Hrecent|].
    rewrite Hunique; [reflexivity|].
    repeat constructor; rewrite ?elem_of_cons, ?elem_of_nil;
      intros H; repeat destruct H as [H|H]; discriminate || exact H.
Defined.

(** ** The first unread view *)

Lemma calculateFirstUnreadMessage_scan_finds (env : Env) (readBefore : MsgId)
    (newestFirst : list HistoryItem) (first : option HistoryItem) :
  (exists newer found older,
     newestFirst = newer ++ found :: older
     /\ calculateFirstUnreadMessage_scan env readBefore newestFirst first = Some found
     /\ IsServerMsgId env (id found) = true
     /\ readBefore <= id found
     /\ (ordered_by_id (rev newestFirst) ->
         Forall (fun item => unread_by_cursor env readBefore item = false) older))
  \/ (calculateFirstUnreadMessage_scan env readBefore newestFirst first = first
      /\ (ordered_by_id (rev newestFirst) ->
          Forall (fun item =>
                    ~ (IsServerMsgId env (id item) = true
                       /\ (out item = false \/ first = None)
                       /\ readBefore <= id item)) newestFirst)).
Proof.
  revert first. induction newestFirst as [|item rest IH]; intros first.
  - right. split; [reflexivity | constructor].
  - assert (forall keep,
      (exists newer found older,
         rest = newer ++ found :: older
         /\ calculateFirstUnreadMessage_scan env readBefore rest keep = Some found
         /\ IsServerMsgId env (id found) = true
         /\ readBefore <= id found
         /\ (ordered_by_id (rev rest) ->
             Forall (fun item => unread_by_cursor env readBefore item = false) older)) ->
      exists newer found older,
        item :: rest = newer ++ found :: older
        /\ calculateFirstUnreadMessage_scan env readBefore rest keep = Some found
        /\ IsServerMsgId env (id found) = true
        /\ readBefore <= id found
        /\ (ordered_by_id (rev (item :: rest)) ->
            Forall (fun item => unread_by_cursor env readBefore item = false) older))
      as Hlift.
    { intros keep (newer & found & older & -> & Hscan & Hserver & Hle & Hold).
      exists (item :: newer), found, older. repeat split; try assumption.
      intros Hord. apply Hold. simpl in Hord.
      apply ordered_by_id_app in Hord as (Hrest & _). exact Hrest. }
    simpl calculateFirstUnreadMessage_scan.
    destruct (IsServerMsgId env (id item)) eqn:Hserver; cbn [negb].
    + destruct (negb (out item) || negb (bool_decide (is_Some first))) eqn:Hassign.
      * destruct (Z.geb_spec (id item) readBefore) as [Hcovered|Hread].
        -- destruct (IH (Some item)) as [Hfound|[Hkept Hnone]].
           ++ left. apply Hlift. exact Hfound.
           ++ left. exists [], item, rest. repeat split; try assumption; try lia.
              intros Hord. simpl in Hord. apply ordered_by_id_app in Hord as (Hrest & _).
              eapply Forall_impl; [exact (Hnone Hrest)|].
              intros w Hw. unfold unread_by_cursor.
              destruct (IsServerMsgId env (id w)) eqn:Hsw; [|reflexivity].
              destruct (out w) eqn:How; [reflexivity|].
              destruct (Z.geb_spec (id w) readBefore); [|reflexivity].
              exfalso. apply Hw. split; [exact Hsw|]. split; [left; exact How | lia].
        -- right. split; [reflexivity|]. intros Hord. simpl in Hord.
           apply ordered_by_id_app in Hord as (_ & _ & Hbelow).
           constructor; [intros (_ & _ & Hle); lia|].
           apply Forall_forall. intros w Hin (_ & _ & Hle).
           rewrite Forall_forall in Hbelow.
           assert (w ∈ rev rest) as Hin' by (apply list_elem_of_In, in_rev;
             rewrite rev_involutive; apply list_elem_of_In; exact Hin).
           pose proof (Hbelow w Hin') as Hw. apply Forall_inv in Hw. lia.
      * destruct (IH first) as [Hfound|[Hkept Hnone]].
        -- left. apply Hlift. exact Hfound.
        -- right. split; [exact Hkept|]. intros Hord. simpl in Hord.
           apply ordered_by_id_app in Hord as (Hrest & _).
           constructor; [|exact (Hnone Hrest)].
           apply orb_false_iff in Hassign as [Hout Hset].
           apply negb_false_iff in Hout. apply negb_false_iff, bool_decide_eq_true in Hset.
           intros (_ & [Hin|Hunset] & _); [congruence|].
           rewrite Hunset in Hset. destruct Hset as [? [=]].
    + destruct (IH first) as [Hfound|[Hkept Hnone]].
      * left. apply Hlift. exact Hfound.
      * right. split; [exact Hkept|]. intros Hord. simpl in Hord.
        apply ordered_by_id_app in Hord as (Hrest & _).
        constructor; [|exact (Hnone Hrest)]. intros (Hs & _). congruence.
Qed.

(** X24.  [calculateFirstUnreadMessage] finds where the unread part
    starts.  With no first unread view cached and a known inbox cursor it
    always finishes and changes only that pointer.  A view it finds is
    displayed, server-confirmed and not covered by the cursor; when the
    window displays its items in the order of their ids, no incoming
    server-confirmed item that the cursor does not cover is displayed
    before that view, and none at all is displayed when no view is found. *)
Theorem calculateFirstUnreadMessage_finds_start (env : Env) (readBefore : MsgId)
    (h : History) :
  _firstUnreadView h = None ->
  _inboxReadBefore h = Some readBefore ->
  exists found,
    calculateFirstUnreadMessage env h = Done tt (set_firstUnreadView found h)
    /\ match found with
       | Some view =>
         exists before after,
           views h = before ++ view :: after
           /\ IsServerMsgId env (id view) = true
           /\ readBefore <= id view
           /\ (ordered_by_id (views h) ->
               Forall (fun item => unread_by_cursor env readBefore item = false) before)
       | None =>
         ordered_by_id (views h) ->
         Forall (fun item => unread_by_cursor env readBefore item = false) (views h)
       end.
Proof.
  intros Hnone Hcursor.
  exists (calculateFirstUnreadMessage_scan env readBefore (rev (views h)) None).
  split.
  - unfold calculateFirstUnreadMessage, mbind, Op_bind, get.
    rewrite Hnone, Hcursor. reflexivity.
  - destruct (calculateFirstUnreadMessage_scan_finds env readBefore (rev (views h)) None)
      as [(newer & found & older & Hsplit & -> & Hserver & Hle & Hold)|[-> Hnothing]].
    + exists (rev older), (rev newer).
      split; [|split; [exact Hserver | split; [exact Hle|]]].
      * rewrite <- (rev_involutive (views h)), Hsplit, rev_app_distr. simpl.
        rewrite <- app_assoc. reflexivity.
      * intros Hord. apply Forall_rev, Hold. rewrite rev_involutive. exact Hord.
    + intros Hord. rewrite rev_involutive in Hnothing.
      rewrite <- (rev_involutive (views h)). apply Forall_rev.
      eapply Forall_impl; [exact (Hnothing Hord)|].
      intros w Hw. unfold unread_by_cursor.
      destruct (IsServerMsgId env (id w)) eqn:Hsw; [|reflexivity].
      destruct (out w) eqn:How; [reflexivity|].
      destruct (Z.geb_spec (id w) readBefore); [|reflexivity].
      exfalso. apply Hw. split; [exact Hsw|]. split; [left; exact How | lia].
Qed.

Lemma calculateFirstUnreadMessage_finds_start_witness :
  exists found,
    calculateFirstUnreadMessage sample_env
      (set_inboxReadBefore (Some 4) two_unread_window)
    = Done tt (set_firstUnreadView found (set_inboxReadBefore (Some 4) two_unread_window)).
Proof.
  destruct (calculateFirstUnreadMessage_finds_start sample_env 4
              (set_inboxReadBefore (Some 4) two_unread_window))
    as (found & E & _).
  - reflexivity.
  - reflexivity.
  - exists found. exact E.
Defined.

(** ** Placing the joined message by its date *)

Lemma scanBlock_by_date (inviteDate : TimeId) (newestFirst : list HistoryItem)
    (blockIndex : nat) :
  match insertJoinedMessage_scanBlock false inviteDate newestFirst blockIndex with
  | Some (InTheMiddle b i) =>
    b = blockIndex
    /\ exists newer found older,
         newestFirst = newer ++ found :: older
         /\ i = S (length older)
         /\ date found <= inviteDate
         /\ Forall (fun item => inviteDate < date item) newer
  | Some _ => False
  | None => Forall (fun item => inviteDate < date item) newestFirst
  end.
Proof.
  induction newestFirst as [|item older IH]; simpl; [constructor|].
  rewrite andb_false_r.
  destruct (Z.leb_spec (date item) inviteDate) as [Hle|Hlater].
  - split; [reflexivity|]. exists [], item, older. repeat split; [exact Hle | constructor].
  - destruct (insertJoinedMessage_scanBlock false inviteDate older blockIndex)
      as [[|b i|]|]; try contradiction.
    + destruct IH as (-> & newer & found & older' & -> & -> & Hle & Hnewer).
      split; [reflexivity|]. exists (item :: newer), found, older'.
      repeat split; [exact Hle | constructor; assumption].
    + constructor; assumption.
Qed.

Lemma scan_by_date (inviteDate : TimeId) (newestFirst : list HistoryBlock) :
  match insertJoinedMessage_scan false inviteDate newestFirst with
  | InTheMiddle b i =>
    exists newerBlocks blk olderBlocks newer found older,
      newestFirst = newerBlocks ++ blk :: olderBlocks
      /\ b = length olderBlocks
      /\ rev (messages blk) = newer ++ found :: older
      /\ i = S (length older)
      /\ date found <= inviteDate
      /\ Forall (fun item => inviteDate < date item) newer
      /\ Forall (fun b => Forall (fun item => inviteDate < date item) (messages b))
           newerBlocks
  | InFront =>
    Forall (fun b => Forall (fun item => inviteDate < date item) (messages b)) newestFirst
  | AfterMigration => False
  end.
Proof.
  induction newestFirst as [|blk olderBlocks IH]; simpl; [constructor|].
  pose proof (scanBlock_by_date inviteDate (rev (messages blk)) (length olderBlocks))
    as Hblock.
  destruct (insertJoinedMessage_scanBlock false inviteDate (rev (messages blk))
              (length olderBlocks)) as [[|b i|]|]; try contradiction.
  - destruct Hblock as (-> & newer & found & older & Hsplit & -> & Hle & Hnewer).
    exists [], blk, olderBlocks, newer, found, older.
    repeat split; try assumption. constructor.
  - assert (Forall (fun item => inviteDate < date item) (messages blk)) as Hblk.
    { rewrite <- (rev_involutive (messages blk)). apply Forall_rev. exact Hblock. }
    destruct (insertJoinedMessage_scan false inviteDate olderBlocks) as [|b i|];
      try contradiction.
    + destruct IH as (newerBlocks & blk' & olderBlocks' & newer & found & older
                      & -> & -> & Hsplit & -> & Hle & Hnewer & Hblocks).
      exists (blk :: newerBlocks), blk', olderBlocks', newer, found, older.
      repeat split; try assumption. constructor; assumption.
    + constructor; assumption.
Qed.

Lemma Forall_concat_messages (P : HistoryItem -> Prop) (bs : list HistoryBlock) :
  Forall (fun b => Forall P (messages b)) bs -> Forall P (concat (messages <$> bs)).
Proof.
  induction 1 as [|b bs Hb _ IH]; [constructor|].
  rewrite fmap_cons. cbn [concat]. apply Forall_app. split; assumption.
Qed.

Lemma placed_by_date (inviteDate : TimeId) (joined : HistoryItem) (bs : list HistoryBlock) :
  match insertJoinedMessage_scan false inviteDate (rev bs) with
  | InTheMiddle b i =>
    exists before after found,
      concat (messages <$> bs) = before ++ after
      /\ concat (messages <$> inserted joined b i bs) = before ++ joined :: after
      /\ Forall (fun item => inviteDate < date item) after
      /\ last before = Some found
      /\ date found <= inviteDate
  | InFront => Forall (fun item => inviteDate < date item) (concat (messages <$> bs))
  | AfterMigration => False
  end.
Proof.
  pose proof (scan_by_date inviteDate (rev bs)) as Hscan.
  destruct (insertJoinedMessage_scan false inviteDate (rev bs)) as [|b i|].
  - exact Hscan.
  - destruct Hscan as (newerBlocks & blk & olderBlocks & newer & found & older
                       & Hsplit & -> & Hblk & -> & Hle & Hnewer & Hblocks).
    assert (bs = rev olderBlocks ++ blk :: rev newerBlocks) as ->.
    { rewrite <- (rev_involutive bs), Hsplit, rev_app_distr. simpl.
      rewrite <- app_assoc. reflexivity. }
    assert (messages blk = (rev older ++ [found]) ++ rev newer) as Hmessages.
    { rewrite <- (rev_involutive (messages blk)), Hblk, rev_app_distr. simpl.
      rewrite <- app_assoc. reflexivity. }
    exists (concat (messages <$> rev olderBlocks) ++ rev older ++ [found]),
      (rev newer ++ concat (messages <$> rev newerBlocks)), found.
    split; [|split; [|split; [|split]]].
    + rewrite fmap_app, concat_app, fmap_cons. cbn [concat]. rewrite Hmessages.
      rewrite <- !app_assoc. reflexivity.
    + unfold inserted. rewrite <- (length_rev olderBlocks).
      replace (length (rev olderBlocks)) with (length (rev olderBlocks) + 0)%nat by lia.
      rewrite alter_app_r. cbn [alter list_alter].
      rewrite fmap_app, concat_app, fmap_cons. cbn [concat messages].
      rewrite Hmessages.
      assert (S (length older) = length (rev older ++ [found])) as ->
        by (rewrite length_app, length_rev; simpl; lia).
      rewrite take_app_length, drop_app_length. rewrite <- !app_assoc. reflexivity.
    + apply Forall_app. split; [apply Forall_rev; exact Hnewer|].
      apply Forall_concat_messages, Forall_rev. exact Hblocks.
    + rewrite !app_assoc. apply last_snoc.
    + exact Hle.
  - apply Forall_concat_messages. rewrite <- (rev_involutive bs). apply Forall_rev.
    exact Hscan.
Qed.

(** X25.  The joined message is placed by its date.  In a channel the user
    is in, whose inviter is known, that shows no joined message yet and is
    not a migrated megagroup, with no front block being built and the
    message to generate not displayed, [insertJoinedMessage] returns the
    generated joined message and displays it without reordering the loaded
    views: every view after it is dated later than the invitation, and the
    view right before it, if there is one, is not. *)
Theorem insertJoinedMessage_by_date (env : Env) (unread : bool) (h : History)
    (channel : ChannelData) (who : PeerRef) :
  asChannel (peer h) = Some channel ->
  _joinedMessage h = None ->
  amIn channel = true ->
  match mgInfo channel with
  | Some mg => joinedMessageFound mg = false /\ getMigrateFromChat mg = None
  | None => True
  end ->
  0 < inviter channel ->
  userLoaded env (inviter channel) = Some who ->
  _buildingFrontBlock h = None ->
  joined_message_fresh env h ->
  let joined := GenerateJoinedMessage env (inviteDate channel) who in
  exists h' before after,
    insertJoinedMessage env unread h = Done (Some joined) h'
    /\ views h = before ++ after
    /\ views h' = before ++ joined :: after
    /\ Forall (fun item => inviteDate channel < date item) after
    /\ (forall found, last before = Some found -> date found <= inviteDate channel).
Proof.
  intros Hchannel Hnone Hin Hmg Hinviter Hwho Hb Hfresh joined.
  unfold insertJoinedMessage.
  unfold mbind at 1, Op_bind at 1, get at 1. cbv beta iota.
  rewrite Hchannel, Hnone, Hin.
  rewrite bool_decide_eq_false_2 by (intros [? [=]]). cbn [negb orb].
  assert (match mgInfo channel with Some mg => joinedMessageFound mg | None => false end
          = false) as ->.
  { destruct (mgInfo channel) as [mg|]; [apply Hmg | reflexivity]. }
  assert (peer_isMegagroup (peer h) && bool_decide (is_Some (migrateFrom (peer h)))
          = false) as ->.
  { unfold migrateFrom, peer_isMegagroup, asMegagroup. unfold asChannel in Hchannel.
    destruct (peer_kind (peer h)) as [?|?|c]; try discriminate.
    injection Hchannel as ->. destruct (mgInfo channel) as [mg|]; [|reflexivity].
    destruct Hmg as [_ ->]. rewrite (bool_decide_eq_false_2 (is_Some None))
      by (intros [? [=]]). apply andb_false_r. }
  apply Z.ltb_lt in Hinviter. rewrite Hinviter, Hwho.
  fold joined.
  set (h2 := set_joinedMessage (Some joined)
               (set_items (<[id joined := joined]> (items h)) h)).
  assert (Hgen : generateJoinedMessage env (inviteDate channel) who h = Done joined h2)
    by reflexivity.
  assert (Hview2 : mainView joined h2 = false) by apply Hfresh.
  destruct (isEmpty h) eqn:Hempty.
  - unfold mbind at 1, Op_bind at 1. rewrite Hgen. cbv beta iota.
    unfold mbind at 1, Op_bind at 1.
    destruct (addNewItem_run env joined
                (if ref_id who =? userPeerId env then false else unread) h2 Hb Hview2)
      as (h3 & -> & K3).
    assert (blocks h = []) as Hblocks
      by (unfold isEmpty in Hempty; destruct (blocks h); [reflexivity | discriminate]).
    exists h3, [], []. split; [reflexivity|].
    unfold views. rewrite (layout_blocks _ _ K3). cbn [blocks set_blocks].
    rewrite views_appended. change (blocks h2) with (blocks h). rewrite Hblocks.
    repeat split; [constructor | discriminate].
  - pose proof (placed_by_date (inviteDate channel) joined (blocks h)) as Hplaced.
    destruct (insertJoinedMessage_scan false (inviteDate channel) (rev (blocks h)))
      as [|b i|] eqn:Hscan; [contradiction| |].
    + apply scan_place in Hscan as (blk & Hlook & Hle).
      rewrite rev_involutive in Hlook.
      unfold mbind at 1, Op_bind at 1. rewrite Hgen. cbv beta iota.
      unfold mbind at 1, Op_bind at 1.
      destruct (addNewInTheMiddle_run joined b i h2 blk Hlook Hle) as (h3 & -> & K3).
      cbv beta iota.
      match goal with
      | |- exists h' before after, ?m h3 = _ /\ _ =>
        assert (Hr : yields (keeps layout) (fun r => r = Some joined) m) by frame;
        destruct (Hr h3) as (r & h' & E & K & ->)
      end.
      destruct Hplaced as (before & after & found & Hv & Hv' & Hafter & Hlast & Hle').
      exists h', before, after. split; [exact E|]. split; [exact Hv|].
      split; [|split; [exact Hafter|]].
      * unfold views. rewrite (layout_blocks _ _ K), (layout_blocks _ _ K3). exact Hv'.
      * intros found' Hfound. rewrite Hlast in Hfound. injection Hfound as <-. exact Hle'.
    + destruct (insertJoinedMessage_front_run env (inviteDate channel) who h Hb
                  (Hfresh _ _)) as (h' & E & Ke & Kb).
      exists h', [], (views h). split; [exact E|]. split; [reflexivity|].
      split; [unfold views; rewrite Kb; reflexivity|].
      split; [exact Hplaced | discriminate].
Qed.

Lemma insertJoinedMessage_by_date_witness :
  exists h',
    insertJoinedMessage sample_env false invited_channel_window
    = Done (Some (plain_item (-1) 10)) h'
    /\ views h' = [plain_item 3 5; plain_item (-1) 10].
Proof.
  destruct (insertJoinedMessage_by_date sample_env false invited_channel_window
              {| mgInfo := None; amIn := true; inviter := 42; inviteDate := 10;
                 feed := false |}
              {| ref_id := 42; ref_isUser := true; ref_botInfo := false |})
    as (h' & before & after & E & Hv & Hv' & Hafter & Hbefore).
  - reflexivity.
  - reflexivity.
  - reflexivity.
  - exact I.
  - reflexivity.
  - reflexivity.
  - reflexivity.
  - intros d who. apply bool_decide_eq_false. intros Hin.
    apply list_elem_of_In in Hin. destruct Hin as [Hin|[]]. discriminate Hin.
  - exists h'. split; [exact E|]. rewrite Hv'.
    change (views invited_channel_window) with [plain_item 3 5] in Hv.
    destruct before as [|x [|y before]].
    + simpl in Hv. subst after. apply Forall_inv in Hafter. simpl in Hafter. lia.
    + injection Hv as <- <-. reflexivity.
    + destruct before; discriminate Hv.
Defined.

(** ** An older page *)

Lemma keeps_layout_built h h' : keeps layout h h' -> keeps built h h'.
Proof. unfold keeps, layout, built. intros H. inversion H. congruence. Qed.

Lemma update_chat_built f : runs (keeps built) (update_chat f).
Proof. eapply yields_weaken; [apply keeps_layout_built | apply update_chat_layout]. Qed.

Lemma update_mgInfo_built f : runs (keeps built) (update_mgInfo f).
Proof. eapply yields_weaken; [apply keeps_layout_built | apply update_mgInfo_layout]. Qed.

Lemma clearLastKeyboard_built env : runs (keeps built) (clearLastKeyboard env).
Proof. eapply yields_weaken; [apply keeps_layout_built | apply clearLastKeyboard_layout]. Qed.

Lemma setLastMessage_built env item : runs (keeps built) (setLastMessage env item).
Proof. eapply yields_weaken; [apply keeps_layout_built | apply setLastMessage_layout]. Qed.

#[local] Hint Resolve update_chat_built update_mgInfo_built clearLastKeyboard_built
  setLastMessage_built : frame.

Lemma setUnreadMentionsCount_built env count :
  runs (keeps built) (setUnreadMentionsCount env count).
Proof. unfold setUnreadMentionsCount. frame. Qed.

#[local] Hint Resolve setUnreadMentionsCount_built : frame.

Lemma addToUnreadMentions_built env msgId type :
  runs (keeps built) (addToUnreadMentions env msgId type).
Proof. unfold addToUnreadMentions. frame. Qed.

#[local] Hint Resolve addToUnreadMentions_built : frame.

Lemma HistoryItem_addToUnreadMentions_built env item type :
  runs (keeps built) (HistoryItem_addToUnreadMentions env item type).
Proof. unfold HistoryItem_addToUnreadMentions. frame. Qed.

#[local] Hint Resolve HistoryItem_addToUnreadMentions_built : frame.

Lemma checkAddAllToUnreadMentions_built env :
  runs (keeps built) (checkAddAllToUnreadMentions env).
Proof. unfold checkAddAllToUnreadMentions. frame. Qed.

Lemma setKeyboardFrom_built item : runs (keeps built) (setKeyboardFrom item).
Proof. unfold setKeyboardFrom. frame. Qed.

#[local] Hint Resolve checkAddAllToUnreadMentions_built setKeyboardFrom_built : frame.

Lemma addItemsToLists_keyboard_built env item :
  runs (keeps built) (addItemsToLists_keyboard env item).
Proof. unfold addItemsToLists_keyboard. frame. Qed.

#[local] Hint Resolve addItemsToLists_keyboard_built : frame.

Lemma addItemsToLists_built env added : runs (keeps built) (addItemsToLists env added).
Proof. unfold addItemsToLists. frame. Qed.

Lemma addToSharedMedia_built env added : runs (keeps built) (addToSharedMedia env added).
Proof. unfold addToSharedMedia. frame. Qed.

Lemma checkLastMessage_built env : runs (keeps built) (checkLastMessage env).
Proof. unfold checkLastMessage. frame. Qed.

#[local] Hint Resolve addItemsToLists_built addToSharedMedia_built
  checkLastMessage_built : frame.

Lemma set_items_twice a b (h : History) : set_items a (set_items b h) = set_items a h.
Proof. destruct h; reflexivity. Qed.

Lemma createItems_loop_fresh (env : Env) (messages : list MTPMessage) (h : History) :
  Forall (fun message => IdFromMessage message <> 0) messages ->
  NoDup (IdFromMessage <$> messages) ->
  Forall (fun message => items h !! IdFromMessage message = None) messages ->
  createItems_loop env messages h
  = Done (mtp_item <$> messages) (set_items (registered messages (items h)) h).
Proof.
  revert h. induction messages as [|message rest IH]; intros h Hids Hdistinct Hfresh.
  - simpl. destruct h; reflexivity.
  - apply Forall_cons in Hids as [Hid Hids].
    rewrite fmap_cons in Hdistinct. apply NoDup_cons in Hdistinct as [Hother Hdistinct].
    apply Forall_cons in Hfresh as [Hnew Hfresh].
    cbn [createItems_loop]. unfold mbind at 1, Op_bind at 1.
    rewrite (createItem_fresh env message true h Hid Hnew).
    unfold mbind at 1, Op_bind at 1. rewrite IH; [| exact Hids | exact Hdistinct |].
    + cbn [mret Op_ret]. rewrite set_items_twice. reflexivity.
    + apply Forall_forall. intros m Hm.
      change (items (set_items ?r h)) with r.
      rewrite lookup_insert_ne.
      * rewrite Forall_forall in Hfresh. apply Hfresh. exact Hm.
      * intros Heq. apply Hother. rewrite Heq.
        apply list_elem_of_fmap. exists m. split; [reflexivity | exact Hm].
Qed.

Lemma addItemToBlock_front_next (item : HistoryItem) (n : Z) (front : HistoryBlock)
    (rest : list HistoryBlock) (h : History) :
  _buildingFrontBlock h = Some {| expectedItemsCount := n; block := Some 0%nat |} ->
  blocks h = front :: rest ->
  mainView item h = false ->
  exists left,
    addItemToBlock item h
    = Done tt (set_buildingFrontBlock
                 (Some {| expectedItemsCount := left; block := Some 0%nat |})
                 (set_blocks (HistoryBlock_push_back item front :: rest) h)).
Proof.
  intros Hb Hblocks Hview.
  unfold addItemToBlock, prepareBlockForAddingItem, mbind, Op_bind, get, Expects.
  rewrite Hview. cbn [negb]. unfold skip, mret, Op_ret, when, modify. cbv beta iota.
  rewrite Hb. cbn. rewrite Hblocks, Hb. cbn.
  destruct (0 <? n); [eexists; reflexivity|].
  exists n. f_equal. destruct h. cbn in Hb, Hblocks |- *. subst. reflexivity.
Qed.

Lemma front_twice b2 bs2 b1 bs1 (h : History) :
  set_buildingFrontBlock b2 (set_blocks bs2 (set_buildingFrontBlock b1 (set_blocks bs1 h)))
  = set_buildingFrontBlock b2 (set_blocks bs2 h).
Proof. destruct h; reflexivity. Qed.

(** The loop of [addOlderSlice] once the front block exists: every item
    goes to the end of the front block. *)
Lemma build_front (added : list HistoryItem) :
  forall (h : History) (n : Z) (front : HistoryBlock) (rest : list HistoryBlock),
    _buildingFrontBlock h = Some {| expectedItemsCount := n; block := Some 0%nat |} ->
    blocks h = front :: rest ->
    NoDup added ->
    Forall (fun item => item ∉ views h) added ->
    exists left,
      for_each added addItemToBlock h
      = Done tt (set_buildingFrontBlock
                   (Some {| expectedItemsCount := left; block := Some 0%nat |})
                   (set_blocks ({| messages := messages front ++ added |} :: rest) h)).
Proof.
  induction added as [|item more IH]; intros h n front rest Hb Hblocks Hdistinct Hnew.
  - exists n. cbn [for_each]. unfold skip, mret, Op_ret. f_equal.
    rewrite app_nil_r. destruct h, front. cbn in Hb, Hblocks |- *. subst. reflexivity.
  - apply NoDup_cons in Hdistinct as [Hother Hdistinct].
    apply Forall_cons in Hnew as [Hitem Hnew].
    assert (mainView item h = false) as Hview by (apply bool_decide_eq_false; exact Hitem).
    destruct (addItemToBlock_front_next item n front rest h Hb Hblocks Hview) as (left & E).
    cbn [for_each]. unfold mbind at 1, Op_bind at 1. rewrite E.
    match goal with
    | |- context [for_each more addItemToBlock ?h1] =>
      destruct (IH h1 left (HistoryBlock_push_back item front) rest) as (left' & ->);
        [reflexivity | reflexivity | exact Hdistinct | |]
    end.
    + apply Forall_forall. intros m Hm. unfold views. cbn [blocks set_blocks set_buildingFrontBlock].
      rewrite fmap_cons. cbn [concat messages HistoryBlock_push_back].
      rewrite Forall_forall in Hnew. pose proof (Hnew m Hm) as Hfresh.
      unfold views in Hfresh. rewrite Hblocks, fmap_cons in Hfresh. cbn [concat] in Hfresh.
      rewrite !elem_of_app, list_elem_of_singleton in *.
      intros [[Hin | ->] | Hin]; [apply Hfresh; left; exact Hin | exact (Hother Hm)
                              | apply Hfresh; right; exact Hin].
    + exists left'. rewrite front_twice. cbn [messages HistoryBlock_push_back].
      rewrite <- app_assoc. reflexivity.
Qed.

Lemma fmap_rev {A B} (f : A -> B) (l : list A) : f <$> rev l = rev (f <$> l).
Proof.
  induction l as [|x l IH]; [reflexivity|].
  simpl. rewrite fmap_app, IH. reflexivity.
Qed.

Lemma NoDup_reversed {A} (l : list A) : NoDup l -> NoDup (rev l).
Proof. rewrite !NoDup_ListNoDup. apply List.NoDup_rev. Qed.

Lemma unseen_page_items (slice : list MTPMessage) (h : History) :
  unseen_page slice h ->
  NoDup (mtp_item <$> rev slice)
  /\ Forall (fun item => item ∉ views h) (mtp_item <$> rev slice).
Proof.
  intros (_ & Hdistinct & _ & Hnew). split.
  - apply (NoDup_fmap_1 id). rewrite <- list_fmap_compose.
    change (id ∘ mtp_item) with IdFromMessage.
    rewrite fmap_rev. apply NoDup_reversed. exact Hdistinct.
  - apply Forall_fmap. apply Forall_rev. exact Hnew.
Qed.

(** X26.  An older page goes in front.  For a page, not empty, of messages
    that the window has not seen, in a conversation that is not a channel and with
    no front block being built, [addOlderSlice] finishes and puts the items
    of the page, oldest first, into one new block in front of the loaded
    ones; the build is finished afterwards, and a page that is not empty
    does not mark the top as reached. *)
Theorem addOlderSlice_prepends (env : Env) (slice : list MTPMessage) (h : History) :
  slice <> [] ->
  unseen_page slice h ->
  _buildingFrontBlock h = None ->
  peer_isChannel (peer h) = false ->
  exists h',
    addOlderSlice env slice h = Done tt h'
    /\ blocks h' = {| messages := mtp_item <$> rev slice |} :: blocks h
    /\ views h' = (mtp_item <$> rev slice) ++ views h
    /\ _buildingFrontBlock h' = None
    /\ _loadedAtTop h' = _loadedAtTop h.
Proof.
  intros Hsome Hpage Hbuild Hchannel.
  destruct (unseen_page_items slice h Hpage) as [Hdistinct Hnew].
  destruct Hpage as (Hids & Hnodup & Hfresh & _).
  assert (createItems env slice h
          = Done (mtp_item <$> rev slice) (set_items (registered (rev slice) (items h)) h))
    as Hcreate.
  { unfold createItems. apply createItems_loop_fresh.
    - apply Forall_rev. exact Hids.
    - rewrite fmap_rev. apply NoDup_reversed. exact Hnodup.
    - apply Forall_rev. exact Hfresh. }
  unfold addOlderSlice. destruct slice as [|newest slice]; [contradiction|].
  unfold mbind at 1, Op_bind at 1, mbind at 1, Op_bind at 1. rewrite Hcreate.
  set (h1 := set_items _ h).
  destruct (mtp_item <$> rev (newest :: slice)) as [|first more] eqn:Hadded.
  { apply (f_equal length) in Hadded. rewrite length_fmap, length_rev in Hadded.
    discriminate Hadded. }
  apply NoDup_cons in Hdistinct as [Hother Hdistinct].
  apply Forall_cons in Hnew as [Hfirst Hnew].
  unfold mbind at 1, Op_bind at 1.
  rewrite (startBuildingFrontBlock_run (Z.of_nat (length (first :: more))) h1)
    by (exact Hbuild || (simpl length; lia)).
  match goal with
  | |- context [set_buildingFrontBlock ?b h1] => set (h2 := set_buildingFrontBlock b h1)
  end.
  cbv beta iota. unfold mbind at 1, Op_bind at 1. cbn [for_each].
  unfold mbind at 1, Op_bind at 1.
  assert (mainView first h2 = false) as Hview by (apply bool_decide_eq_false; exact Hfirst).
  destruct (addItemToBlock_front_run first _ h2 eq_refl Hview) as (left & ->).
  match goal with
  | |- context [for_each more addItemToBlock ?x] => set (h3 := x)
  end.
  destruct (build_front more h3 left {| messages := [first] |} (blocks h))
    as (left' & ->); [reflexivity | reflexivity | exact Hdistinct | |].
  { apply Forall_forall. intros m Hm. rewrite Forall_forall in Hnew.
    change (views h3) with (first :: views h). rewrite elem_of_cons.
    intros [-> | Hin]; [exact (Hother Hm) | exact (Hnew m Hm Hin)]. }
  cbv beta iota. unfold mbind at 1, Op_bind at 1.
  match goal with
  | |- context [finishBuildingFrontBlock ?x] => set (h4 := x)
  end.
  destruct (finishBuildingFrontBlock_run _ h4 eq_refl) as (fx & ->).
  match goal with
  | |- context [set_effects fx ?x] => set (h5 := set_effects fx x)
  end.
  assert (built h5 = ({| messages := first :: more |} :: blocks h, None, _loadedAtTop h))
    as B5 by reflexivity.
  assert (peer_isChannel (peer h5) = false) as C5 by exact Hchannel.
  cbv beta iota.
  match goal with
  | |- context [?tail h5] =>
    lazymatch tail with
    | get ≫= _ =>
      assert (Hr : runs (keeps built) tail) by frame;
      assert (Hs : preserves settled tail) by preserve;
      destruct (runs_unit _ _ h5 Hr) as (h6 & E6 & B6);
      pose proof (Hs _ _ _ E6) as S6; rewrite E6; clear Hr Hs
    end
  end.
  assert (peer_isChannel (peer h6) = false) as C6.
  { unfold settled in S6. pose proof (f_equal snd S6) as Hkind. cbn [snd] in Hkind.
    injection Hkind as _ _ Hc _. rewrite Hc. exact C5. }
  cbv beta iota. unfold mbind at 1, Op_bind at 1.
  rewrite checkJoinedMessage_nothing_pending.
  2:{ intros channel Hch. unfold peer_isChannel in C6. rewrite Hch in C6.
      rewrite bool_decide_eq_true_2 in C6 by eauto. discriminate C6. }
  destruct (runs_unit _ _ h6 (checkLastMessage_built env)) as (h7 & -> & B7).
  exists h7. split; [reflexivity|].
  unfold keeps in B6, B7. rewrite B6, B5 in B7. unfold built in B7.
  injection B7 as Hblocks Hbuilder Htop.
  unfold views. rewrite Hblocks. repeat split; assumption.
Qed.

Lemma addOlderSlice_prepends_witness :
  exists h',
    addOlderSlice sample_env [incoming_message 2 4; incoming_message 1 3] two_unread_window
    = Done tt h'
    /\ views h' = [plain_item 1 3; plain_item 2 4] ++ views two_unread_window.
Proof.
  destruct (addOlderSlice_prepends sample_env [incoming_message 2 4; incoming_message 1 3]
              two_unread_window) as (h' & E & _ & Hviews & _).
  - discriminate.
  - split; [|split; [|split]].
    + repeat constructor; discriminate.
    + apply NoDup_ListNoDup. repeat constructor; simpl; intros H;
        repeat destruct H as [H|H]; discriminate || exact H.
    + repeat constructor.
    + repeat constructor; intros H; apply list_elem_of_In in H; simpl in H;
        repeat destruct H as [H|H]; discriminate || exact H.
  - reflexivity.
  - reflexivity.
  - exists h'. split; [exact E | exact Hviews].
Defined.

(** ** A newer page *)

Lemma set_blocks_twice a b (h : History) : set_blocks a (set_blocks b h) = set_blocks a h.
Proof. destruct h; reflexivity. Qed.

(** The loop of [addNewerSlice]: every item is appended after the views
    displayed so far. *)
Lemma append_all (added : list HistoryItem) :
  forall h : History,
    _buildingFrontBlock h = None ->
    NoDup added ->
    Forall (fun item => item ∉ views h) added ->
    exists bs,
      for_each added addItemToBlock h = Done tt (set_blocks bs h)
      /\ concat (messages <$> bs) = views h ++ added.
Proof.
  induction added as [|item more IH]; intros h Hb Hdistinct Hnew.
  - exists (blocks h). split; [|rewrite app_nil_r; reflexivity].
    cbn [for_each]. unfold skip, mret, Op_ret. f_equal. destruct h; reflexivity.
  - apply NoDup_cons in Hdistinct as [Hother Hdistinct].
    apply Forall_cons in Hnew as [Hitem Hnew].
    assert (mainView item h = false) as Hview by (apply bool_decide_eq_false; exact Hitem).
    cbn [for_each]. unfold mbind at 1, Op_bind at 1.
    rewrite (addItemToBlock_run item h Hb Hview).
    set (h1 := set_blocks (appended item (blocks h)) h).
    assert (views h1 = views h ++ [item]) as Hviews by apply views_appended.
    destruct (IH h1) as (bs & -> & Hbs); [exact Hb | exact Hdistinct | |].
    + apply Forall_forall. intros m Hm. rewrite Forall_forall in Hnew.
      rewrite Hviews, elem_of_app, list_elem_of_singleton.
      intros [Hin | ->]; [exact (Hnew m Hm Hin) | exact (Hother Hm)].
    + exists bs. split; [unfold h1; rewrite set_blocks_twice; reflexivity|].
      rewrite Hbs, Hviews, <- app_assoc. reflexivity.
Qed.

(** X27.  A newer page goes to the end.  For a page, not empty, of
    messages that the window has not seen, in a conversation that is not a channel and with
    no front block being built, [addNewerSlice] finishes and displays the
    items of the page, oldest first, after the views loaded before; no
    front block is being built afterwards and the top edge is as before. *)
Theorem addNewerSlice_appends (env : Env) (slice : list MTPMessage) (h : History) :
  slice <> [] ->
  unseen_page slice h ->
  _buildingFrontBlock h = None ->
  peer_isChannel (peer h) = false ->
  exists h',
    addNewerSlice env slice h = Done tt h'
    /\ views h' = views h ++ (mtp_item <$> rev slice)
    /\ _buildingFrontBlock h' = None
    /\ _loadedAtTop h' = _loadedAtTop h.
Proof.
  intros Hsome Hpage Hbuild Hchannel.
  destruct (unseen_page_items slice h Hpage) as [Hdistinct Hnew].
  destruct Hpage as (Hids & Hnodup & Hfresh & _).
  assert (createItems env slice h
          = Done (mtp_item <$> rev slice) (set_items (registered (rev slice) (items h)) h))
    as Hcreate.
  { unfold createItems. apply createItems_loop_fresh.
    - apply Forall_rev. exact Hids.
    - rewrite fmap_rev. apply NoDup_reversed. exact Hnodup.
    - apply Forall_rev. exact Hfresh. }
  unfold addNewerSlice. destruct slice as [|newest slice]; [contradiction|].
  unfold mbind at 1, Op_bind at 1, get at 1. cbv beta iota zeta.
  unfold mbind at 1, Op_bind at 1. unfold skip at 1, mret at 1, Op_ret at 1.
  cbv beta iota.
  unfold mbind at 1, Op_bind at 1. rewrite Hcreate.
  set (h1 := set_items _ h).
  destruct (mtp_item <$> rev (newest :: slice)) as [|first more] eqn:Hadded.
  { apply (f_equal length) in Hadded. rewrite length_fmap, length_rev in Hadded.
    discriminate Hadded. }
  unfold mbind at 1, Op_bind at 1, mbind at 1, Op_bind at 1, get at 1. cbv beta iota.
  unfold isBuildingFrontBlock.
  change (_buildingFrontBlock h1) with (_buildingFrontBlock h). rewrite Hbuild.
  rewrite bool_decide_eq_false_2 by (intros [? [=]]). cbn [negb].
  unfold mbind at 1, Op_bind at 1.
  change (Expects _ _ true h1) with (Done tt h1). cbv beta iota.
  unfold mbind at 1, Op_bind at 1.
  destruct (append_all (first :: more) h1 Hbuild Hdistinct Hnew) as (bs & -> & Hbs).
  set (h2 := set_blocks bs h1).
  assert (built h2 = (bs, None, _loadedAtTop h)) as B2.
  { unfold built. change (_buildingFrontBlock h2) with (_buildingFrontBlock h).
    rewrite Hbuild. reflexivity. }
  assert (peer_isChannel (peer h2) = false) as C2 by exact Hchannel.
  cbv beta iota.
  destruct (runs_unit _ _ h2 (addToSharedMedia_built env (first :: more)))
    as (h3 & E3 & B3).
  pose proof (addToSharedMedia_settled env _ _ _ _ E3) as S3. rewrite E3.
  cbv beta iota. unfold mbind at 1, Op_bind at 1.
  match goal with
  | |- context [when ?b ?m h3] =>
    assert (Hr : runs (keeps built) (when b m)) by frame;
    assert (Hs : preserves settled (when b m)) by preserve;
    destruct (runs_unit _ _ h3 Hr) as (h4 & E4 & B4);
    pose proof (Hs _ _ _ E4) as S4; rewrite E4; clear Hr Hs
  end.
  assert (peer_isChannel (peer h4) = false) as C4.
  { rewrite S3 in S4. unfold settled in S4.
    pose proof (f_equal snd S4) as Hkind. cbn [snd] in Hkind.
    injection Hkind as _ _ Hc _. rewrite Hc. exact C2. }
  cbv beta iota. unfold mbind at 1, Op_bind at 1.
  rewrite checkJoinedMessage_nothing_pending.
  2:{ intros channel Hch. unfold peer_isChannel in C4. rewrite Hch in C4.
      rewrite bool_decide_eq_true_2 in C4 by eauto. discriminate C4. }
  destruct (runs_unit _ _ h4 (checkLastMessage_built env)) as (h5 & -> & B5).
  exists h5. split; [reflexivity|].
  unfold keeps in B3, B4, B5. rewrite B4, B3, B2 in B5. unfold built in B5.
  injection B5 as Hblocks Hbuilder Htop.
  unfold views at 1. rewrite Hblocks, Hbs. repeat split; assumption.
Qed.

Lemma addNewerSlice_appends_witness :
  exists h',
    addNewerSlice sample_env [incoming_message 9 12; incoming_message 8 11] two_unread_window
    = Done tt h'
    /\ views h' = views two_unread_window ++ [plain_item 8 11; plain_item 9 12].
Proof.
  destruct (addNewerSlice_appends sample_env [incoming_message 9 12; incoming_message 8 11]
              two_unread_window) as (h' & E & Hviews & _).
  - discriminate.
  - split; [|split; [|split]].
    + repeat constructor; discriminate.
    + apply NoDup_ListNoDup. repeat constructor; simpl; intros H;
        repeat destruct H as [H|H]; discriminate || exact H.
    + repeat constructor.
    + repeat constructor; intros H; apply list_elem_of_In in H; simpl in H;
        repeat destruct H as [H|H]; discriminate || exact H.
  - reflexivity.
  - reflexivity.
  - exists h'. split; [exact E | exact Hviews].
Defined.

(** ** Members of a megagroup *)

(** X28.  Who joins by link is listed once.  When the service message of a
    user joining a megagroup by link is applied, the user is among the last
    participants afterwards: put in front if not listed yet, otherwise the
    list is as it was, so a list without duplicates stays without
    duplicates; a bot is recorded as a bot of the group. *)
Theorem applyServiceChanges_joined_by_link (env : Env) (item : HistoryItem) (h : History)
    (mg : MegagroupInfo) :
  asMegagroup (peer h) = Some mg ->
  ref_isUser (from item) = true ->
  exists h' mg',
    applyServiceChanges env item messageActionChatJoinedByLink h = Done tt h'
    /\ asMegagroup (peer h') = Some mg'
    /\ lastParticipants mg'
       = (if bool_decide (ref_id (from item) ∈ lastParticipants mg)
          then lastParticipants mg
          else ref_id (from item) :: lastParticipants mg)
    /\ ref_id (from item) ∈ lastParticipants mg'
    /\ (NoDup (lastParticipants mg) -> NoDup (lastParticipants mg'))
    /\ (ref_botInfo (from item) = true -> ref_id (from item) ∈ bots mg').
Proof.
  intros Hmg Huser.
  destruct h as [[pid kind cw] bs top bot bld irb orb uc um ums umc lm clm ld cd nt
                 fuv ubv sti jm lki lkid lkh lkf lku mu ty sa it fx].
  unfold asMegagroup in Hmg. cbn in Hmg.
  destruct kind as [user|chat|[info joined who when_ fd]]; try discriminate.
  cbn in Hmg. subst info.
  unfold applyServiceChanges, applyServiceChanges_joined, mgInfo_addBot, update_mgInfo,
    mbind, Op_bind, get, modify, call, skip, mret, Op_ret.
  rewrite Huser. cbn [when asMegagroup peer peer_kind mgInfo].
  destruct (bool_decide (ref_id (from item) ∈ lastParticipants mg)) eqn:Hlisted;
    destruct (ref_botInfo (from item)) eqn:Hbot;
    cbn -[elem_of union singleton];
    repeat match goal with
           | |- context [if ?b then _ else _] => destruct b eqn:?
           end;
    (eexists _, _; split; [reflexivity|]; split; [reflexivity|]);
    cbn -[elem_of union singleton];
    (split; [reflexivity|]);
    (split; [first [apply bool_decide_eq_true in Hlisted; exact Hlisted
                   | apply list_elem_of_here]|]);
    (split; [first [intros Hnodup; exact Hnodup
                   | intros Hnodup; apply NoDup_cons;
                     split; [apply bool_decide_eq_false in Hlisted; exact Hlisted
                            | exact Hnodup]]|]);
    first [discriminate | intros _; apply elem_of_union_l, elem_of_singleton; reflexivity].
Qed.

Lemma applyServiceChanges_joined_by_link_witness :
  exists h' mg',
    applyServiceChanges sample_env (authored_item 9 9 42) messageActionChatJoinedByLink
      megagroup_window = Done tt h'
    /\ asMegagroup (peer h') = Some mg'
    /\ lastParticipants mg' = [42; 40; 41].
Proof.
  destruct (applyServiceChanges_joined_by_link sample_env (authored_item 9 9 42)
              megagroup_window
              {| lastParticipants := [40; 41]; bots := {[ 41 ]};
                 botStatus := 2; markupSenders := ∅;
                 joinedMessageFound := true; getMigrateFromChat := None |})
    as (h' & mg' & E & Hmg & Hlist & _).
  - reflexivity.
  - reflexivity.
  - exists h', mg'. split; [exact E|]. split; [exact Hmg|]. rewrite Hlist. reflexivity.
Defined.

Lemma delete_keeps_others (l : list PeerId) (i : nat) (x u : PeerId) :
  l !! i = Some x -> u <> x -> (u ∈ delete i l <-> u ∈ l).
Proof.
  intros Hat Hne. split; [apply list_elem_of_delete_inv|].
  intros Hu. apply list_elem_of_lookup in Hu as [j Hj].
  assert (j <> i) as Hji by (intros ->; congruence).
  destruct (lt_dec j i) as [Hlt|Hge].
  - eapply list_elem_of_lookup_2. rewrite list_lookup_delete_lt by exact Hlt. exact Hj.
  - eapply list_elem_of_lookup_2 with (i := pred j).
    rewrite list_lookup_delete_ge by lia. replace (S (pred j)) with j by lia. exact Hj.
Qed.

(** X29.  Who is removed is no longer a member.  When the service message
    of a known user being removed from a megagroup is applied, the user is
    no bot of the group any more and the other last participants stay
    listed; a list of last participants without duplicates becomes the
    list without the user; when the last bot goes, a positive bot status
    becomes [-1]; and a reply keyboard that came from the user is
    cleared. *)
Theorem applyServiceChanges_removed_member (env : Env) (item : HistoryItem) (h : History)
    (mg : MegagroupInfo) (uid : UserId) (user : PeerRef) :
  asMegagroup (peer h) = Some mg ->
  userLoaded env uid = Some user ->
  exists h' mg',
    applyServiceChanges env item (messageActionChatDeleteUser uid) h = Done tt h'
    /\ asMegagroup (peer h') = Some mg'
    /\ (ref_id user ∉ bots mg')
    /\ (forall other, other <> ref_id user ->
          (other ∈ lastParticipants mg' <-> other ∈ lastParticipants mg))
    /\ (NoDup (lastParticipants mg) ->
        lastParticipants mg' = filter (fun u => u <> ref_id user) (lastParticipants mg))
    /\ (bots mg ⊆ {[ ref_id user ]} -> 0 < botStatus mg -> botStatus mg' = -1)
    /\ (lastKeyboardFrom h = peerFromUser env uid ->
        lastKeyboardId h' = 0 /\ lastKeyboardFrom h' = 0).
Proof.
  intros Hmg Huser.
  unfold applyServiceChanges. unfold mbind at 1, Op_bind at 1, get at 1. cbv beta iota.
  rewrite Hmg, Huser. unfold mbind at 1, Op_bind at 1.
  assert (exists h1,
            when (lastKeyboardFrom h =? peerFromUser env uid) (clearLastKeyboard env) h
            = Done tt h1
            /\ peer h1 = peer h
            /\ (lastKeyboardFrom h = peerFromUser env uid ->
                lastKeyboardId h1 = 0 /\ lastKeyboardFrom h1 = 0))
    as (h1 & -> & Hpeer & Hkeyboard).
  { destruct (Z.eqb_spec (lastKeyboardFrom h) (peerFromUser env uid)) as [Hfrom|Hother];
      cbn [when].
    - destruct (clearLastKeyboard_run env h) as (h1 & E & K & Hid & Hkfrom & _).
      exists h1. split; [exact E|]. split; [|intros _; split; assumption].
      unfold beside_keyboard in K. inversion K. congruence.
    - exists h. split; [reflexivity|]. split; [reflexivity | contradiction]. }
  rewrite <- Hpeer in Hmg. clear Hpeer.
  destruct h1 as [[pid kind cw] bs top bot bld irb orb uc um ums umc lm clm ld cd nt
                  fuv ubv sti jm lki lkid lkh lkf lku mu ty sa it fx].
  unfold asMegagroup in Hmg. cbn in Hmg.
  destruct kind as [?|chat|[info joined who when_ fd]]; try discriminate.
  cbn in Hmg. subst info. cbn [lastKeyboardId lastKeyboardFrom] in Hkeyboard.
  unfold update_mgInfo, mbind, Op_bind, get, modify, call, skip, mret, Op_ret.
  destruct (list_find (fun u => u = ref_id user) (lastParticipants mg))
    as [[i found]|] eqn:Hfind;
    cbn -[elem_of difference singleton subseteq filter];
    match goal with
    | |- context [if ?b then _ else _] => destruct b eqn:Hlast
    end;
    (eexists _, _; split; [reflexivity|]; split; [reflexivity|]);
    cbn -[elem_of difference singleton subseteq filter].
  all: split;
    [rewrite elem_of_difference, elem_of_singleton; intros [_ Hne]; apply Hne; reflexivity|].
  all: split;
    [intros other Hother;
     first [reflexivity
           | apply list_find_Some in Hfind as (Hat & -> & _);
             eapply delete_keeps_others; eassumption]|].
  all: split;
    [intros Hnodup;
     first [apply list_find_Some in Hfind as (Hat & -> & _);
            apply delete_only_occurrence; assumption
           | apply list_find_None in Hfind; symmetry; apply filter_others;
             intros Hin; rewrite Forall_forall in Hfind; exact (Hfind _ Hin eq_refl)]|].
  all: split; [|exact Hkeyboard].
  all: intros Hsub Hpos; try reflexivity; exfalso.
  all: assert (bots mg ∖ {[ref_id user]} = ∅) as Hempty
         by (apply set_eq; intros x; rewrite elem_of_difference, elem_of_empty;
             split; [intros [Hin Hout]; apply Hout, Hsub, Hin | contradiction]).
  all: rewrite Hempty in Hlast; apply Z.ltb_lt in Hpos; rewrite Hpos in Hlast;
         rewrite bool_decide_eq_true_2 in Hlast by reflexivity; discriminate Hlast.
Qed.

Lemma applyServiceChanges_removed_member_witness :
  exists h' mg',
    applyServiceChanges sample_env (plain_item 9 9) (messageActionChatDeleteUser 41)
      megagroup_window = Done tt h'
    /\ asMegagroup (peer h') = Some mg'
    /\ lastParticipants mg' = [40]
    /\ botStatus mg' = -1.
Proof.
  destruct (applyServiceChanges_removed_member sample_env (plain_item 9 9) megagroup_window
              {| lastParticipants := [40; 41]; bots := {[ 41 ]};
                 botStatus := 2; markupSenders := ∅;
                 joinedMessageFound := true; getMigrateFromChat := None |}
              41 {| ref_id := 41; ref_isUser := true; ref_botInfo := false |})
    as (h' & mg' & E & Hmg & _ & _ & Hlist & Hstatus & _).
  - reflexivity.
  - reflexivity.
  - exists h', mg'. split; [exact E|]. split; [exact Hmg|]. split.
    + rewrite Hlist; [reflexivity|].
      apply NoDup_ListNoDup. repeat constructor; simpl; intros H;
        repeat destruct H as [H|H]; discriminate || exact H.
    + apply Hstatus; [reflexivity | reflexivity].
Defined.
